(** * KinectServer: streaming 3D video from Kinect cameras to TCP clients

    A shallow embedding of [KinectServer.cpp]: the per-camera compression
    callbacks, the listening thread that sends the stream headers to a new
    client, the streaming thread that assembles meta-frames and fans each
    compressed frame out to the client list, and the constructor.

    Threads are modelled by interleaving: the streaming thread is a function
    on the state of the whole server, and the other threads (the cameras'
    decoding threads, the listening thread, the remote peers) act through a
    schedule of events that is consulted each time the streaming thread is
    about to look at shared state. *)

From Stdlib Require Import ZArith List Bool Lia Arith Permutation.
From Stdlib.Strings Require String.
From Stdlib.Strings Require Import Byte.
Import ListNotations.
Open Scope Z_scope.

Set Implicit Arguments.

(** ** Machine integers *)

(** [unsigned int] arithmetic: every result is reduced modulo 2^32. *)
Definition wrap32 (z : Z) : Z := z mod 2 ^ 32.

Definition Blob := list byte.

(** ** Sockets *)

(** The two kinds of exception the handlers tell apart:
    [catch(std::runtime_error)] and [catch(...)]. *)
Inductive Exn := RuntimeError | OtherExn.

(** What a call on a pipe puts on the wire, in call order. *)
Inductive WireItem :=
| U32 (v : Z)             (* write<unsigned int>(v) *)
| Buffers (b : Blob)      (* writeToSink of a stored buffer chain *)
| Marshalled (b : Blob)   (* Misc::Marshaller<...>::write *)
| Flush.                  (* flush() *)

(** Modelled from the spec: [Comm::TCPPipe] is a class of the communication
    library the server is linked against; the server uses its zero-timeout
    readability check, its typed reads and writes and [flush], any of which
    may throw.  [sockId] identifies the pipe object: every accepted
    connection gets a new one;
    [incoming] are the words the peer has sent and the server has not read;
    [outgoing] is everything written so far, oldest first; [faults] decides
    the fate of the calls to come on this pipe, one entry per call
    ([Some e]: the call throws [e]); when the list runs out no call fails. *)
Record TCPPipe := mkPipe {
  sockId : nat;
  incoming : list Z;
  outgoing : list WireItem;
  faults : list (option Exn)
}.

Definition setFaults (p : TCPPipe) (fs : list (option Exn)) : TCPPipe :=
  mkPipe (sockId p) (incoming p) (outgoing p) fs.
Definition setIncoming (p : TCPPipe) (i : list Z) : TCPPipe :=
  mkPipe (sockId p) i (outgoing p) (faults p).
Definition emit (p : TCPPipe) (x : WireItem) : TCPPipe :=
  mkPipe (sockId p) (incoming p) (outgoing p ++ [x]) (faults p).

(** Calls on a pipe: an error monad over the pipe's state. *)
Definition SockM (A : Type) : Type := TCPPipe -> (Exn + A) * TCPPipe.

Definition sret {A} (a : A) : SockM A := fun p => (inr a, p).
Definition sbind {A B} (m : SockM A) (k : A -> SockM B) : SockM B :=
  fun p => match m p with
           | (inr a, p') => k a p'
           | (inl e, p') => (inl e, p')
           end.

Declare Scope sock_scope.
Delimit Scope sock_scope with sock.
Notation "x <- m ;; k" := (sbind m (fun x => k))
  (at level 61, m at next level, right associativity) : sock_scope.
Notation "m ;; k" := (sbind m (fun _ => k))
  (at level 61, right associativity) : sock_scope.

(** One library call: consult the fault script, then run the body. *)
Definition call {A} (body : TCPPipe -> A * TCPPipe) : SockM A :=
  fun p => match hd None (faults p) with
           | Some e => (inl e, setFaults p (tl (faults p)))
           | None => let (a, p') := body (setFaults p (tl (faults p))) in (inr a, p')
           end.

(** [waitForData(Misc::Time(0,0))]: is there something to read right now? *)
Definition readable (p : TCPPipe) : bool :=
  match incoming p with [] => false | _ :: _ => true end.
Definition waitForData : SockM bool := call (fun p => (readable p, p)).

(** [read<unsigned int>()]: reading past the end of the stream is an error. *)
Definition readU32 : SockM Z :=
  fun p => match call (fun p => (incoming p, p)) p with
           | (inr (v :: rest), p') => (inr v, setIncoming p' rest)
           | (inr [], p') => (inl RuntimeError, p')
           | (inl e, p') => (inl e, p')
           end.

Definition writeU32 (v : Z) : SockM unit := call (fun p => (tt, emit p (U32 v))).
Definition writeToSink (b : Blob) : SockM unit := call (fun p => (tt, emit p (Buffers b))).
Definition marshal (b : Blob) : SockM unit := call (fun p => (tt, emit p (Marshalled b))).
Definition flush : SockM unit := call (fun p => (tt, emit p Flush)).

(** ** Fan-out of one compressed frame to the client list *)

(** The body of the [try] block for [clients[j]]: poll the pipe; a readable
    pipe carries a disconnect request, which is read (result [true]);
    otherwise the frame is written and flushed (result [false]). *)
Definition serveClient (metaFrameIndex frameId : Z) (data : Blob) : SockM bool :=
  (ready <- waitForData ;;
   if ready
   then (readU32 ;; sret true)
   else (writeU32 metaFrameIndex ;; writeU32 frameId ;;
         writeToSink data ;; flush ;; sret false))%sock.

(** [clients.erase(clients.begin()+j)] and the in-place change of the pipe
    object [clients[j]] points to. *)
Definition erase {A} (j : nat) (l : list A) : list A := firstn j l ++ skipn (S j) l.
Definition replace {A} (j : nat) (a : A) (l : list A) : list A :=
  firstn j l ++ a :: skipn (S j) l.

(** The state a fan-out works on: the client vector, and two ghost lists:
    the pipes deleted so far and the [sockId]s of the clients served so far. *)
Record FanOut := mkFanOut {
  fClients : list TCPPipe;
  fClosed : list TCPPipe;
  fVisited : list nat
}.

Inductive FanResult :=
| Done (s : FanOut)                  (* the [for] loop ran to its end *)
| Rethrown (e : Exn) (s : FanOut)    (* [catch(...)] rethrew *)
| OutOfBounds                        (* [clients[j]] past the end of the vector *)
| OutOfFuel.

(** The loop [for(unsigned int j=0;j<numClients;++j)] with its three
    handlers.  [j] and [numClients] are [unsigned int]s. *)
Fixpoint fanOutLoop (fuel : nat) (metaFrameIndex frameId : Z) (data : Blob)
    (j numClients : Z) (s : FanOut) : FanResult :=
  match fuel with
  | O => OutOfFuel
  | S fuel' =>
    if j <? numClients then
      match nth_error (fClients s) (Z.to_nat j) with
      | None => OutOfBounds
      | Some c =>
        let visited := fVisited s ++ [sockId c] in
        match serveClient metaFrameIndex frameId data c with
        | (inr false, c') =>
            (* frame written; ++j *)
            fanOutLoop fuel' metaFrameIndex frameId data (wrap32 (j + 1)) numClients
              (mkFanOut (replace (Z.to_nat j) c' (fClients s)) (fClosed s) visited)
        | (inr true, c') | (inl RuntimeError, c') =>
            (* delete clients[j]; erase; --numClients; --j; then ++j *)
            fanOutLoop fuel' metaFrameIndex frameId data
              (wrap32 (wrap32 (j - 1) + 1)) (wrap32 (numClients - 1))
              (mkFanOut (erase (Z.to_nat j) (fClients s)) (fClosed s ++ [c']) visited)
        | (inl OtherExn, c') =>
            (* delete clients[j]; erase; --numClients; --j; throw; *)
            Rethrown OtherExn
              (mkFanOut (erase (Z.to_nat j) (fClients s)) (fClosed s ++ [c']) visited)
        end
      end
    else Done s
  end.

(** [unsigned int numClients=clients.size();] and the loop from [j=0]. *)
Definition fanOut (metaFrameIndex frameId : Z) (data : Blob) (clients : list TCPPipe)
    : FanResult :=
  fanOutLoop (S (length clients)) metaFrameIndex frameId data
    0 (wrap32 (Z.of_nat (length clients))) (mkFanOut clients [] []).

(** The result of a traversal of the rest of the vector, put after the
    clients kept, the pipes closed and the clients served before it. *)
Definition inContext (pre closed : list TCPPipe) (visited : list nat) (r : FanResult)
    : FanResult :=
  match r with
  | Done s => Done (mkFanOut (pre ++ fClients s) (closed ++ fClosed s) (visited ++ fVisited s))
  | Rethrown e s =>
      Rethrown e (mkFanOut (pre ++ fClients s) (closed ++ fClosed s) (visited ++ fVisited s))
  | OutOfBounds => OutOfBounds
  | OutOfFuel => OutOfFuel
  end.

(** The traversal by recursion on the list, to compare the loop with:
    every client is served once, in order; a served client that stays is
    kept, one that asked to leave or whose pipe threw is closed, and an
    exception that is not a [std::runtime_error] ends the traversal. *)
Fixpoint sweep (metaFrameIndex frameId : Z) (data : Blob) (cl : list TCPPipe) : FanResult :=
  match cl with
  | [] => Done (mkFanOut [] [] [])
  | c :: rest =>
    match serveClient metaFrameIndex frameId data c with
    | (inr false, c') => inContext [c'] [] [sockId c] (sweep metaFrameIndex frameId data rest)
    | (inr true, c') | (inl RuntimeError, c') =>
        inContext [] [c'] [sockId c] (sweep metaFrameIndex frameId data rest)
    | (inl OtherExn, c') => Rethrown OtherExn (mkFanOut rest [c'] [sockId c])
    end
  end.

(** ** Frames, codecs and triple buffers *)

Inductive Kind := Color | Depth.

(** Time stamps are [double]s that the server only copies. *)
Definition TimeStamp := Z.

(** A decoded frame as a camera hands it to its streaming callback. *)
Record FrameBuffer := mkFrameBuffer {
  frameTimeStamp : TimeStamp;
  pixels : Blob
}.

(** Modelled from the spec: [CompressedFrame] is declared in
    [KinectServer.h], which is not among the sources; the spec gives it a
    sequence index (unsigned 32-bit), a time stamp and the bytes the codec
    produced for one frame, and the callbacks assign these three members. *)
Record CompressedFrame := mkCompressedFrame {
  index : Z;              (* unsigned int *)
  timeStamp : TimeStamp;
  data : Blob
}.

(** Modelled from the spec: [Threads::TripleBuffer] is a library template;
    the spec gives it three slots (producing, last committed, locked by the
    reader): [startNewValue] hands the producer a slot that is neither
    locked nor the last committed one, [postNewValue] publishes it, and
    [lockNewValue] moves the reader to the last committed slot and tells
    whether that is a commit the reader had not locked before. *)
Record TripleBuffer (T : Type) := mkTripleBuffer {
  buffer : nat -> T;
  lockedIndex : nat;
  mostRecentIndex : nat
}.

Definition newTripleBuffer {T} (init : T) : TripleBuffer T :=
  mkTripleBuffer (fun _ => init) 0 0.

Definition startNewValue {T} (tb : TripleBuffer T) : nat :=
  let next := ((lockedIndex tb + 1) mod 3)%nat in
  if Nat.eqb next (mostRecentIndex tb) then ((next + 1) mod 3)%nat else next.

(** Fill the slot handed out by [startNewValue] and publish it. *)
Definition postNewValue {T} (slot : nat) (v : T) (tb : TripleBuffer T) : TripleBuffer T :=
  mkTripleBuffer (fun i => if Nat.eqb i slot then v else buffer tb i)
                 (lockedIndex tb) slot.

Definition lockNewValue {T} (tb : TripleBuffer T) : bool * TripleBuffer T :=
  (negb (Nat.eqb (lockedIndex tb) (mostRecentIndex tb)),
   mkTripleBuffer (buffer tb) (mostRecentIndex tb) (mostRecentIndex tb)).

Definition getLockedValue {T} (tb : TripleBuffer T) : T := buffer tb (lockedIndex tb).

(** Modelled from the spec: the frame compressors and the in-memory file
    they write to are library classes.  A compressor puts its stream header
    into the file when it is constructed and one self-contained record per
    frame afterwards; the record may depend on all frames written before.
    [storeBuffers] hands over everything accumulated in the file and leaves
    the file empty. *)
Record Codec := mkCodec {
  streamHeader : Blob;
  encode : list FrameBuffer -> FrameBuffer -> Blob
}.

Record FrameWriter := mkFrameWriter {
  codec : Codec;
  written : list FrameBuffer
}.

Definition MemoryFile := Blob.

Definition newFrameWriter (c : Codec) (file : MemoryFile) : FrameWriter * MemoryFile :=
  (mkFrameWriter c [], file ++ streamHeader c).

Definition writeFrame (w : FrameWriter) (frame : FrameBuffer) (file : MemoryFile)
    : FrameWriter * MemoryFile :=
  (mkFrameWriter (codec w) (written w ++ [frame]),
   file ++ encode (codec w) (written w) frame).

Definition storeBuffers (file : MemoryFile) : Blob * MemoryFile := (file, []).

(** ** Camera state *)

(** Calls the server makes on a [Kinect::Camera], in call order. *)
Inductive CameraCall :=
| LoadBackground (fileName : String.string)
| CaptureBackground (numFrames : Z)
| SetMaxDepth (maxDepth : Z)
| SetBackgroundRemovalFuzz (fuzz : Z)
| SetRemoveBackground (flag : bool)
| StartStreaming.

(** Modelled from the spec: a Kinect on the USB bus, as far as the server
    sees it: its serial number, the codecs of its two streams, its
    marshalled intrinsic and extrinsic parameters, its background removal
    fuzz, and the calls made on it. *)
Record Camera := mkCamera {
  serialNumber : String.string;
  colorCodec : Codec;
  depthCodec : Codec;
  colorProjection : Blob;
  depthProjection : Blob;
  extrinsicParameters : Blob;
  backgroundRemovalFuzz : Z;
  calls : list CameraCall
}.

Definition callCamera (c : CameraCall) (cam : Camera) : Camera :=
  mkCamera (serialNumber cam) (colorCodec cam) (depthCodec cam)
           (colorProjection cam) (depthProjection cam) (extrinsicParameters cam)
           (backgroundRemovalFuzz cam) (calls cam ++ [c]).

(** Modelled from the spec: the class [CameraState] is declared in
    [KinectServer.h], which is not among the sources; its members are those
    the constructor initialises.  [Stream] holds the members that exist
    once per stream ([colorFile], [colorCompressor], [colorHeaders],
    [colorFrameIndex], [colorFrames], [hasSentColorFrame], and the same for
    depth); the frame index is the unsigned 32-bit sequence index of the
    spec. *)
Record Stream := mkStream {
  file : MemoryFile;
  compressor : FrameWriter;
  headers : Blob;
  frameIndex : Z;                          (* unsigned int *)
  frames : TripleBuffer CompressedFrame;
  hasSentFrame : bool
}.

Record CameraState := mkCameraState {
  camera : Camera;
  color : Stream;
  depth : Stream
}.

Definition stream (k : Kind) (cs : CameraState) : Stream :=
  match k with Color => color cs | Depth => depth cs end.

Definition setStream (k : Kind) (st : Stream) (cs : CameraState) : CameraState :=
  match k with
  | Color => mkCameraState (camera cs) st (depth cs)
  | Depth => mkCameraState (camera cs) (color cs) st
  end.

Definition setFrames (tb : TripleBuffer CompressedFrame) (st : Stream) : Stream :=
  mkStream (file st) (compressor st) (headers st) (frameIndex st) tb (hasSentFrame st).

Definition setHasSentFrame (b : bool) (st : Stream) : Stream :=
  mkStream (file st) (compressor st) (headers st) (frameIndex st) (frames st) b.

(** [colorStreamingCallback] / [depthStreamingCallback] on the members of
    their stream: compress the frame into the file, take a slot of the
    triple buffer, fill in index, time stamp and the bytes taken out of the
    file, publish the slot (and signal the condition variable, which has no
    state here), increment the frame index. *)
Definition streamingCallback (frame : FrameBuffer) (st : Stream) : Stream :=
  let (w, file1) := writeFrame (compressor st) frame (file st) in
  let slot := startNewValue (frames st) in
  let (bytes, file2) := storeBuffers file1 in
  let compressedFrame := mkCompressedFrame (frameIndex st) (frameTimeStamp frame) bytes in
  mkStream file2 w (headers st) (wrap32 (frameIndex st + 1))
           (postNewValue slot compressedFrame (frames st)) (hasSentFrame st).

Definition colorStreamingCallback (frame : FrameBuffer) (cs : CameraState) : CameraState :=
  setStream Color (streamingCallback frame (color cs)) cs.

Definition depthStreamingCallback (frame : FrameBuffer) (cs : CameraState) : CameraState :=
  setStream Depth (streamingCallback frame (depth cs)) cs.

(** The member initialisers of one stream and the [storeBuffers] call of
    the constructor body that moves the stream header out of the file. *)
Definition newStream (c : Codec) : Stream :=
  let (w, file1) := newFrameWriter c [] in
  let (hdr, file2) := storeBuffers file1 in
  mkStream file2 w hdr 0 (newTripleBuffer (mkCompressedFrame 0 0 [])) false.

(** [CameraState::CameraState] *)
Definition newCameraState (device : Camera) : CameraState :=
  mkCameraState device (newStream (colorCodec device)) (newStream (depthCodec device)).

(** [CameraState::startStreaming] *)
Definition startStreaming (cs : CameraState) : CameraState :=
  mkCameraState (callCamera StartStreaming (camera cs)) (color cs) (depth cs).

(** [CameraState::writeHeaders] *)
Definition writeHeaders (cs : CameraState) : SockM unit :=
  (writeToSink (headers (color cs)) ;;
   writeToSink (headers (depth cs)) ;;
   marshal (colorProjection (camera cs)) ;;
   marshal (depthProjection (camera cs)) ;;
   marshal (extrinsicParameters (camera cs)))%sock.

(** ** The server *)

(** What the streaming thread did, in order (ghost state). *)
Inductive Event :=
| Examined (i : nat)                                       (* body of the camera loop entered for camera i *)
| Broadcast (m : Z) (i : nat) (k : Kind) (f : CompressedFrame)  (* fan-out of a frame begun *)
| Waited                                                   (* newFrameCond.wait() *)
| NewMetaFrame (m : Z).                                    (* metaFrameIndex incremented to m *)

(** What the other threads and the peers do. *)
Inductive EnvEvent :=
| ColorFrame (cam : nat) (frame : FrameBuffer)   (* camera cam's color decoder calls its callback *)
| DepthFrame (cam : nat) (frame : FrameBuffer)   (* camera cam's depth decoder calls its callback *)
| Connection (flt : list (option Exn))           (* the listening thread accepts a connection *)
| PeerSends (sock : nat) (v : Z).                (* the peer of a client pipe sends a word *)

(** Modelled from the spec: the class [KinectServer] is declared in
    [KinectServer.h], which is not among the sources; its members are those
    the constructor and the two thread methods use, the meta-frame index and
    the two counters being [unsigned int]s as they are written to the
    clients ([numCameras] is the length of [cameraStates]).  They are
    followed by ghost state: the pipes deleted so far, the
    identity of the next pipe to be accepted, what went to [std::cerr] about missing
    cameras, the streaming thread's history, and the schedule of the
    environment: one batch of events per observation still to come. *)
Record KinectServer := mkServer {
  cameraStates : list CameraState;
  listenPortId : Z;
  listeningThread : bool;       (* started? *)
  streamingThread : bool;       (* started? *)
  metaFrameIndex : Z;           (* unsigned int *)
  numMissingColorFrames : Z;    (* unsigned int *)
  numMissingDepthFrames : Z;    (* unsigned int *)
  clients : list TCPPipe;
  closed : list TCPPipe;
  nextSock : nat;
  notFound : list String.string;
  history : list Event;
  schedule : list (list EnvEvent)
}.

Definition numCameras (s : KinectServer) : nat := length (cameraStates s).

Definition setCameraStates (cs : list CameraState) (s : KinectServer) : KinectServer :=
  mkServer cs (listenPortId s) (listeningThread s) (streamingThread s)
    (metaFrameIndex s) (numMissingColorFrames s) (numMissingDepthFrames s)
    (clients s) (closed s) (nextSock s) (notFound s) (history s) (schedule s).

Definition setMetaFrameIndex (m : Z) (s : KinectServer) : KinectServer :=
  mkServer (cameraStates s) (listenPortId s) (listeningThread s) (streamingThread s)
    m (numMissingColorFrames s) (numMissingDepthFrames s)
    (clients s) (closed s) (nextSock s) (notFound s) (history s) (schedule s).

Definition numMissingFrames (k : Kind) (s : KinectServer) : Z :=
  match k with Color => numMissingColorFrames s | Depth => numMissingDepthFrames s end.

Definition setNumMissingFrames (k : Kind) (n : Z) (s : KinectServer) : KinectServer :=
  mkServer (cameraStates s) (listenPortId s) (listeningThread s) (streamingThread s)
    (metaFrameIndex s)
    (match k with Color => n | Depth => numMissingColorFrames s end)
    (match k with Color => numMissingDepthFrames s | Depth => n end)
    (clients s) (closed s) (nextSock s) (notFound s) (history s) (schedule s).

(** The client vector together with the record of deleted pipes. *)
Definition setClients (cl closed' : list TCPPipe) (s : KinectServer) : KinectServer :=
  mkServer (cameraStates s) (listenPortId s) (listeningThread s) (streamingThread s)
    (metaFrameIndex s) (numMissingColorFrames s) (numMissingDepthFrames s)
    cl closed' (nextSock s) (notFound s) (history s) (schedule s).

Definition setNextSock (n : nat) (s : KinectServer) : KinectServer :=
  mkServer (cameraStates s) (listenPortId s) (listeningThread s) (streamingThread s)
    (metaFrameIndex s) (numMissingColorFrames s) (numMissingDepthFrames s)
    (clients s) (closed s) n (notFound s) (history s) (schedule s).

Definition record (e : Event) (s : KinectServer) : KinectServer :=
  mkServer (cameraStates s) (listenPortId s) (listeningThread s) (streamingThread s)
    (metaFrameIndex s) (numMissingColorFrames s) (numMissingDepthFrames s)
    (clients s) (closed s) (nextSock s) (notFound s) (history s ++ [e]) (schedule s).

Definition setSchedule (sch : list (list EnvEvent)) (s : KinectServer) : KinectServer :=
  mkServer (cameraStates s) (listenPortId s) (listeningThread s) (streamingThread s)
    (metaFrameIndex s) (numMissingColorFrames s) (numMissingDepthFrames s)
    (clients s) (closed s) (nextSock s) (notFound s) (history s) sch.

(** [cameraStates[i]->...] changed in place. *)
Definition updateCamera (i : nat) (f : CameraState -> CameraState) (s : KinectServer)
    : KinectServer :=
  match nth_error (cameraStates s) i with
  | Some cs => setCameraStates (replace i (f cs) (cameraStates s)) s
  | None => s
  end.

(** Thread bodies: state and exceptions.  [Undefined] stands for behaviour
    the language leaves undefined (a null or out-of-range access). *)
Inductive Res (A : Type) :=
| Ok (a : A) (s : KinectServer)
| Raised (e : Exn) (s : KinectServer)
| Undefined.
Arguments Ok {A} a s.
Arguments Raised {A} e s.
Arguments Undefined {A}.

Definition M (A : Type) : Type := KinectServer -> Res A.

Definition ret {A} (a : A) : M A := fun s => Ok a s.
Definition bind {A B} (m : M A) (k : A -> M B) : M B :=
  fun s => match m s with
           | Ok a s' => k a s'
           | Raised e s' => Raised e s'
           | Undefined => Undefined
           end.
Definition modify (f : KinectServer -> KinectServer) : M unit := fun s => Ok tt (f s).

Declare Scope thread_scope.
Delimit Scope thread_scope with thread.
Notation "x <- m ;; k" := (bind m (fun x => k))
  (at level 61, m at next level, right associativity) : thread_scope.
Notation "m ;; k" := (bind m (fun _ => k))
  (at level 61, right associativity) : thread_scope.

(** *** The listening thread *)

(** The stream initialization state sent to a new client. *)
Fixpoint writeAllHeaders (cams : list CameraState) : SockM unit :=
  match cams with
  | [] => sret tt
  | cs :: rest => (writeHeaders cs ;; writeAllHeaders rest)%sock
  end.

Definition sendStreamHeaders (s : KinectServer) : SockM unit :=
  (writeU32 0x12345678 ;;
   writeU32 (Z.of_nat (numCameras s)) ;;
   writeAllHeaders (cameraStates s) ;;
   flush)%sock.

(** How [new Comm::TCPPipe(listeningSocket)] ends. *)
Inductive Accept :=
| Accepted (flt : list (option Exn))   (* a pipe, with the fate of the calls on it *)
| AcceptFailed (e : Exn).

(** One round of the [while(true)] loop of [listeningThreadMethod]. *)
Definition listeningRound (a : Accept) : M unit := fun s =>
  match a with
  | AcceptFailed OtherExn => Raised OtherExn s
  | AcceptFailed RuntimeError =>
      (* logged; newClientSocket is still 0 when the headers are written to it *)
      Undefined
  | Accepted flt =>
      let newClientSocket := mkPipe (nextSock s) [] [] flt in
      let s1 := setNextSock (S (nextSock s)) s in
      match sendStreamHeaders s newClientSocket with
      | (inr _, sock) => Ok tt (setClients (clients s1 ++ [sock]) (closed s1) s1)
      | (inl RuntimeError, sock) => Ok tt (setClients (clients s1) (closed s1 ++ [sock]) s1)
      | (inl OtherExn, sock) => Raised OtherExn (setClients (clients s1) (closed s1 ++ [sock]) s1)
      end
  end.


(** *** The environment of the streaming thread *)

Definition deliverWord (sock : nat) (v : Z) (c : TCPPipe) : TCPPipe :=
  if Nat.eqb (sockId c) sock then setIncoming c (incoming c ++ [v]) else c.

Definition applyEnv (s : KinectServer) (e : EnvEvent) : KinectServer :=
  match e with
  | ColorFrame i frame => updateCamera i (colorStreamingCallback frame) s
  | DepthFrame i frame => updateCamera i (depthStreamingCallback frame) s
  | Connection flt =>
      match listeningRound (Accepted flt) s with
      | Ok _ s' | Raised _ s' => s'
      | Undefined => s
      end
  | PeerSends sock v => setClients (map (deliverWord sock v) (clients s)) (closed s) s
  end.

(** Let the next batch of the schedule happen. *)
Definition observe : M unit := fun s =>
  match schedule s with
  | [] => Ok tt s
  | batch :: rest => Ok tt (fold_left applyEnv batch (setSchedule rest s))
  end.

(** *** The streaming thread *)

Definition kindBit (k : Kind) : Z := match k with Color => 0 | Depth => 1 end.

(** The frame identifier [i*2+0] or [i*2+1], computed in [unsigned int]. *)
Definition frameId (i : nat) (k : Kind) : Z := wrap32 (Z.of_nat i * 2 + kindBit k).

(** The block that holds [clientListMutex]: send one frame to all clients. *)
Definition sendToClients (i : nat) (k : Kind) (f : CompressedFrame) : M unit := fun s =>
  match fanOut (metaFrameIndex s) (frameId i k) (data f) (clients s) with
  | Done fo => Ok tt (setClients (fClients fo) (closed s ++ fClosed fo) s)
  | Rethrown e fo => Raised e (setClients (fClients fo) (closed s ++ fClosed fo) s)
  | OutOfBounds | OutOfFuel => Undefined
  end.

Definition setLocked (k : Kind) (tb : TripleBuffer CompressedFrame) (cs : CameraState)
    : CameraState := setStream k (setFrames tb (stream k cs)) cs.

Definition setSent (k : Kind) (b : bool) (cs : CameraState) : CameraState :=
  setStream k (setHasSentFrame b (stream k cs)) cs.

(** One of the two [if] blocks in the body of the camera loop:
    [if(!cameraStates[i]->hasSentXFrame&&cameraStates[i]->xFrames.lockNewValue())]
    with its fan-out and the bookkeeping after it.  The result tells
    whether the block set [foundFrame]. *)
Definition sendIfNew (i : nat) (k : Kind) : M bool :=
  (observe ;;
   fun s =>
     match nth_error (cameraStates s) i with
     | None => Undefined
     | Some cs =>
       if hasSentFrame (stream k cs) then Ok false s
       else
         let (isNew, tb) := lockNewValue (frames (stream k cs)) in
         let s1 := updateCamera i (setLocked k tb) s in
         if isNew then
           (modify (record (Broadcast (metaFrameIndex s1) i k (getLockedValue tb))) ;;
            sendToClients i k (getLockedValue tb) ;;
            modify (updateCamera i (setSent k true)) ;;
            modify (fun s => setNumMissingFrames k (wrap32 (numMissingFrames k s - 1)) s) ;;
            ret true) s1
         else Ok false s1
     end)%thread.

(** The body of [for(unsigned int i=0;!foundFrame&&i<numCameras;++i)]. *)
Definition serveCamera (i : nat) : M bool :=
  (modify (record (Examined i)) ;;
   sentColor <- sendIfNew i Color ;;
   sentDepth <- sendIfNew i Depth ;;
   ret (sentColor || sentDepth))%thread.

(** The camera loop from camera [i] with [remaining] cameras to go;
    the result is [foundFrame]. *)
Fixpoint scanCameras (remaining : nat) (i : nat) : M bool :=
  match remaining with
  | O => ret false
  | S remaining' =>
      (found <- serveCamera i ;;
       if found then ret true else scanCameras remaining' (S i))%thread
  end.

Definition findNextFrame : M bool := fun s => scanCameras (numCameras s) 0 s.

(** [newFrameCond.wait()]: the thread sleeps; what happens meanwhile is in
    the batches the next observations take from the schedule. *)
Definition wait : M unit := modify (record Waited).

(** The loop [while(numMissingDepthFrames>0||numMissingColorFrames>0)],
    observed for at most [fuel] rounds; the result tells whether the loop
    was left. *)
Fixpoint collectFrames (fuel : nat) : M bool := fun s =>
  match fuel with
  | O => Ok false s
  | S fuel' =>
    if (numMissingDepthFrames s >? 0) || (numMissingColorFrames s >? 0) then
      (foundFrame <- findNextFrame ;;
       (if foundFrame : bool then ret tt else wait) ;;
       collectFrames fuel')%thread s
    else Ok true s
  end.

Definition resetSent (cs : CameraState) : CameraState :=
  setSent Depth false (setSent Color false cs).

(** "Start a new meta-frame". *)
Definition startNewMetaFrame : M unit := fun s =>
  let m := wrap32 (metaFrameIndex s + 1) in
  let s1 := setMetaFrameIndex m s in
  let s2 := setCameraStates (map resetSent (cameraStates s1)) s1 in
  let s3 := setNumMissingFrames Color (Z.of_nat (numCameras s2)) s2 in
  let s4 := setNumMissingFrames Depth (Z.of_nat (numCameras s3)) s3 in
  Ok tt (record (NewMetaFrame m) s4).

(** The outer [while(true)] loop, observed for at most [metaFrames]
    meta-frames of at most [fuel] rounds each. *)
Fixpoint streamingThreadMethod (metaFrames fuel : nat) : M unit :=
  match metaFrames with
  | O => ret tt
  | S metaFrames' =>
      (complete <- collectFrames fuel ;;
       if complete : bool
       then (startNewMetaFrame ;; streamingThreadMethod metaFrames' fuel)
       else ret tt)%thread
  end.

(** *** The constructor *)

(** A camera's section of the configuration file, as [retrieveValue]
    returns its entries ([None]: the entry is missing). *)
Record CameraSection := mkCameraSection {
  cfgSerialNumber : option String.string;   (* required *)
  cfgRemoveBackground : bool;
  cfgBackgroundFile : String.string;
  cfgCaptureBackgroundFrames : Z;
  cfgMaxDepth : Z;
  cfgBackgroundFuzz : option Z
}.

(** The search loop over the Kinects on the bus: the first device with the
    wanted serial number. *)
Fixpoint findDevice (serial : String.string) (bus : list Camera) : option Camera :=
  match bus with
  | [] => None
  | cam :: rest =>
      if String.eqb (serialNumber cam) serial then Some cam else findDevice serial rest
  end.

Definition setFuzz (fuzz : Z) (cam : Camera) : Camera :=
  callCamera (SetBackgroundRemovalFuzz fuzz)
    (mkCamera (serialNumber cam) (colorCodec cam) (depthCodec cam)
              (colorProjection cam) (depthProjection cam) (extrinsicParameters cam)
              fuzz (calls cam)).

(** "Check if camera is to remove background". *)
Definition configureBackground (sec : CameraSection) (cam : Camera) : Camera :=
  if cfgRemoveBackground sec then
    let cam1 := if String.eqb (cfgBackgroundFile sec) String.EmptyString then cam
                else callCamera (LoadBackground (cfgBackgroundFile sec)) cam in
    let cam2 := if cfgCaptureBackgroundFrames sec >? 0
                then callCamera (CaptureBackground (cfgCaptureBackgroundFrames sec)) cam1
                else cam1 in
    let cam3 := if cfgMaxDepth sec >? 0
                then callCamera (SetMaxDepth (cfgMaxDepth sec)) cam2
                else cam2 in
    let cam4 := setFuzz (match cfgBackgroundFuzz sec with
                         | Some fuzz => fuzz
                         | None => backgroundRemovalFuzz cam3
                         end) cam3 in
    callCamera (SetRemoveBackground true) cam4
  else cam.

Definition configure (sec : CameraSection) (cs : CameraState) : CameraState :=
  mkCameraState (configureBackground sec (camera cs)) (color cs) (depth cs).

(** The loop over the configured cameras: [found] are the camera states
    created so far ([numFoundCameras] is their number), [missing] the
    serial numbers reported as not found. *)
Fixpoint createCameraStates (sections : list CameraSection) (bus : list Camera)
    (found : list CameraState) (missing : list String.string)
    : Exn + list CameraState * list String.string :=
  match sections with
  | [] => inr (found, missing)
  | sec :: rest =>
    match cfgSerialNumber sec with
    | None => inl RuntimeError
    | Some serial =>
      match findDevice serial bus with
      | Some device =>
          createCameraStates rest bus (found ++ [configure sec (newCameraState device)]) missing
      | None => createCameraStates rest bus found (missing ++ [serial])
      end
    end
  end.

(** [KinectServer::KinectServer] *)
Definition newKinectServer (port : Z) (sections : list CameraSection) (bus : list Camera)
    : Exn + KinectServer :=
  match createCameraStates sections bus [] [] with
  | inl e => inl e
  | inr (cams, missing) =>
      let numFoundCameras := length cams in
      inr (mkServer (map startStreaming cams) port
             true (Nat.ltb 0 numFoundCameras)
             0 (Z.of_nat numFoundCameras) (Z.of_nat numFoundCameras)
             [] [] 0 missing [] [])
  end.

(** *** The destructors *)












(** ** Vocabulary of the properties *)

(** What a frame looks like on the wire. *)
Definition frameRecord (metaFrameIndex fid : Z) (bytes : Blob) : list WireItem :=
  [U32 metaFrameIndex; U32 fid; Buffers bytes; Flush].

(** None of the next [n] calls on the pipe throws. *)
Definition calm (n : nat) (p : TCPPipe) : Prop :=
  Forall (fun f => f = None) (firstn n (faults p)).

(** The pipe after [n] calls that wrote [items]. *)
Definition afterWriting (n : nat) (items : list WireItem) (p : TCPPipe) : TCPPipe :=
  mkPipe (sockId p) (incoming p) (outgoing p ++ items) (skipn n (faults p)).


(** Where a fan-out ended, however it ended. *)
Definition finalState (r : FanResult) : option FanOut :=
  match r with
  | Done s | Rethrown _ s => Some s
  | OutOfBounds | OutOfFuel => None
  end.

(** ** Sample data *)


(** Reasoning about thread bodies: [wp m Q E s] says that [m], run from
    [s], has defined behaviour and ends in a state satisfying [Q] if it
    returns and [E] if it throws. *)
Definition wp {A} (m : M A) (Q : A -> KinectServer -> Prop)
    (E : Exn -> KinectServer -> Prop) (s : KinectServer) : Prop :=
  match m s with
  | Ok a s' => Q a s'
  | Raised e s' => E e s'
  | Undefined => False
  end.

(** The state after the next batch of the schedule. *)
Definition observed (s : KinectServer) : KinectServer :=
  match schedule s with
  | [] => s
  | batch :: rest => fold_left applyEnv batch (setSchedule rest s)
  end.

(** The frames whose fan-out was begun, and the cameras examined, in a
    stretch of the streaming thread's history. *)
Definition broadcasts (evs : list Event) : list (nat * Kind) :=
  flat_map (fun e => match e with Broadcast _ i k _ => [(i, k)] | _ => [] end) evs.

Definition examined (evs : list Event) : list nat :=
  flat_map (fun e => match e with Examined i => [i] | _ => [] end) evs.

(** Camera [i] has a frame of kind [k] the streaming thread would send:
    not yet sent in this meta-frame, and committed since the last lock. *)
Definition deliverable (i : nat) (k : Kind) (s : KinectServer) : Prop :=
  exists cs, nth_error (cameraStates s) i = Some cs /\
    hasSentFrame (stream k cs) = false /\
    lockedIndex (frames (stream k cs)) <> mostRecentIndex (frames (stream k cs)).

Module SampleNames.
Import String.
Definition serialA : string := "A00365A10234".
Definition serialB : string := "B00361B43121".
Definition serialC : string := "C00364C00917".
End SampleNames.

Definition sampleCodec (tag : byte) : Codec :=
  mkCodec [tag] (fun _ frame => tag :: pixels frame).

Definition sampleKinect (serial : String.string) : Camera :=
  mkCamera serial (sampleCodec x01) (sampleCodec x02) [x10] [x11] [x12] 0 [].

Definition sampleSection (serial : String.string) : CameraSection :=
  mkCameraSection (Some serial) false String.EmptyString 0 0 None.

Definition sampleFrame (t : TimeStamp) : FrameBuffer := mkFrameBuffer t [x00].

Definition noServer : KinectServer := mkServer [] 0 false false 0 0 0 [] [] 0 [] [] [].

Definition constructed (r : Exn + KinectServer) : KinectServer :=
  match r with inr s => s | inl _ => noServer end.

(** Servers with one and with two cameras, as constructed. *)
Definition oneCamera : KinectServer :=
  constructed (newKinectServer 26000 [sampleSection SampleNames.serialA]
                 [sampleKinect SampleNames.serialA]).

Definition twoCameras : KinectServer :=
  constructed (newKinectServer 26000
                 [sampleSection SampleNames.serialA; sampleSection SampleNames.serialB]
                 [sampleKinect SampleNames.serialB; sampleKinect SampleNames.serialA]).

(** The part of the history added between two states. *)
Definition since (s s' : KinectServer) : list Event :=
  skipn (length (history s)) (history s').

(** The state a thread body ends in. *)
Definition stateOf {A} (r : Res A) : KinectServer :=
  match r with Ok _ s | Raised _ s => s | Undefined => noServer end.

(** The stream initialization state as it appears on the wire. *)
Definition headerItems (cs : CameraState) : list WireItem :=
  [Buffers (headers (color cs)); Buffers (headers (depth cs));
   Marshalled (colorProjection (camera cs)); Marshalled (depthProjection (camera cs));
   Marshalled (extrinsicParameters (camera cs))].

Definition streamHeaders (s : KinectServer) : list WireItem :=
  [U32 0x12345678; U32 (Z.of_nat (numCameras s))]
  ++ flat_map headerItems (cameraStates s) ++ [Flush].

(** Two cameras and one client; camera 1 commits a color frame before the
    first scan reaches it, camera 0 commits one before the second scan. *)
Definition camera1First : KinectServer :=
  setSchedule [[Connection []; ColorFrame 1 (sampleFrame 5)]; []; []; [];
               [ColorFrame 0 (sampleFrame 6)]] twoCameras.

(** Two cameras that have both committed a color frame. *)
Definition bothReady : KinectServer :=
  fold_left applyEnv [ColorFrame 1 (sampleFrame 5); ColorFrame 0 (sampleFrame 6)] twoCameras.

(** What happens to one camera state: its two callbacks, called by the
    camera's decoding threads, and the streaming thread locking the newest
    frame of a stream. *)
Inductive CameraOp :=
| ColorCallback (frame : FrameBuffer)
| DepthCallback (frame : FrameBuffer)
| LockNewest (k : Kind).

Definition applyOp (cs : CameraState) (op : CameraOp) : CameraState :=
  match op with
  | ColorCallback frame => colorStreamingCallback frame cs
  | DepthCallback frame => depthStreamingCallback frame cs
  | LockNewest k => setLocked k (snd (lockNewValue (frames (stream k cs)))) cs
  end.

Definition callbackOf (k : Kind) (frame : FrameBuffer) : CameraOp :=
  match k with Color => ColorCallback frame | Depth => DepthCallback frame end.

(** The number of frames of kind [k] committed by [ops]. *)
Definition commits (k : Kind) (ops : list CameraOp) : nat :=
  length (filter (fun op => match op, k with
                            | ColorCallback _, Color | DepthCallback _, Depth => true
                            | _, _ => false
                            end) ops).

(** The frame committed last to the triple buffer of stream [k]. *)
Definition lastCommitted (k : Kind) (cs : CameraState) : CompressedFrame :=
  buffer (frames (stream k cs)) (mostRecentIndex (frames (stream k cs))).

(** The serial numbers the configuration asks for, whether a serial number
    is on the bus, and the camera states the constructor creates: one per
    configured camera that is on the bus, each from its own section and
    device only. *)
Definition configuredSerials (sections : list CameraSection) : list String.string :=
  flat_map (fun sec => match cfgSerialNumber sec with Some x => [x] | None => [] end) sections.

Definition onBus (bus : list Camera) (serial : String.string) : bool :=
  match findDevice serial bus with Some _ => true | None => false end.

Definition created (sections : list CameraSection) (bus : list Camera) : list CameraState :=
  flat_map (fun sec =>
              match cfgSerialNumber sec with
              | Some serial =>
                  match findDevice serial bus with
                  | Some device => [configure sec (newCameraState device)]
                  | None => []
                  end
              | None => []
              end) sections.

(** Writing a list of items, one call per item. *)
Fixpoint sendItems (items : list WireItem) : SockM unit :=
  match items with
  | [] => sret tt
  | x :: rest => (call (fun p => (tt, emit p x)) ;; sendItems rest)%sock
  end.

(** Frames on the wire: meta-frame index, frame identifier, bytes. *)
Definition frameRecords (frs : list (Z * Z * Blob)) : list WireItem :=
  flat_map (fun fr => frameRecord (fst (fst fr)) (snd (fst fr)) (snd fr)) frs.

(** Every client has the stream headers [H] on its wire, once and first,
    and only frame records after them. *)
Definition headersFirst (H : list WireItem) (s : KinectServer) : Prop :=
  streamHeaders s = H /\
  forall c, In c (clients s) -> exists frs, outgoing c = H ++ frameRecords frs.

(** The header items of a camera whose codec headers are the stream
    headers its compressors wrote when they were constructed. *)
Definition codecHeaderItems (cam : Camera) : list WireItem :=
  [Buffers (streamHeader (colorCodec cam)); Buffers (streamHeader (depthCodec cam));
   Marshalled (colorProjection cam); Marshalled (depthProjection cam);
   Marshalled (extrinsicParameters cam)].

(** The [hasSent] flags of one kind, camera by camera; the number of
    cameras whose flag is not set; and whether a flag is set. *)
Definition flags (k : Kind) (cams : list CameraState) : list bool :=
  map (fun cs => hasSentFrame (stream k cs)) cams.

Definition unsent (k : Kind) (cams : list CameraState) : nat :=
  length (filter negb (flags k cams)).

Definition sent (i : nat) (k : Kind) (s : KinectServer) : Prop :=
  nth_error (flags k (cameraStates s)) i = Some true.

(** The number of connections the schedule still holds. *)
Definition connectionsIn (batch : list EnvEvent) : nat :=
  length (filter (fun e => match e with Connection _ => true | _ => false end) batch).

Definition connections (sch : list (list EnvEvent)) : nat :=
  fold_right (fun batch n => (connectionsIn batch + n)%nat) 0%nat sch.

(** The client vector never reaches 2^32 entries. *)
Definition clientsBounded (s : KinectServer) : Prop :=
  Z.of_nat (length (clients s) + connections (schedule s)) < 2 ^ 32.

(** Pipe addresses in use were handed out before. *)
Definition socketsAllocated (s : KinectServer) : Prop :=
  forall c, In c (clients s) -> (sockId c < nextSock s)%nat.

(** The state at the start of a meta-frame: no flag set, both counters at
    the number of cameras (which fits an [unsigned int]). *)
Definition freshMetaFrame (s : KinectServer) : Prop :=
  Z.of_nat (numCameras s) < 2 ^ 32 /\
  Forall (fun b => b = false) (flags Color (cameraStates s)) /\
  Forall (fun b => b = false) (flags Depth (cameraStates s)) /\
  numMissingColorFrames s = Z.of_nat (numCameras s) /\
  numMissingDepthFrames s = Z.of_nat (numCameras s).

(** Frames of meta-frame [m] on the wire, by camera and kind. *)
Definition deliveryRecords (m : Z) (ds : list (nat * Kind * Blob)) : list WireItem :=
  flat_map (fun d => frameRecord m (frameId (fst (fst d)) (snd (fst d))) (snd d)) ds.

(** While meta-frame [M] is being assembled: the counters count the flags
    that are not set, and the client with pipe [p], whose wire held [o]
    when the meta-frame began, has since received one frame for each flag
    that is set, and nothing else. *)
Definition assemblingCore (M : Z) (p : nat) (o : list WireItem) (s : KinectServer) : Prop :=
  metaFrameIndex s = M /\
  Z.of_nat (numCameras s) < 2 ^ 32 /\
  numMissingColorFrames s = Z.of_nat (unsent Color (cameraStates s)) /\
  numMissingDepthFrames s = Z.of_nat (unsent Depth (cameraStates s)) /\
  (p < nextSock s)%nat /\
  forall c, In c (clients s) -> sockId c = p ->
    exists ds, outgoing c = o ++ deliveryRecords M ds /\
               NoDup (map fst ds) /\
               forall i k, In (i, k) (map fst ds) <-> sent i k s.

Definition assembling (M : Z) (p : nat) (o : list WireItem) (s : KinectServer) : Prop :=
  clientsBounded s /\ assemblingCore M p o s.

(** What no step of the assembly of a meta-frame changes. *)
Definition steady (M : Z) (N : nat) (s : KinectServer) : Prop :=
  metaFrameIndex s = M /\ numCameras s = N /\
  0 <= numMissingColorFrames s /\ 0 <= numMissingDepthFrames s.

(** One camera with a client connected before the meta-frame begins; the
    camera then commits a color and a depth frame. *)
Definition oneClient : KinectServer :=
  setSchedule [[ColorFrame 0 (sampleFrame 1); DepthFrame 0 (sampleFrame 2)]]
              (applyEnv oneCamera (Connection [])).


(** One camera and two clients; the first client's pipe throws [e] at the
    first call after the stream headers were sent; the camera then commits
    a color and a depth frame. *)
Definition failingClient (e : Exn) : KinectServer :=
  setSchedule [[ColorFrame 0 (sampleFrame 1); DepthFrame 0 (sampleFrame 2)]]
    (fold_left applyEnv [Connection (repeat None 8 ++ [Some e]); Connection []] oneCamera).

(** ** Vocabulary of further properties *)



(** Both counters count the streams of their kind whose flag is not set
    (the number of cameras fits an [unsigned int]). *)
Definition countersMatch (s : KinectServer) : Prop :=
  Z.of_nat (numCameras s) < 2 ^ 32 /\
  numMissingColorFrames s = Z.of_nat (unsent Color (cameraStates s)) /\
  numMissingDepthFrames s = Z.of_nat (unsent Depth (cameraStates s)).

(** The number of meta-frames begun in a stretch of the history. *)
Definition metaFramesBegun (evs : list Event) : nat :=
  length (filter (fun e => match e with NewMetaFrame _ => true | _ => false end) evs).

(** The meta-frame index counts the meta-frames begun, and so does the
    index recorded with every fan-out and with every new meta-frame. *)
Definition indexCounts (s : KinectServer) : Prop :=
  metaFrameIndex s = wrap32 (Z.of_nat (metaFramesBegun (history s))) /\
  (forall pre m i k f post, history s = pre ++ Broadcast m i k f :: post ->
     m = wrap32 (Z.of_nat (metaFramesBegun pre))) /\
  (forall pre m post, history s = pre ++ NewMetaFrame m :: post ->
     m = wrap32 (Z.of_nat (S (metaFramesBegun pre)))).

(** The codec of a camera's stream of kind [k], and the frames that [ops]
    hand to the callback of that kind, oldest first. *)
Definition codecOf (k : Kind) (cam : Camera) : Codec :=
  match k with Color => colorCodec cam | Depth => depthCodec cam end.

Definition committedFrames (k : Kind) (ops : list CameraOp) : list FrameBuffer :=
  flat_map (fun op => match op, k with
                      | ColorCallback fr, Color | DepthCallback fr, Depth => [fr]
                      | _, _ => []
                      end) ops.

(** A camera's decoder calling the callback of kind [k], as an event of the
    environment. *)
Definition frameEvent (i : nat) (k : Kind) (fr : FrameBuffer) : EnvEvent :=
  match k with Color => ColorFrame i fr | Depth => DepthFrame i fr end.


(** The number of frames the current meta-frame still lacks, and the
    number of times the streaming thread has slept. *)
Definition missing (s : KinectServer) : nat :=
  (unsent Color (cameraStates s) + unsent Depth (cameraStates s))%nat.





(** * Properties *)

Unset Implicit Arguments.

(** ** Machine integers *)

Lemma wrap32_small (z : Z) : 0 <= z < 2 ^ 32 -> wrap32 z = z.
Proof. intros H. unfold wrap32. apply Z.mod_small. exact H. Qed.

Lemma wrap32_range (z : Z) : 0 <= wrap32 z < 2 ^ 32.
Proof. unfold wrap32. apply Z.mod_pos_bound. lia. Qed.

(** [--j; ++j] gives [j] back, also at [j = 0] where [--j] wraps around. *)
Lemma wrap32_dec_inc (j : Z) : 0 <= j < 2 ^ 32 -> wrap32 (wrap32 (j - 1) + 1) = j.
Proof.
  intros H. unfold wrap32.
  rewrite Zplus_mod_idemp_l.
  replace (j - 1 + 1) with j by lia.
  apply Z.mod_small. exact H.
Qed.

(** ** Lists changed at an index *)

Lemma nth_error_middle {A} (pre : list A) (a : A) (post : list A) :
  nth_error (pre ++ a :: post) (length pre) = Some a.
Proof. induction pre; simpl; auto. Qed.

Lemma erase_middle {A} (pre : list A) (a : A) (post : list A) :
  erase (length pre) (pre ++ a :: post) = pre ++ post.
Proof.
  unfold erase. induction pre as [|x pre IH]; simpl; auto.
  simpl in IH. rewrite IH. reflexivity.
Qed.

Lemma replace_middle {A} (pre : list A) (a b : A) (post : list A) :
  replace (length pre) b (pre ++ a :: post) = pre ++ b :: post.
Proof.
  unfold replace. induction pre as [|x pre IH]; simpl; auto.
  simpl in IH. rewrite IH. reflexivity.
Qed.

Lemma nth_error_split_at {A} (l : list A) (i : nat) (a : A) :
  nth_error l i = Some a ->
  exists pre post, l = pre ++ a :: post /\ length pre = i.
Proof.
  intros H. destruct (nth_error_split l i H) as (pre & post & -> & <-).
  exists pre, post. split; reflexivity.
Qed.

Lemma length_erase {A} (l : list A) (i : nat) :
  (i < length l)%nat -> S (length (erase i l)) = length l.
Proof.
  intros H. destruct (nth_error l i) as [a|] eqn:E.
  - destruct (nth_error_split_at _ _ _ E) as (pre & post & -> & <-).
    rewrite erase_middle. rewrite !length_app. simpl. lia.
  - apply nth_error_None in E. lia.
Qed.

Lemma length_replace {A} (l : list A) (i : nat) (b : A) :
  (i < length l)%nat -> length (replace i b l) = length l.
Proof.
  intros H. destruct (nth_error l i) as [a|] eqn:E.
  - destruct (nth_error_split_at _ _ _ E) as (pre & post & -> & <-).
    rewrite replace_middle. rewrite !length_app. reflexivity.
  - apply nth_error_None in E. lia.
Qed.

(** ** The fan-out loop *)

Lemma inContext_inContext (pre1 pre2 cl1 cl2 : list TCPPipe) (v1 v2 : list nat) r :
  inContext pre1 cl1 v1 (inContext pre2 cl2 v2 r)
  = inContext (pre1 ++ pre2) (cl1 ++ cl2) (v1 ++ v2) r.
Proof. destruct r; simpl; rewrite ?app_assoc; reflexivity. Qed.

Lemma inContext_nil r : inContext [] [] [] r = r.
Proof. destruct r as [[? ? ?]|? [? ? ?]| |]; reflexivity. Qed.

(** The loop never leaves the vector and never needs more rounds than
    there are clients: with [j <= numClients <= clients.size()] on entry,
    every access is in range. *)
Lemma fanOutLoop_defined (m fid : Z) (d : Blob) :
  forall fuel j n s,
    0 <= j <= n -> n <= Z.of_nat (length (fClients s)) -> n < 2 ^ 32 ->
    (Z.to_nat (n - j) < fuel)%nat ->
    exists r, finalState (fanOutLoop fuel m fid d j n s) = Some r.
Proof.
  induction fuel as [|fuel IH]; intros j n s Hj Hn Hb Hf; [lia|].
  simpl. destruct (j <? n) eqn:Ejn.
  - apply Z.ltb_lt in Ejn.
    destruct (nth_error (fClients s) (Z.to_nat j)) as [c|] eqn:Ec.
    2:{ apply nth_error_None in Ec. lia. }
    assert (Hlt : (Z.to_nat j < length (fClients s))%nat) by lia.
    destruct (serveClient m fid d c) as [[[| ]|[| ]] c'].
    + apply IH; simpl.
      * rewrite wrap32_dec_inc by lia. rewrite wrap32_small by lia. lia.
      * rewrite wrap32_small by lia. pose proof (length_erase (fClients s) _ Hlt). lia.
      * apply wrap32_range.
      * rewrite wrap32_dec_inc by lia. rewrite wrap32_small by lia. lia.
    + eexists. reflexivity.
    + apply IH; simpl.
      * rewrite wrap32_dec_inc by lia. rewrite wrap32_small by lia. lia.
      * rewrite wrap32_small by lia. pose proof (length_erase (fClients s) _ Hlt). lia.
      * apply wrap32_range.
      * rewrite wrap32_dec_inc by lia. rewrite wrap32_small by lia. lia.
    + apply IH; simpl.
      * rewrite wrap32_small by lia. lia.
      * rewrite length_replace by exact Hlt. lia.
      * lia.
      * rewrite wrap32_small by lia. lia.
  - eexists. reflexivity.
Qed.

Lemma fanOut_defined (m fid : Z) (d : Blob) (cl : list TCPPipe) :
  exists r, finalState (fanOut m fid d cl) = Some r.
Proof.
  unfold fanOut. apply fanOutLoop_defined; simpl.
  - pose proof (wrap32_range (Z.of_nat (length cl))). lia.
  - unfold wrap32. apply Z.mod_le; lia.
  - apply wrap32_range.
  - rewrite Z.sub_0_r.
    assert (wrap32 (Z.of_nat (length cl)) <= Z.of_nat (length cl))
      by (unfold wrap32; apply Z.mod_le; lia).
    pose proof (wrap32_range (Z.of_nat (length cl))). lia.
Qed.

(** With fewer than 2^32 clients the loop is the traversal [sweep]. *)
Lemma fanOutLoop_sweep (m fid : Z) (d : Blob) :
  forall rest fuel pre cls vis,
    (length rest < fuel)%nat ->
    Z.of_nat (length (pre ++ rest)) < 2 ^ 32 ->
    fanOutLoop fuel m fid d (Z.of_nat (length pre)) (Z.of_nat (length (pre ++ rest)))
      (mkFanOut (pre ++ rest) cls vis)
    = inContext pre cls vis (sweep m fid d rest).
Proof.
  induction rest as [|c rest IH]; intros fuel pre cls vis Hf Hb.
  - destruct fuel as [|fuel]; [simpl in Hf; lia|].
    simpl. rewrite app_nil_r. rewrite Z.ltb_irrefl. rewrite !app_nil_r. reflexivity.
  - destruct fuel as [|fuel]; [simpl in Hf; lia|].
    simpl in Hf.
    assert (Hlen : Z.of_nat (length (pre ++ c :: rest))
                   = Z.of_nat (length pre) + 1 + Z.of_nat (length rest))
      by (rewrite length_app; simpl; lia).
    cbn [fanOutLoop sweep fClients fClosed fVisited].
    replace (Z.of_nat (length pre) <? Z.of_nat (length (pre ++ c :: rest))) with true
      by (symmetry; apply Z.ltb_lt; lia).
    rewrite Nat2Z.id. rewrite nth_error_middle.
    assert (Hdrop :
      fanOutLoop fuel m fid d
        (wrap32 (wrap32 (Z.of_nat (length pre) - 1) + 1))
        (wrap32 (Z.of_nat (length (pre ++ c :: rest)) - 1))
        (mkFanOut (erase (length pre) (pre ++ c :: rest)) (cls ++ [snd (serveClient m fid d c)])
                  (vis ++ [sockId c]))
      = inContext pre cls vis
          (inContext [] [snd (serveClient m fid d c)] [sockId c] (sweep m fid d rest))).
    { rewrite wrap32_dec_inc by lia. rewrite wrap32_small by lia.
      rewrite erase_middle.
      replace (Z.of_nat (length (pre ++ c :: rest)) - 1) with (Z.of_nat (length (pre ++ rest)))
        by (rewrite Hlen, length_app; lia).
      rewrite IH; [|lia|rewrite length_app; lia].
      rewrite inContext_inContext. rewrite app_nil_r. reflexivity. }
    destruct (serveClient m fid d c) as [[[| ]|[| ]] c']; simpl snd in Hdrop.
    + exact Hdrop.
    + rewrite erase_middle. reflexivity.
    + exact Hdrop.
    + rewrite wrap32_small by lia. rewrite replace_middle.
      replace (pre ++ c' :: rest) with ((pre ++ [c']) ++ rest)
        by (rewrite <- app_assoc; reflexivity).
      replace (Z.of_nat (length pre) + 1) with (Z.of_nat (length (pre ++ [c'])))
        by (rewrite length_app; simpl; lia).
      replace (Z.of_nat (length (pre ++ c :: rest)))
        with (Z.of_nat (length ((pre ++ [c']) ++ rest)))
        by (rewrite Hlen, !length_app; simpl; lia).
      rewrite IH; [|lia|rewrite !length_app in *; simpl in *; lia].
      rewrite inContext_inContext. rewrite !app_nil_r. reflexivity.
Qed.

Lemma fanOut_sweep (m fid : Z) (d : Blob) (cl : list TCPPipe) :
  Z.of_nat (length cl) < 2 ^ 32 ->
  fanOut m fid d cl = sweep m fid d cl.
Proof.
  intros Hb. unfold fanOut. rewrite wrap32_small by lia.
  pose proof (fanOutLoop_sweep m fid d cl (S (length cl)) [] [] []) as H.
  cbn [app length Z.of_nat] in H. rewrite H by (auto; lia).
  apply inContext_nil.
Qed.

(** ** Serving one client *)

Ltac split_faults flt :=
  destruct flt as [|[[|]|] [|[[|]|] [|[[|]|] [|[[|]|] [|[[|]|] flt]]]]].

Ltac run_calls :=
  unfold serveClient, sbind, sret, waitForData, readU32, writeU32, writeToSink,
    flush, call, readable, setFaults, setIncoming, emit; simpl.




(** Conversely, a client that is neither dropped nor disconnected was not
    readable and has exactly one frame record more on its wire. *)
Lemma serveClient_kept (m fid : Z) (d : Blob) (c c' : TCPPipe) :
  serveClient m fid d c = (inr false, c') ->
  readable c = false /\ calm 5 c /\ c' = afterWriting 5 (frameRecord m fid d) c.
Proof.
  destruct c as [id inc out flt]. unfold calm, afterWriting, frameRecord.
  destruct inc as [|v inc]; split_faults flt; run_calls; intros H;
    try discriminate; inversion H; subst; clear H;
    (split; [reflexivity|split; [repeat constructor|rewrite <- ?app_assoc; reflexivity]]).
Qed.



(** ** The traversal [sweep] *)


(** The three ways the first client of a list can fare. *)
Lemma sweep_cases (m fid : Z) (d : Blob) (c : TCPPipe) (rest : list TCPPipe) :
  (fst (serveClient m fid d c) = inr false /\
   sweep m fid d (c :: rest)
   = inContext [snd (serveClient m fid d c)] [] [sockId c] (sweep m fid d rest))
  \/
  (fst (serveClient m fid d c) <> inr false /\
   fst (serveClient m fid d c) <> inl OtherExn /\
   sweep m fid d (c :: rest)
   = inContext [] [snd (serveClient m fid d c)] [sockId c] (sweep m fid d rest))
  \/
  (fst (serveClient m fid d c) = inl OtherExn /\
   sweep m fid d (c :: rest)
   = Rethrown OtherExn (mkFanOut rest [snd (serveClient m fid d c)] [sockId c])).
Proof.
  simpl. destruct (serveClient m fid d c) as [[[| ]|[| ]] c']; simpl.
  - right; left. repeat split; discriminate.
  - right; right. split; reflexivity.
  - right; left. repeat split; discriminate.
  - left. split; reflexivity.
Qed.





(** Who is in the vector after a completed fan-out was there before and
    was served without being dropped. *)
Lemma sweep_done_kept (m fid : Z) (d : Blob) :
  forall cl s, sweep m fid d cl = Done s ->
    forall c', In c' (fClients s) ->
      exists c, In c cl /\ serveClient m fid d c = (inr false, c').
Proof.
  induction cl as [|c0 rest IH]; intros s Hs c' Hin.
  - simpl in Hs. inversion Hs; subst. destruct Hin.
  - destruct (sweep_cases m fid d c0 rest) as [(Hv & Heq)|[(Hv & Hv' & Heq)|(Hv & Heq)]];
      rewrite Heq in Hs; try discriminate;
      destruct (sweep m fid d rest) as [s0| | |]; try discriminate;
      simpl in Hs; inversion Hs; subst s; simpl in Hin.
    + destruct Hin as [<-|Hin].
      * exists c0. split; [left; reflexivity|].
        destruct (serveClient m fid d c0); simpl in *; subst; reflexivity.
      * destruct (IH s0 eq_refl c' Hin) as (c & Hc & Hsc).
        exists c. split; [right; exact Hc|exact Hsc].
    + destruct (IH s0 eq_refl c' Hin) as (c & Hc & Hsc).
      exists c. split; [right; exact Hc|exact Hsc].
Qed.



(** ** The fan-out of one frame: claims *)






(** ** Reasoning rules for thread bodies *)

Lemma wp_ret {A} (a : A) Q E s : Q a s -> wp (ret a) Q E s.
Proof. intros H. exact H. Qed.

Lemma wp_bind {A B} (m : M A) (k : A -> M B) Q E s :
  wp m (fun a s' => wp (k a) Q E s') E s -> wp (bind m k) Q E s.
Proof. unfold wp, bind. destruct (m s); auto. Qed.

Lemma wp_modify (f : KinectServer -> KinectServer) Q E s :
  Q tt (f s) -> wp (modify f) Q E s.
Proof. intros H. exact H. Qed.

Lemma wp_conseq {A} (m : M A) (Q Q' : A -> KinectServer -> Prop)
    (E E' : Exn -> KinectServer -> Prop) s :
  wp m Q E s ->
  (forall a s', Q a s' -> Q' a s') -> (forall e s', E e s' -> E' e s') ->
  wp m Q' E' s.
Proof. unfold wp. destruct (m s); auto. Qed.

Lemma wp_observe Q E s : Q tt (observed s) -> wp observe Q E s.
Proof. unfold wp, observe, observed. destruct (schedule s); auto. Qed.

Lemma wp_elim_ok {A} (m : M A) Q E s a s' : wp m Q E s -> m s = Ok a s' -> Q a s'.
Proof. unfold wp. intros H Hm. rewrite Hm in H. exact H. Qed.

Lemma wp_elim_raised {A} (m : M A) Q E s e s' : wp m Q E s -> m s = Raised e s' -> E e s'.
Proof. unfold wp. intros H Hm. rewrite Hm in H. exact H. Qed.

(** A property kept by every event of the environment is kept by an
    observation. *)
Lemma observed_invariant (I : KinectServer -> Prop) :
  (forall s sch, I s -> I (setSchedule sch s)) ->
  (forall s e, I s -> I (applyEnv s e)) ->
  forall s, I s -> I (observed s).
Proof.
  intros Hsch Henv s Hs. unfold observed. destruct (schedule s) as [|batch rest]; auto.
  assert (H0 : I (setSchedule rest s)) by auto.
  revert H0. generalize (setSchedule rest s). clear Hs.
  induction batch as [|e batch IH]; simpl; intros s0 H0; auto.
Qed.

(** ** What the environment leaves alone *)

Lemma listeningRound_accepted (flt : list (option Exn)) (s : KinectServer) :
  exists sock,
    sock = snd (sendStreamHeaders s (mkPipe (nextSock s) [] [] flt)) /\
    let s1 := setNextSock (S (nextSock s)) s in
    (fst (sendStreamHeaders s (mkPipe (nextSock s) [] [] flt)) = inr tt /\
     listeningRound (Accepted flt) s = Ok tt (setClients (clients s ++ [sock]) (closed s) s1))
    \/
    (fst (sendStreamHeaders s (mkPipe (nextSock s) [] [] flt)) <> inr tt /\
     (listeningRound (Accepted flt) s = Ok tt (setClients (clients s) (closed s ++ [sock]) s1) \/
      listeningRound (Accepted flt) s
      = Raised OtherExn (setClients (clients s) (closed s ++ [sock]) s1))).
Proof.
  eexists. split; [reflexivity|]. simpl.
  destruct (sendStreamHeaders s (mkPipe (nextSock s) [] [] flt)) as [[[|]|[]] sock]; simpl.
  - right. split; [discriminate|]. left. reflexivity.
  - right. split; [discriminate|]. right. reflexivity.
  - left. split; reflexivity.
Qed.

Lemma updateCamera_length i f s :
  length (cameraStates (updateCamera i f s)) = length (cameraStates s).
Proof.
  unfold updateCamera. destruct (nth_error (cameraStates s) i) eqn:E; [|reflexivity].
  simpl. apply length_replace. apply nth_error_Some. congruence.
Qed.

Lemma updateCamera_history i f s : history (updateCamera i f s) = history s.
Proof. unfold updateCamera. destruct (nth_error (cameraStates s) i); reflexivity. Qed.

Lemma applyEnv_history s e : history (applyEnv s e) = history s.
Proof.
  destruct e as [i fr|i fr|flt|sock v];
    [apply updateCamera_history|apply updateCamera_history| |reflexivity].
  unfold applyEnv.
  destruct (listeningRound_accepted flt s) as (sock & _ & [(_ & ->)|(_ & [->| ->])]);
    reflexivity.
Qed.

Lemma applyEnv_numCameras s e : numCameras (applyEnv s e) = numCameras s.
Proof.
  unfold numCameras.
  destruct e as [i fr|i fr|flt|sock v];
    [apply updateCamera_length|apply updateCamera_length| |reflexivity].
  unfold applyEnv.
  destruct (listeningRound_accepted flt s) as (sock & _ & [(_ & ->)|(_ & [->| ->])]);
    reflexivity.
Qed.

Lemma observed_history s : history (observed s) = history s.
Proof.
  apply (observed_invariant (fun s' => history s' = history s)); auto.
  intros s0 e H. rewrite applyEnv_history. exact H.
Qed.

Lemma observed_numCameras s : numCameras (observed s) = numCameras s.
Proof.
  apply (observed_invariant (fun s' => numCameras s' = numCameras s)); auto.
  intros s0 e H. rewrite applyEnv_numCameras. exact H.
Qed.

(** ** One scan of the cameras *)

Lemma sendToClients_cases i k f s :
  exists fo,
    finalState (fanOut (metaFrameIndex s) (frameId i k) (data f) (clients s)) = Some fo /\
    ((fanOut (metaFrameIndex s) (frameId i k) (data f) (clients s) = Done fo /\
      sendToClients i k f s = Ok tt (setClients (fClients fo) (closed s ++ fClosed fo) s))
     \/
     (exists e,
      fanOut (metaFrameIndex s) (frameId i k) (data f) (clients s) = Rethrown e fo /\
      sendToClients i k f s = Raised e (setClients (fClients fo) (closed s ++ fClosed fo) s))).
Proof.
  unfold sendToClients.
  destruct (fanOut_defined (metaFrameIndex s) (frameId i k) (data f) (clients s)) as (fo & Hfo).
  exists fo. split; [exact Hfo|].
  destruct (fanOut (metaFrameIndex s) (frameId i k) (data f) (clients s)) as [x|e x| |];
    simpl in Hfo; try discriminate; inversion Hfo; subst x.
  - left. split; reflexivity.
  - right. exists e. split; reflexivity.
Qed.

(** What one [if] block of the loop body adds to the history: nothing, or
    the broadcast of camera [i]'s frame of kind [k]. *)
Lemma sendIfNew_trace (i : nat) (k : Kind) (s : KinectServer) :
  (i < numCameras s)%nat ->
  wp (sendIfNew i k)
     (fun b s' => numCameras s' = numCameras s /\
        exists evs, history s' = history s ++ evs /\ examined evs = [] /\
                    broadcasts evs = if b then [(i, k)] else [])
     (fun e s' => numCameras s' = numCameras s /\
        exists evs, history s' = history s ++ evs /\ examined evs = [] /\
                    broadcasts evs = [(i, k)])
     s.
Proof.
  intros Hi. unfold sendIfNew. apply wp_bind, wp_observe.
  pose proof (observed_history s) as Hh. pose proof (observed_numCameras s) as Hn.
  set (s1 := observed s) in *. unfold wp.
  destruct (nth_error (cameraStates s1) i) as [cs|] eqn:Ecs.
  2:{ apply nth_error_None in Ecs. unfold numCameras in *. lia. }
  destruct (hasSentFrame (stream k cs)).
  { split; [exact Hn|]. exists []. rewrite app_nil_r. auto. }
  unfold lockNewValue.
  set (tb := mkTripleBuffer _ _ _).
  set (s2 := updateCamera i (setLocked k tb) s1).
  assert (Hn2 : numCameras s2 = numCameras s)
    by (unfold s2, numCameras; rewrite updateCamera_length; exact Hn).
  assert (Hh2 : history s2 = history s)
    by (unfold s2; rewrite updateCamera_history; exact Hh).
  destruct (negb _).
  2:{ split; [exact Hn2|]. exists []. rewrite app_nil_r. auto. }
  unfold bind, modify, ret.
  set (s3 := record _ s2).
  destruct (sendToClients_cases i k (getLockedValue tb) s3)
    as (fo & _ & [(_ & ->)|(e & _ & ->)]).
  - split.
    + unfold numCameras. simpl. rewrite updateCamera_length. exact Hn2.
    + eexists. simpl. rewrite updateCamera_history. simpl. rewrite Hh2.
      split; [reflexivity|]. split; reflexivity.
  - split; [exact Hn2|].
    eexists. simpl. rewrite Hh2. split; [reflexivity|]. split; reflexivity.
Qed.

Lemma examined_app evs1 evs2 : examined (evs1 ++ evs2) = examined evs1 ++ examined evs2.
Proof. unfold examined. apply flat_map_app. Qed.

Lemma broadcasts_app evs1 evs2 :
  broadcasts (evs1 ++ evs2) = broadcasts evs1 ++ broadcasts evs2.
Proof. unfold broadcasts. apply flat_map_app. Qed.

(** The body of the camera loop for camera [i] examines camera [i] and
    broadcasts only frames of camera [i]; it reports a found frame exactly
    when it broadcast one. *)
Lemma serveCamera_trace (i : nat) (s : KinectServer) :
  (i < numCameras s)%nat ->
  wp (serveCamera i)
     (fun b s' => numCameras s' = numCameras s /\
        exists evs, history s' = history s ++ evs /\ examined evs = [i] /\
          (forall j k, In (j, k) (broadcasts evs) -> j = i) /\
          (b = true <-> broadcasts evs <> []))
     (fun e s' => numCameras s' = numCameras s /\
        exists evs, history s' = history s ++ evs /\ examined evs = [i] /\
          (forall j k, In (j, k) (broadcasts evs) -> j = i) /\
          broadcasts evs <> [])
     s.
Proof.
  intros Hi. unfold serveCamera.
  apply wp_bind, wp_modify. apply wp_bind.
  eapply wp_conseq; [apply sendIfNew_trace; exact Hi| |].
  - intros b1 s1 (Hn1 & evs1 & H1 & X1 & B1). simpl in H1.
    apply wp_bind.
    eapply wp_conseq; [apply sendIfNew_trace; rewrite Hn1; exact Hi| |].
    + intros b2 s2 (Hn2 & evs2 & H2 & X2 & B2).
      apply wp_ret. split; [rewrite Hn2; exact Hn1|].
      exists ([Examined i] ++ evs1 ++ evs2).
      rewrite H2, H1, <- !app_assoc. split; [reflexivity|].
      rewrite !examined_app, !broadcasts_app, X1, X2, B1, B2.
      split; [reflexivity|]. simpl.
      destruct b1, b2; simpl; split;
        try (intros j k' [E|[E|[]]]; inversion E; reflexivity);
        try (intros j k' [E|[]]; inversion E; reflexivity);
        try (intros j k' []);
        split; try discriminate; try reflexivity; intros; congruence.
    + intros e s2 (Hn2 & evs2 & H2 & X2 & B2).
      split; [rewrite Hn2; exact Hn1|].
      exists ([Examined i] ++ evs1 ++ evs2).
      rewrite H2, H1, <- !app_assoc. split; [reflexivity|].
      rewrite !examined_app, !broadcasts_app, X1, X2, B1, B2.
      split; [reflexivity|]. simpl.
      destruct b1; simpl; split;
        try (intros j k' [E|[E|[]]]; inversion E; reflexivity);
        try (intros j k' [E|[]]; inversion E; reflexivity);
        discriminate.
  - intros e s1 (Hn1 & evs1 & H1 & X1 & B1). simpl in H1.
    split; [exact Hn1|].
    exists ([Examined i] ++ evs1).
    rewrite H1, <- !app_assoc. split; [reflexivity|].
    rewrite !examined_app, !broadcasts_app, X1, B1.
    split; [reflexivity|]. simpl. split; [|discriminate].
    intros j k' [E|[]]; inversion E; reflexivity.
Qed.

Lemma not_found_no_broadcast (l : list (nat * Kind)) : (false = true <-> l <> []) -> l = [].
Proof. destruct l; [reflexivity|]. intros [_ H]. discriminate H. discriminate. Qed.

(** The camera loop examines cameras [i], [i+1], ... in order and stops at
    the first one for which it broadcasts; every broadcast of the scan is
    for the camera examined last. *)
Lemma scanCameras_trace :
  forall n i s, (i + n = numCameras s)%nat ->
  wp (scanCameras n i)
     (fun b s' => numCameras s' = numCameras s /\
        exists evs m, history s' = history s ++ evs /\ examined evs = seq i m /\
          (m <= n)%nat /\
          (forall j k, In (j, k) (broadcasts evs) -> (i + m = S j)%nat) /\
          (b = true <-> broadcasts evs <> []))
     (fun e s' => numCameras s' = numCameras s /\
        exists evs m, history s' = history s ++ evs /\ examined evs = seq i m /\
          (m <= n)%nat /\
          (forall j k, In (j, k) (broadcasts evs) -> (i + m = S j)%nat) /\
          broadcasts evs <> [])
     s.
Proof.
  induction n as [|n IH]; intros i s Hin.
  - simpl. apply wp_ret. split; [reflexivity|].
    exists [], 0%nat. rewrite app_nil_r. simpl.
    repeat split; auto; try (intros j k []); try discriminate; intros H; contradiction.
  - simpl. apply wp_bind.
    eapply wp_conseq; [apply serveCamera_trace; lia| |].
    + intros b s1 (Hn1 & evs1 & H1 & X1 & B1 & F1).
      destruct b.
      * apply wp_ret. split; [exact Hn1|].
        exists evs1, 1%nat. split; [exact H1|]. split; [exact X1|].
        split; [lia|]. split; [|exact F1].
        intros j k Hj. rewrite (B1 j k Hj). lia.
      * apply not_found_no_broadcast in F1.
        eapply wp_conseq; [apply (IH (S i) s1); lia| |].
        -- intros b s2 (Hn2 & evs2 & m & H2 & X2 & Hm & B2 & F2).
           split; [lia|]. exists (evs1 ++ evs2), (S m).
           rewrite H2, H1, <- app_assoc. split; [reflexivity|].
           rewrite examined_app, broadcasts_app, X1, X2, F1. simpl.
           split; [reflexivity|]. split; [lia|]. split; [|exact F2].
           intros j k Hj. specialize (B2 j k Hj). lia.
        -- intros e s2 (Hn2 & evs2 & m & H2 & X2 & Hm & B2 & F2).
           split; [lia|]. exists (evs1 ++ evs2), (S m).
           rewrite H2, H1, <- app_assoc. split; [reflexivity|].
           rewrite examined_app, broadcasts_app, X1, X2, F1. simpl.
           split; [reflexivity|]. split; [lia|]. split; [|exact F2].
           intros j k Hj. specialize (B2 j k Hj). lia.
    + intros e s1 (Hn1 & evs1 & H1 & X1 & B1 & F1).
      split; [exact Hn1|].
      exists evs1, 1%nat. split; [exact H1|]. split; [exact X1|].
      split; [lia|]. split; [|exact F1].
      intros j k Hj. rewrite (B1 j k Hj). lia.
Qed.

Lemma since_app s s' evs : history s' = history s ++ evs -> since s s' = evs.
Proof.
  intros H. unfold since. rewrite H. rewrite skipn_app, skipn_all, Nat.sub_diag. reflexivity.
Qed.

(** C9.  One scan of the cameras by the streaming thread has defined
    behaviour and examines cameras 0, 1, ..., n-1 in this order for some
    n; every frame it broadcasts is a frame of camera n-1, the camera
    examined last: the scan broadcasts frames of at most one camera and does
    not go on to the next camera after a broadcast, and the next scan starts
    at camera 0 again.  It sets [foundFrame] exactly when it broadcast.
    Within the body for one camera the depth check runs after the color
    frame was sent: there is a scan that broadcasts the color and the depth
    frame of camera 0. *)
Theorem scan_serves_one_camera :
  (forall s, exists s' n,
     ((exists found, findNextFrame s = Ok found s' /\
                     (found = true <-> broadcasts (since s s') <> []))
      \/ (exists e, findNextFrame s = Raised e s')) /\
     (exists evs, history s' = history s ++ evs) /\
     examined (since s s') = seq 0 n /\
     (forall i k, In (i, k) (broadcasts (since s s')) -> S i = n)) /\
  (exists s s', findNextFrame s = Ok true s' /\
     broadcasts (since s s') = [(0%nat, Color); (0%nat, Depth)]).
Proof.
  split.
  - intros s.
    pose proof (scanCameras_trace (numCameras s) 0 s eq_refl) as H.
    unfold wp in H. unfold findNextFrame.
    destruct (scanCameras (numCameras s) 0 s) as [b s'|e s'|]; [| |contradiction].
    + destruct H as (_ & evs & n & H1 & X & _ & B & F).
      exists s', n. rewrite (since_app _ _ _ H1).
      split; [left; exists b; split; [reflexivity|exact F]|].
      split; [exists evs; exact H1|]. split; [exact X|].
      intros i k Hi. specialize (B i k Hi). lia.
    + destruct H as (_ & evs & n & H1 & X & _ & B & F).
      exists s', n. rewrite (since_app _ _ _ H1).
      split; [right; exists e; reflexivity|].
      split; [exists evs; exact H1|]. split; [exact X|].
      intros i k Hi. specialize (B i k Hi). lia.
  - exists (setSchedule [[ColorFrame 0 (sampleFrame 1); DepthFrame 0 (sampleFrame 2)]]
                        twoCameras).
    exists (stateOf (findNextFrame
              (setSchedule [[ColorFrame 0 (sampleFrame 1); DepthFrame 0 (sampleFrame 2)]]
                           twoCameras))).
    split; vm_compute; reflexivity.
Qed.

(** ** Frames that are ready stay ready until they are sent *)

Lemma wp_and {A} (m : M A) Q1 Q2 E1 E2 s :
  wp m Q1 E1 s -> wp m Q2 E2 s ->
  wp m (fun a s' => Q1 a s' /\ Q2 a s') (fun e s' => E1 e s' /\ E2 e s') s.
Proof. unfold wp. destruct (m s); auto. Qed.

Lemma nth_error_replace {A} (l : list A) (i j : nat) (a : A) :
  (i < length l)%nat ->
  nth_error (replace i a l) j = if Nat.eqb i j then Some a else nth_error l j.
Proof.
  intros Hi. destruct (nth_error l i) as [x|] eqn:E.
  2:{ apply nth_error_None in E. lia. }
  destruct (nth_error_split_at _ _ _ E) as (pre & post & -> & <-).
  rewrite replace_middle.
  destruct (Nat.eqb (length pre) j) eqn:Ej.
  - apply Nat.eqb_eq in Ej. subst j. apply nth_error_middle.
  - apply Nat.eqb_neq in Ej.
    destruct (Nat.lt_ge_cases j (length pre)) as [Hlt|Hge].
    + rewrite !nth_error_app1 by exact Hlt. reflexivity.
    + rewrite !nth_error_app2 by exact Hge.
      destruct (j - length pre)%nat as [|d] eqn:Ed; [lia|]. reflexivity.
Qed.

Lemma nth_error_updateCamera i f s j :
  nth_error (cameraStates (updateCamera i f s)) j
  = if Nat.eqb i j then option_map f (nth_error (cameraStates s) j)
    else nth_error (cameraStates s) j.
Proof.
  unfold updateCamera. destruct (nth_error (cameraStates s) i) as [cs|] eqn:E.
  - simpl. rewrite nth_error_replace by (apply nth_error_Some; congruence).
    destruct (Nat.eqb i j) eqn:Ej; [|reflexivity].
    apply Nat.eqb_eq in Ej. subst j. rewrite E. reflexivity.
  - destruct (Nat.eqb i j) eqn:Ej; [|reflexivity].
    apply Nat.eqb_eq in Ej. subst j. rewrite E. reflexivity.
Qed.

(** The slot handed to the producer is never the one the reader holds. *)
Lemma startNewValue_not_locked {T} (tb : TripleBuffer T) :
  startNewValue tb <> lockedIndex tb.
Proof.
  unfold startNewValue.
  pose proof (Nat.mod_upper_bound (lockedIndex tb + 1) 3).
  pose proof (Nat.mod_upper_bound ((lockedIndex tb + 1) mod 3 + 1) 3).
  destruct (lockedIndex tb) as [|[|[|l]]]; simpl in *.
  - destruct (mostRecentIndex tb) as [|[|?]]; simpl; discriminate.
  - destruct (mostRecentIndex tb) as [|[|[|?]]]; simpl; discriminate.
  - destruct (mostRecentIndex tb) as [|?]; simpl; discriminate.
  - destruct (Nat.eqb _ _); lia.
Qed.

Lemma deliverable_cameras a k s s' :
  cameraStates s' = cameraStates s -> deliverable a k s -> deliverable a k s'.
Proof. unfold deliverable. intros ->. auto. Qed.

(** A change of camera [i] that keeps the flags and the buffer of stream
    [k], or keeps it ready, keeps camera [a]'s frame ready. *)
Lemma deliverable_updateCamera a k i f s :
  (forall cs, hasSentFrame (stream k cs) = false ->
     lockedIndex (frames (stream k cs)) <> mostRecentIndex (frames (stream k cs)) ->
     hasSentFrame (stream k (f cs)) = false /\
     lockedIndex (frames (stream k (f cs))) <> mostRecentIndex (frames (stream k (f cs)))) ->
  deliverable a k s -> deliverable a k (updateCamera i f s).
Proof.
  intros Hf (cs & Hcs & Hs & Hl). unfold deliverable.
  rewrite nth_error_updateCamera. rewrite Hcs.
  destruct (Nat.eqb i a); simpl; [|eauto].
  exists (f cs). destruct (Hf cs Hs Hl). auto.
Qed.

Lemma callback_keeps_ready k k' fr cs :
  hasSentFrame (stream k cs) = false ->
  lockedIndex (frames (stream k cs)) <> mostRecentIndex (frames (stream k cs)) ->
  let cs' := setStream k' (streamingCallback fr (stream k' cs)) cs in
  hasSentFrame (stream k cs') = false /\
  lockedIndex (frames (stream k cs')) <> mostRecentIndex (frames (stream k cs')).
Proof.
  intros Hs Hl. destruct k, k'; simpl; auto; split; auto;
    intros H; symmetry in H; revert H; apply startNewValue_not_locked.
Qed.

Lemma deliverable_applyEnv a k s e : deliverable a k s -> deliverable a k (applyEnv s e).
Proof.
  intros H. destruct e as [i fr|i fr|flt|sock v].
  - apply deliverable_updateCamera; [|exact H].
    intros cs Hs Hl. apply (callback_keeps_ready k Color fr cs Hs Hl).
  - apply deliverable_updateCamera; [|exact H].
    intros cs Hs Hl. apply (callback_keeps_ready k Depth fr cs Hs Hl).
  - unfold applyEnv.
    destruct (listeningRound_accepted flt s) as (sock & _ & [(_ & ->)|(_ & [->| ->])]);
      exact H.
  - exact H.
Qed.

Lemma deliverable_observed a k s : deliverable a k s -> deliverable a k (observed s).
Proof.
  apply (observed_invariant (deliverable a k)).
  - intros s0 sch H. exact H.
  - intros s0 e H. apply deliverable_applyEnv. exact H.
Qed.

Lemma stream_setStream_other k k' st cs : k <> k' -> stream k (setStream k' st cs) = stream k cs.
Proof. destruct k, k'; simpl; congruence. Qed.

(** Checking another stream leaves camera [a]'s frame of kind [k] ready. *)
Lemma sendIfNew_keeps_ready a k i k' s :
  (i < numCameras s)%nat -> (i, k') <> (a, k) -> deliverable a k s ->
  wp (sendIfNew i k') (fun _ s' => deliverable a k s') (fun _ _ => True) s.
Proof.
  intros Hi Hne Hd. unfold sendIfNew. apply wp_bind, wp_observe.
  apply deliverable_observed in Hd. pose proof (observed_numCameras s) as Hn.
  set (s1 := observed s) in *. unfold wp.
  destruct (nth_error (cameraStates s1) i) as [cs|] eqn:Ecs.
  2:{ apply nth_error_None in Ecs. unfold numCameras in *. lia. }
  destruct (hasSentFrame (stream k' cs)); [exact Hd|].
  assert (Hother : forall g, (forall cs0, stream k (g cs0) = stream k cs0) \/ i <> a ->
            forall s0, deliverable a k s0 -> deliverable a k (updateCamera i g s0)).
  { intros g Hg s0 (cs0 & Hcs0 & Hs0 & Hl0). unfold deliverable.
    rewrite nth_error_updateCamera, Hcs0.
    destruct (Nat.eqb i a) eqn:Eia; simpl; [|eauto].
    apply Nat.eqb_eq in Eia. destruct Hg as [Hg|Hg]; [|contradiction].
    exists (g cs0). rewrite Hg. auto. }
  assert (Hk : (forall st cs0, stream k (setStream k' st cs0) = stream k cs0) \/ i <> a).
  { destruct (Nat.eq_dec i a) as [->|Hia]; [|right; exact Hia].
    left. intros st cs0. apply stream_setStream_other. congruence. }
  assert (Hlock : forall tb, deliverable a k (updateCamera i (setLocked k' tb) s1)).
  { intros tb. apply Hother; [|exact Hd]. unfold setLocked.
    destruct Hk as [Hk|Hk]; [left; intros; apply Hk|right; exact Hk]. }
  unfold lockNewValue. set (tb := mkTripleBuffer _ _ _).
  destruct (negb _); [|apply Hlock].
  unfold bind, modify, ret. set (s3 := record _ _).
  assert (Hd3 : deliverable a k s3) by (apply (Hlock tb)).
  destruct (sendToClients_cases i k' (getLockedValue tb) s3)
    as (fo & _ & [(_ & ->)|(e & _ & ->)]); [|exact I].
  apply (deliverable_cameras a k (updateCamera i (setSent k' true)
           (setClients (fClients fo) (closed s3 ++ fClosed fo) s3))); [reflexivity|].
  apply Hother; [|exact Hd3]. unfold setSent.
  destruct Hk as [Hk|Hk]; [left; intros; apply Hk|right; exact Hk].
Qed.

(** Checking the stream that is ready finds the frame. *)
Lemma sendIfNew_finds_ready a k s :
  deliverable a k s ->
  wp (sendIfNew a k) (fun b _ => b = true) (fun _ _ => True) s.
Proof.
  intros Hd. unfold sendIfNew. apply wp_bind, wp_observe.
  apply deliverable_observed in Hd. set (s1 := observed s) in *. unfold wp.
  destruct Hd as (cs & -> & -> & Hl).
  unfold lockNewValue. set (tb := mkTripleBuffer _ _ _).
  apply Nat.eqb_neq in Hl. rewrite Hl. simpl negb. cbv iota.
  unfold bind, modify, ret. set (s3 := record _ _).
  destruct (sendToClients_cases a k (getLockedValue tb) s3)
    as (fo & _ & [(_ & ->)|(e & _ & ->)]); [reflexivity|exact I].
Qed.

Lemma serveCamera_keeps_ready a k i s :
  (i < numCameras s)%nat -> i <> a -> deliverable a k s ->
  wp (serveCamera i) (fun _ s' => deliverable a k s') (fun _ _ => True) s.
Proof.
  intros Hi Hne Hd. unfold serveCamera.
  apply wp_bind, wp_modify. apply wp_bind.
  set (s0 := record (Examined i) s).
  change (deliverable a k s0) in Hd. change (i < numCameras s0)%nat in Hi.
  eapply wp_conseq;
    [apply (wp_and _ _ _ _ _ _ (sendIfNew_trace i Color s0 Hi)
                   (sendIfNew_keeps_ready a k i Color s0 Hi ltac:(congruence) Hd))| |];
    [|intros; exact I].
  intros b1 s1 ((Hn1 & _) & Hd1). apply wp_bind.
  eapply wp_conseq;
    [apply (sendIfNew_keeps_ready a k i Depth s1); [rewrite Hn1; exact Hi|congruence|exact Hd1]
    | |]; [|intros; exact I].
  intros b2 s2 Hd2. apply wp_ret. exact Hd2.
Qed.

Lemma serveCamera_finds_ready a k s :
  (a < numCameras s)%nat -> deliverable a k s ->
  wp (serveCamera a) (fun b _ => b = true) (fun _ _ => True) s.
Proof.
  intros Hi Hd. unfold serveCamera.
  apply wp_bind, wp_modify. apply wp_bind.
  set (s0 := record (Examined a) s).
  change (deliverable a k s0) in Hd. change (a < numCameras s0)%nat in Hi.
  destruct k.
  - eapply wp_conseq;
      [apply (wp_and _ _ _ _ _ _ (sendIfNew_trace a Color s0 Hi)
                     (sendIfNew_finds_ready a Color s0 Hd))| |];
      [|intros; exact I].
    intros b1 s1 ((Hn1 & _) & ->). apply wp_bind.
    eapply wp_conseq; [apply (sendIfNew_trace a Depth s1); rewrite Hn1; exact Hi| |];
      [|intros; exact I].
    intros b2 s2 _. apply wp_ret. reflexivity.
  - eapply wp_conseq;
      [apply (wp_and _ _ _ _ _ _ (sendIfNew_trace a Color s0 Hi)
                     (sendIfNew_keeps_ready a Depth a Color s0 Hi ltac:(congruence) Hd))| |];
      [|intros; exact I].
    intros b1 s1 ((Hn1 & _) & Hd1). apply wp_bind.
    eapply wp_conseq; [apply (sendIfNew_finds_ready a Depth s1 Hd1)| |];
      [|intros; exact I].
    intros b2 s2 ->. apply wp_ret. apply orb_true_r.
Qed.

(** With camera [a]'s frame ready, the scan from camera [i <= a] ends with
    a broadcast, and broadcasts nothing of a camera after [a]. *)
Lemma scanCameras_stops a k :
  forall n i s, (i + n = numCameras s)%nat -> (i <= a < i + n)%nat ->
  deliverable a k s ->
  wp (scanCameras n i)
     (fun b s' => b = true /\
        exists evs, history s' = history s ++ evs /\ broadcasts evs <> [] /\
          forall j k', In (j, k') (broadcasts evs) -> (j <= a)%nat)
     (fun e s' =>
        exists evs, history s' = history s ++ evs /\ broadcasts evs <> [] /\
          forall j k', In (j, k') (broadcasts evs) -> (j <= a)%nat)
     s.
Proof.
  induction n as [|n IH]; intros i s Hin Ha Hd; [lia|].
  simpl. apply wp_bind.
  assert (Hi : (i < numCameras s)%nat) by lia.
  destruct (Nat.eq_dec i a) as [->|Hne].
  - eapply wp_conseq;
      [apply (wp_and _ _ _ _ _ _ (serveCamera_trace a s Hi)
                     (serveCamera_finds_ready a k s Hi Hd))| |].
    + intros b s1 ((Hn1 & evs & H1 & _ & B1 & F1) & ->).
      apply wp_ret. split; [reflexivity|].
      exists evs. split; [exact H1|]. split; [apply F1; reflexivity|].
      intros j k' Hj. rewrite (B1 j k' Hj). lia.
    + intros e s1 ((Hn1 & evs & H1 & _ & B1 & F1) & _).
      exists evs. split; [exact H1|]. split; [exact F1|].
      intros j k' Hj. rewrite (B1 j k' Hj). lia.
  - eapply wp_conseq;
      [apply (wp_and _ _ _ _ _ _ (serveCamera_trace i s Hi)
                     (serveCamera_keeps_ready a k i s Hi Hne Hd))| |].
    + intros b s1 ((Hn1 & evs & H1 & _ & B1 & F1) & Hd1).
      destruct b.
      * apply wp_ret. split; [reflexivity|].
        exists evs. split; [exact H1|]. split; [apply F1; reflexivity|].
        intros j k' Hj. rewrite (B1 j k' Hj). lia.
      * apply not_found_no_broadcast in F1.
        eapply wp_conseq; [apply (IH (S i) s1); [lia|lia|exact Hd1]| |].
        -- intros b s2 (-> & evs2 & H2 & F2 & B2). split; [reflexivity|].
           exists (evs ++ evs2). rewrite H2, H1, <- app_assoc.
           split; [reflexivity|]. rewrite broadcasts_app, F1. simpl. auto.
        -- intros e s2 (evs2 & H2 & F2 & B2).
           exists (evs ++ evs2). rewrite H2, H1, <- app_assoc.
           split; [reflexivity|]. rewrite broadcasts_app, F1. simpl. auto.
    + intros e s1 ((Hn1 & evs & H1 & _ & B1 & F1) & _).
      exists evs. split; [exact H1|]. split; [exact F1|].
      intros j k' Hj. rewrite (B1 j k' Hj). lia.
Qed.

(** C1, as the code has it.  Cameras are examined, not delivered, in index
    order: when camera [a] has a frame that is committed and not yet sent in
    this meta-frame, the next scan broadcasts something and broadcasts no
    frame of a camera with a higher index than [a].  So a frame of camera 0
    that is ready when the scan starts goes out before any frame of
    camera 1. *)
Theorem scan_prefers_lower_index (s : KinectServer) (a : nat) (k : Kind) :
  deliverable a k s ->
  exists s',
    (findNextFrame s = Ok true s' \/ exists e, findNextFrame s = Raised e s') /\
    (exists evs, history s' = history s ++ evs) /\
    broadcasts (since s s') <> [] /\
    forall i k', In (i, k') (broadcasts (since s s')) -> (i <= a)%nat.
Proof.
  intros Hd.
  assert (Ha : (a < numCameras s)%nat).
  { destruct Hd as (cs & Hcs & _). unfold numCameras. apply nth_error_Some. congruence. }
  pose proof (scanCameras_stops a k (numCameras s) 0 s eq_refl ltac:(lia) Hd) as H.
  unfold wp in H. unfold findNextFrame.
  destruct (scanCameras (numCameras s) 0 s) as [b s'|e s'|]; [| |contradiction].
  - destruct H as (-> & evs & H1 & F & B).
    exists s'. rewrite (since_app _ _ _ H1).
    split; [left; reflexivity|]. split; [exists evs; exact H1|]. split; assumption.
  - destruct H as (evs & H1 & F & B).
    exists s'. rewrite (since_app _ _ _ H1).
    split; [right; exists e; reflexivity|]. split; [exists evs; exact H1|]. split; assumption.
Qed.

Lemma scan_prefers_lower_index_witness :
  exists s',
    (findNextFrame bothReady = Ok true s' \/ exists e, findNextFrame bothReady = Raised e s') /\
    (exists evs, history s' = history bothReady ++ evs) /\
    broadcasts (since bothReady s') <> [] /\
    forall i k', In (i, k') (broadcasts (since bothReady s')) -> (i <= 0)%nat.
Proof.
  apply (scan_prefers_lower_index bothReady 0 Color).
  exists (nth 0 (cameraStates bothReady) (newCameraState (sampleKinect SampleNames.serialA))).
  split; [vm_compute; reflexivity|].
  split; [vm_compute; reflexivity|].
  vm_compute. discriminate.
Defined.

(** C1, as the spec has it, fails: with two cameras and one client, camera
    1 commits a color frame while camera 0 has none; the frame of camera 1
    (frame identifier 2) is written to the client before the frame of
    camera 0 (frame identifier 0), both in meta-frame 0. *)
Lemma camera1_frame_written_first :
  collectFrames 2 camera1First = Ok false (stateOf (collectFrames 2 camera1First)) /\
  metaFrameIndex (stateOf (collectFrames 2 camera1First)) = 0 /\
  broadcasts (history (stateOf (collectFrames 2 camera1First)))
  = [(1%nat, Color); (0%nat, Color)] /\
  map outgoing (clients (stateOf (collectFrames 2 camera1First)))
  = [streamHeaders twoCameras
     ++ frameRecord 0 2 [x01; x00] ++ frameRecord 0 0 [x01; x00]].
Proof. split; [|split; [|split]]; vm_compute; reflexivity. Qed.

(** ** Frame indices *)

Lemma commits_app k ops1 ops2 : commits k (ops1 ++ ops2) = (commits k ops1 + commits k ops2)%nat.
Proof. unfold commits. rewrite filter_app, length_app. reflexivity. Qed.

(** The frame index of a stream counts the frames committed to it,
    modulo 2^32. *)
Lemma frameIndex_counts (device : Camera) (k : Kind) :
  forall ops,
    frameIndex (stream k (fold_left applyOp ops (newCameraState device)))
    = wrap32 (Z.of_nat (commits k ops)).
Proof.
  induction ops as [|op ops IH] using rev_ind.
  - destruct k; reflexivity.
  - rewrite fold_left_app, commits_app. simpl fold_left.
    set (cs := fold_left applyOp ops (newCameraState device)) in *.
    assert (Hstep : forall x, wrap32 (wrap32 (Z.of_nat x) + 1) = wrap32 (Z.of_nat (x + 1))).
    { intros x. unfold wrap32. rewrite Zplus_mod_idemp_l. f_equal. lia. }
    destruct op as [fr|fr|k'], k;
      try (replace (commits Color [ColorCallback fr]) with 1%nat by reflexivity);
      try (replace (commits Depth [DepthCallback fr]) with 1%nat by reflexivity);
      try (replace (commits Color [DepthCallback fr]) with 0%nat by reflexivity);
      try (replace (commits Depth [ColorCallback fr]) with 0%nat by reflexivity);
      try (replace (commits Color [LockNewest k']) with 0%nat by reflexivity);
      try (replace (commits Depth [LockNewest k']) with 0%nat by reflexivity);
      rewrite ?Nat.add_0_r.
    + simpl. change (color cs) with (stream Color cs). rewrite IH. apply Hstep.
    + exact IH.
    + exact IH.
    + simpl. change (depth cs) with (stream Depth cs). rewrite IH. apply Hstep.
    + destruct k'; exact IH.
    + destruct k'; exact IH.
Qed.

Lemma postNewValue_committed {T} (slot : nat) (v : T) (tb : TripleBuffer T) :
  buffer (postNewValue slot v tb) (mostRecentIndex (postNewValue slot v tb)) = v.
Proof. unfold postNewValue. cbn [buffer mostRecentIndex]. rewrite Nat.eqb_refl. reflexivity. Qed.

(** What a callback commits: the frame index, the frame's time stamp, and
    the bytes that were in the file after the frame was compressed. *)
Lemma streamingCallback_committed (frame : FrameBuffer) (st : Stream) :
  buffer (frames (streamingCallback frame st))
         (mostRecentIndex (frames (streamingCallback frame st)))
  = mkCompressedFrame (frameIndex st) (frameTimeStamp frame)
      (file st ++ encode (codec (compressor st)) (written (compressor st)) frame).
Proof.
  unfold streamingCallback, writeFrame, storeBuffers. cbn [frames].
  apply postNewValue_committed.
Qed.

(** A callback stores the current frame index in the frame it commits. *)
Lemma callback_commits_index (k : Kind) (frame : FrameBuffer) (cs : CameraState) :
  index (lastCommitted k (applyOp cs (callbackOf k frame))) = frameIndex (stream k cs).
Proof.
  unfold lastCommitted.
  destruct k; cbn [callbackOf applyOp colorStreamingCallback depthStreamingCallback
                   stream setStream color depth];
    rewrite streamingCallback_committed; reflexivity.
Qed.

(** C6, as the code has it.  For each camera and each kind separately,
    whatever the other stream and the streaming thread do in between, the
    frame committed by a callback carries the number of frames of that kind
    committed before it, modulo 2^32: indices start at 0 and go up by one
    per committed frame, and wrap around to 0 after 2^32 - 1. *)
Theorem frame_index_counts_commits (device : Camera) (k : Kind)
    (ops : list CameraOp) (frame : FrameBuffer) :
  index (lastCommitted k
           (applyOp (fold_left applyOp ops (newCameraState device)) (callbackOf k frame)))
  = Z.of_nat (commits k ops) mod 2 ^ 32.
Proof. rewrite callback_commits_index. apply frameIndex_counts. Qed.

Lemma commits_repeat (frame : FrameBuffer) (n : nat) :
  commits Color (repeat (ColorCallback frame) n) = n.
Proof.
  unfold commits. induction n as [|n IH]; [reflexivity|].
  cbn [repeat filter length]. rewrite IH. reflexivity.
Qed.

(** C6, as the spec has it, fails: the color frame committed after
    4294967296 earlier ones carries index 0, which is not above the index
    4294967295 of the frame before it. *)
Lemma frame_index_wraps_around :
  let run := fun n => fold_left applyOp (repeat (ColorCallback (sampleFrame 0)) n)
                                 (newCameraState (sampleKinect SampleNames.serialA)) in
  index (lastCommitted Color
           (applyOp (run (Z.to_nat (2 ^ 32 - 1))) (ColorCallback (sampleFrame 0))))
  = 4294967295 /\
  index (lastCommitted Color
           (applyOp (run (Z.to_nat (2 ^ 32))) (ColorCallback (sampleFrame 0))))
  = 0.
Proof.
  intros run. unfold run.
  split.
  - rewrite (callback_commits_index Color), frameIndex_counts, commits_repeat.
    rewrite Z2Nat.id by (vm_compute; discriminate). reflexivity.
  - rewrite (callback_commits_index Color), frameIndex_counts, commits_repeat.
    rewrite Z2Nat.id by (vm_compute; discriminate). reflexivity.
Qed.

(** ** Construction *)

Lemma findDevice_serial (serial : String.string) (bus : list Camera) (device : Camera) :
  findDevice serial bus = Some device -> serialNumber device = serial.
Proof.
  induction bus as [|cam bus IH]; simpl; [discriminate|].
  destruct (String.eqb (serialNumber cam) serial) eqn:E; [|exact IH].
  intros H. inversion H; subst. apply String.eqb_eq. exact E.
Qed.

Lemma configure_serial (sec : CameraSection) (cs : CameraState) :
  serialNumber (camera (configure sec cs)) = serialNumber (camera cs).
Proof.
  unfold configure, configureBackground. cbn [camera].
  destruct (cfgRemoveBackground sec); [|reflexivity].
  destruct (String.eqb (cfgBackgroundFile sec) String.EmptyString),
           (cfgCaptureBackgroundFrames sec >? 0), (cfgMaxDepth sec >? 0); reflexivity.
Qed.

(** The loop over the configured cameras fails only for a section without
    serial number; otherwise it creates [created] and reports the serial
    numbers that are not on the bus. *)
Lemma createCameraStates_result (bus : list Camera) :
  forall sections found missing,
    (Forall (fun sec => cfgSerialNumber sec <> None) sections /\
     createCameraStates sections bus found missing
     = inr (found ++ created sections bus,
            missing ++ filter (fun x => negb (onBus bus x)) (configuredSerials sections)))
    \/
    (Exists (fun sec => cfgSerialNumber sec = None) sections /\
     createCameraStates sections bus found missing = inl RuntimeError).
Proof.
  induction sections as [|sec rest IH]; intros found missing.
  - left. split; [constructor|]. simpl. rewrite !app_nil_r. reflexivity.
  - unfold created, configuredSerials, onBus. cbn [createCameraStates flat_map].
    destruct (cfgSerialNumber sec) as [serial|] eqn:Es.
    2:{ right. split; [left; exact Es|reflexivity]. }
    fold (created rest bus). fold (configuredSerials rest).
    destruct (findDevice serial bus) as [device|] eqn:Ed.
    + destruct (IH (found ++ [configure sec (newCameraState device)]) missing)
        as [(Hall & ->)|(Hex & ->)].
      * left. split; [constructor; [congruence|exact Hall]|].
        cbn [app filter]. unfold onBus at 1. rewrite Ed. cbn [negb].
        rewrite <- app_assoc. reflexivity.
      * right. split; [right; exact Hex|reflexivity].
    + destruct (IH found (missing ++ [serial])) as [(Hall & ->)|(Hex & ->)].
      * left. split; [constructor; [congruence|exact Hall]|].
        cbn [app filter]. unfold onBus at 1. rewrite Ed. cbn [negb].
        rewrite <- app_assoc. reflexivity.
      * right. split; [right; exact Hex|reflexivity].
Qed.

Lemma created_serials (bus : list Camera) :
  forall sections,
    map (fun cs => serialNumber (camera cs)) (created sections bus)
    = filter (onBus bus) (configuredSerials sections).
Proof.
  induction sections as [|sec rest IH]; [reflexivity|].
  unfold created, configuredSerials. cbn [flat_map].
  fold (created rest bus). fold (configuredSerials rest).
  destruct (cfgSerialNumber sec) as [serial|]; [|exact IH].
  cbn [app filter]. unfold onBus at 1.
  destruct (findDevice serial bus) as [device|] eqn:Ed; [|exact IH].
  cbn [app map]. rewrite IH, configure_serial. simpl.
  rewrite (findDevice_serial _ _ _ Ed). reflexivity.
Qed.

(** C8.  The constructor fails only when a camera's section has no serial
    number, never because a configured camera is not on the bus.  When it
    returns, the listening thread has been started; the streaming thread
    has been started exactly when [numCameras] is above 0, that is, when
    some configured serial number is on the bus; the camera states are those
    of the configured cameras that are on the bus, in configuration order,
    each created from its own section and device and with streaming started;
    and the serial numbers that are not on the bus have been reported. *)
Theorem construction_starts_threads (port : Z) (sections : list CameraSection)
    (bus : list Camera) :
  (Forall (fun sec => cfgSerialNumber sec <> None) sections ->
   exists s, newKinectServer port sections bus = inr s) /\
  (forall s, newKinectServer port sections bus = inr s ->
     listeningThread s = true /\
     (streamingThread s = true <-> (0 < numCameras s)%nat) /\
     ((0 < numCameras s)%nat <->
      exists serial, In serial (configuredSerials sections) /\ onBus bus serial = true) /\
     cameraStates s = map startStreaming (created sections bus) /\
     map (fun cs => serialNumber (camera cs)) (cameraStates s)
     = filter (onBus bus) (configuredSerials sections) /\
     notFound s = filter (fun x => negb (onBus bus x)) (configuredSerials sections) /\
     metaFrameIndex s = 0 /\
     numMissingColorFrames s = Z.of_nat (numCameras s) /\
     numMissingDepthFrames s = Z.of_nat (numCameras s) /\
     clients s = []).
Proof.
  unfold newKinectServer.
  destruct (createCameraStates_result bus sections [] []) as [(Hall & ->)|(Hex & ->)].
  - split; [intros _; eexists; reflexivity|].
    intros s Hs. inversion Hs; subst s; clear Hs.
    unfold numCameras. cbn [listeningThread streamingThread cameraStates notFound
      metaFrameIndex numMissingColorFrames numMissingDepthFrames clients app].
    rewrite !length_map.
    assert (Hser : map (fun cs => serialNumber (camera cs))
                       (map startStreaming (created sections bus))
                   = filter (onBus bus) (configuredSerials sections)).
    { rewrite map_map. simpl. apply created_serials. }
    split; [reflexivity|]. split; [apply Nat.ltb_lt|].
    split.
    { rewrite <- (length_map (fun cs => serialNumber (camera cs)) (created sections bus)).
      rewrite created_serials. split.
      - intros Hlen. destruct (filter (onBus bus) (configuredSerials sections))
          as [|serial l] eqn:Ef; [simpl in Hlen; lia|].
        exists serial. apply filter_In. rewrite Ef. left. reflexivity.
      - intros (serial & Hin & Hon).
        assert (Hf : In serial (filter (onBus bus) (configuredSerials sections)))
          by (apply filter_In; split; assumption).
        destruct (filter (onBus bus) (configuredSerials sections)); [destruct Hf|simpl; lia]. }
    split; [reflexivity|]. split; [exact Hser|]. repeat split.
  - split; [|intros s Hs; discriminate].
    intros Hall. exfalso. apply Exists_exists in Hex. destruct Hex as (sec & Hin & Hnone).
    rewrite Forall_forall in Hall. exact (Hall sec Hin Hnone).
Qed.

Lemma construction_starts_threads_witness :
  exists s,
    newKinectServer 26000
      [sampleSection SampleNames.serialA; sampleSection SampleNames.serialC]
      [sampleKinect SampleNames.serialB; sampleKinect SampleNames.serialA] = inr s /\
    listeningThread s = true /\
    (streamingThread s = true <-> (0 < numCameras s)%nat) /\
    map (fun cs => serialNumber (camera cs)) (cameraStates s) = [SampleNames.serialA] /\
    notFound s = [SampleNames.serialC].
Proof.
  destruct (construction_starts_threads 26000
              [sampleSection SampleNames.serialA; sampleSection SampleNames.serialC]
              [sampleKinect SampleNames.serialB; sampleKinect SampleNames.serialA])
    as (Hex & Hall).
  destruct Hex as (s & Hs).
  - repeat constructor; discriminate.
  - exists s. split; [exact Hs|].
    destruct (Hall s Hs) as (H1 & H2 & _ & _ & H5 & H6 & _).
    split; [exact H1|]. split; [exact H2|]. split; [exact H5|exact H6].
Defined.

(** ** The listening thread *)

Lemma sbind_assoc {A B C} (m : SockM A) (k : A -> SockM B) (k' : B -> SockM C) p :
  sbind (sbind m k) k' p = sbind m (fun a => sbind (k a) k') p.
Proof. unfold sbind. destruct (m p) as [[e|a] p']; reflexivity. Qed.

Lemma sbind_ext {A B} (m : SockM A) (k k' : A -> SockM B) p :
  (forall a q, k a q = k' a q) -> sbind m k p = sbind m k' p.
Proof. intros H. unfold sbind. destruct (m p) as [[e|a] p']; auto. Qed.

Lemma sbind_sret_unit (m : SockM unit) p : sbind m (fun _ => sret tt) p = m p.
Proof. unfold sbind, sret. destruct (m p) as [[e|[]] p']; reflexivity. Qed.

Lemma sendItems_app (xs ys : list WireItem) p :
  sendItems (xs ++ ys) p = sbind (sendItems xs) (fun _ => sendItems ys) p.
Proof.
  revert p. induction xs as [|x xs IH]; intros p; [reflexivity|].
  simpl. rewrite sbind_assoc. apply sbind_ext. intros _ q. apply IH.
Qed.

Lemma writeHeaders_items (cs : CameraState) p :
  writeHeaders cs p = sendItems (headerItems cs) p.
Proof.
  unfold writeHeaders, headerItems, writeToSink, marshal. simpl.
  repeat (apply sbind_ext; intros _ ?).
  symmetry. apply sbind_sret_unit.
Qed.

Lemma writeAllHeaders_items (cams : list CameraState) p :
  writeAllHeaders cams p = sendItems (flat_map headerItems cams) p.
Proof.
  revert p. induction cams as [|cs cams IH]; intros p; [reflexivity|].
  cbn [writeAllHeaders flat_map]. rewrite sendItems_app.
  unfold sbind at 1 2. rewrite writeHeaders_items.
  destruct (sendItems (headerItems cs) p) as [[e|a] p']; [reflexivity|apply IH].
Qed.

(** Sending the stream headers is writing the items of [streamHeaders],
    one call each. *)
Lemma sendStreamHeaders_items (s : KinectServer) p :
  sendStreamHeaders s p = sendItems (streamHeaders s) p.
Proof.
  unfold sendStreamHeaders, streamHeaders, writeU32. cbn [app sendItems].
  apply sbind_ext; intros _ q. apply sbind_ext; intros _ q'.
  rewrite sendItems_app. unfold sbind at 1 2. rewrite writeAllHeaders_items.
  destruct (sendItems (flat_map headerItems (cameraStates s)) q') as [[e|a] p']; [reflexivity|].
  simpl. unfold flush. symmetry. apply sbind_sret_unit.
Qed.

Lemma calm_S n p :
  calm (S n) p <-> hd None (faults p) = None /\ calm n (setFaults p (tl (faults p))).
Proof.
  unfold calm. simpl. destruct (faults p) as [|f fs]; simpl.
  - rewrite firstn_nil. split; [intros; split; auto|constructor].
  - split.
    + intros H. inversion H; subst. auto.
    + intros (-> & H). constructor; auto.
Qed.

Lemma afterWriting_step n x items p :
  afterWriting n items (emit (setFaults p (tl (faults p))) x)
  = afterWriting (S n) (x :: items) p.
Proof.
  unfold afterWriting, emit, setFaults. simpl. rewrite <- app_assoc. simpl.
  f_equal. destruct (faults p); [rewrite skipn_nil|]; reflexivity.
Qed.

(** Either every call succeeds and all items are on the wire, or the
    first failing call is the [n]-th and the items before it are. *)
Lemma sendItems_result :
  forall items p,
    (calm (length items) p /\
     sendItems items p = (inr tt, afterWriting (length items) items p))
    \/
    (exists n e, (n < length items)%nat /\ nth_error (faults p) n = Some (Some e) /\
       calm n p /\
       sendItems items p = (inl e, afterWriting (S n) (firstn n items) p)).
Proof.
  induction items as [|x items IH]; intros p.
  - left. split; [constructor|]. unfold afterWriting. simpl. rewrite app_nil_r.
    destruct p; reflexivity.
  - cbn [sendItems length]. unfold sbind, call.
    destruct (hd None (faults p)) as [e|] eqn:Eh.
    + right. exists 0%nat, e. split; [lia|].
      destruct (faults p) as [|f fs] eqn:Ef; simpl in Eh; [discriminate|]. subst f.
      split; [reflexivity|]. split; [constructor|].
      unfold afterWriting, setFaults. simpl. rewrite app_nil_r, Ef. reflexivity.
    + destruct (IH (emit (setFaults p (tl (faults p))) x))
        as [(Hc & ->)|(n & e & Hn & He & Hc & ->)].
      * left. split; [apply calm_S; split; [exact Eh|exact Hc]|].
        rewrite afterWriting_step. reflexivity.
      * right. exists (S n), e. split; [lia|].
        split; [|split; [apply calm_S; split; [exact Eh|exact Hc]|]].
        -- simpl in He. destruct (faults p); [destruct n; discriminate|exact He].
        -- rewrite afterWriting_step. reflexivity.
Qed.

(** The two ways a round of the listening thread with an accepted
    connection can go. *)
Lemma listeningRound_outcome (s : KinectServer) (flt : list (option Exn)) :
  let sock0 := mkPipe (nextSock s) [] [] flt in
  let s1 := setNextSock (S (nextSock s)) s in
  (calm (length (streamHeaders s)) sock0 /\
   listeningRound (Accepted flt) s
   = Ok tt (setClients
              (clients s ++ [afterWriting (length (streamHeaders s)) (streamHeaders s) sock0])
              (closed s) s1))
  \/
  (exists n e, (n < length (streamHeaders s))%nat /\
     nth_error flt n = Some (Some e) /\ calm n sock0 /\
     let sock := afterWriting (S n) (firstn n (streamHeaders s)) sock0 in
     let s' := setClients (clients s) (closed s ++ [sock]) s1 in
     listeningRound (Accepted flt) s
     = match e with RuntimeError => Ok tt s' | OtherExn => Raised OtherExn s' end).
Proof.
  intros sock0 s1.
  unfold listeningRound. fold sock0. fold s1.
  rewrite sendStreamHeaders_items.
  destruct (sendItems_result (streamHeaders s) sock0)
    as [(Hc & ->)|(n & e & Hn & He & Hc & ->)].
  - left. split; [exact Hc|reflexivity].
  - right. exists n, e. split; [exact Hn|]. split; [exact He|]. split; [exact Hc|].
    destruct e; reflexivity.
Qed.

(** C4.  For every accepted connection the listening thread writes the
    items of [streamHeaders] in order: the magic number 0x12345678, the
    number of cameras, for each camera in index order its color and depth
    codec headers, its color and depth projections and its extrinsic
    parameters, and a flush.  If no call fails, the pipe, with exactly these
    items on its wire, is appended to the client vector and nothing is
    deleted.  If the [n]-th call fails, the pipe has the first [n] items on
    its wire and is deleted, and the client vector is unchanged; the thread
    goes on after a [std::runtime_error] and ends otherwise. *)
Theorem new_client_gets_stream_headers (s : KinectServer) (flt : list (option Exn)) :
  let sock0 := mkPipe (nextSock s) [] [] flt in
  let s1 := setNextSock (S (nextSock s)) s in
  streamHeaders s
  = [U32 305419896; U32 (Z.of_nat (numCameras s))]
    ++ flat_map headerItems (cameraStates s) ++ [Flush] /\
  ((calm (length (streamHeaders s)) sock0 /\
    listeningRound (Accepted flt) s
    = Ok tt (setClients
               (clients s ++ [afterWriting (length (streamHeaders s)) (streamHeaders s) sock0])
               (closed s) s1))
   \/
   (exists n e, (n < length (streamHeaders s))%nat /\
      nth_error flt n = Some (Some e) /\ calm n sock0 /\
      let sock := afterWriting (S n) (firstn n (streamHeaders s)) sock0 in
      let s' := setClients (clients s) (closed s ++ [sock]) s1 in
      listeningRound (Accepted flt) s
      = match e with RuntimeError => Ok tt s' | OtherExn => Raised OtherExn s' end)).
Proof.
  intros sock0 s1. split; [reflexivity|].
  apply listeningRound_outcome.
Qed.

(** ** Invariants of the streaming thread *)

Section ThreadInvariant.

(** [I] is to hold whenever the thread is between two steps, [E] when it
    has thrown. *)
Variable I : KinectServer -> Prop.
Variable E : Exn -> KinectServer -> Prop.

Hypothesis I_observed : forall s, I s -> I (observed s).
Hypothesis I_record : forall s e, I s -> I (record e s).
Hypothesis I_locked : forall s i k tb, I s -> I (updateCamera i (setLocked k tb) s).
(** The fan-out of a frame of a stream whose flag is not set, with the
    bookkeeping that follows it. *)
Hypothesis I_deliver : forall s i k f cs,
  I s -> nth_error (cameraStates s) i = Some cs -> hasSentFrame (stream k cs) = false ->
  wp (bind (sendToClients i k f) (fun _ =>
      bind (modify (updateCamera i (setSent k true))) (fun _ =>
      bind (modify (fun s => setNumMissingFrames k (wrap32 (numMissingFrames k s - 1)) s))
           (fun _ => ret true))))
     (fun _ s' => I s') E s.
Hypothesis I_new : forall s, I s -> wp startNewMetaFrame (fun _ s' => I s') E s.

Lemma sendIfNew_invariant i k s :
  (i < numCameras s)%nat -> I s ->
  wp (sendIfNew i k) (fun _ s' => I s') E s.
Proof.
  intros Hi Hs. unfold sendIfNew. apply wp_bind, wp_observe.
  assert (H1 : I (observed s)) by (apply I_observed; exact Hs).
  pose proof (observed_numCameras s) as Hn.
  set (s1 := observed s) in *. unfold wp.
  destruct (nth_error (cameraStates s1) i) as [cs|] eqn:Ecs.
  2:{ apply nth_error_None in Ecs. unfold numCameras in *. lia. }
  destruct (hasSentFrame (stream k cs)) eqn:Esent; [exact H1|].
  unfold lockNewValue. set (tb := mkTripleBuffer _ _ _).
  destruct (negb _); [|apply I_locked; exact H1].
  unfold bind at 1. unfold modify at 1. set (s3 := record _ _).
  assert (H3 : I s3) by (apply I_record, I_locked; exact H1).
  apply (I_deliver s3 i k (getLockedValue tb) (setLocked k tb cs) H3).
  - unfold s3. cbn [cameraStates record]. rewrite nth_error_updateCamera, Nat.eqb_refl, Ecs.
    reflexivity.
  - destruct k; exact Esent.
Qed.

Lemma serveCamera_invariant i s :
  (i < numCameras s)%nat -> I s ->
  wp (serveCamera i) (fun _ s' => I s') E s.
Proof.
  intros Hi Hs. unfold serveCamera.
  apply wp_bind, wp_modify. apply wp_bind.
  set (s0 := record (Examined i) s).
  assert (H0 : I s0) by (apply I_record; exact Hs).
  change (i < numCameras s0)%nat in Hi.
  eapply wp_conseq;
    [apply (wp_and _ _ _ _ _ _ (sendIfNew_trace i Color s0 Hi)
                   (sendIfNew_invariant i Color s0 Hi H0))| |];
    [|intros e s' (_ & H); exact H].
  intros b1 s1 ((Hn1 & _) & H1). apply wp_bind.
  eapply wp_conseq;
    [apply (sendIfNew_invariant i Depth s1); [rewrite Hn1; exact Hi|exact H1]| |];
    [|intros e s' H; exact H].
  intros b2 s2 H2. apply wp_ret. exact H2.
Qed.

Lemma scanCameras_invariant :
  forall n i s, (i + n = numCameras s)%nat -> I s ->
  wp (scanCameras n i) (fun _ s' => I s') E s.
Proof.
  induction n as [|n IH]; intros i s Hin Hs; [apply wp_ret; exact Hs|].
  simpl. apply wp_bind.
  assert (Hi : (i < numCameras s)%nat) by lia.
  eapply wp_conseq;
    [apply (wp_and _ _ _ _ _ _ (serveCamera_trace i s Hi)
                   (serveCamera_invariant i s Hi Hs))| |];
    [|intros e s' (_ & H); exact H].
  intros b s1 ((Hn1 & _) & H1).
  destruct b; [apply wp_ret; exact H1|].
  apply IH; [lia|exact H1].
Qed.

Lemma collectFrames_invariant :
  forall fuel s, I s -> wp (collectFrames fuel) (fun _ s' => I s') E s.
Proof.
  induction fuel as [|fuel IH]; intros s Hs; [exact Hs|].
  unfold wp. cbn [collectFrames].
  destruct ((numMissingDepthFrames s >? 0) || (numMissingColorFrames s >? 0)); [|exact Hs].
  change (wp (bind findNextFrame
                (fun foundFrame : bool =>
                   bind (if foundFrame then ret tt else wait)
                        (fun _ => collectFrames fuel)))
             (fun _ s' => I s') E s).
  apply wp_bind. unfold findNextFrame.
  eapply wp_conseq; [apply (scanCameras_invariant (numCameras s) 0 s eq_refl Hs)| |];
    [|intros e s' H; exact H].
  intros b s1 H1. apply wp_bind.
  destruct b.
  - apply wp_ret. apply IH. exact H1.
  - unfold wait. apply wp_modify. apply IH. apply I_record. exact H1.
Qed.

Lemma streamingThreadMethod_invariant :
  forall metaFrames fuel s, I s ->
  wp (streamingThreadMethod metaFrames fuel) (fun _ s' => I s') E s.
Proof.
  induction metaFrames as [|mf IH]; intros fuel s Hs; [apply wp_ret; exact Hs|].
  simpl. apply wp_bind.
  eapply wp_conseq; [apply (collectFrames_invariant fuel s Hs)| |];
    [|intros e s' H; exact H].
  intros complete s1 H1. destruct complete; [|apply wp_ret; exact H1].
  apply wp_bind.
  eapply wp_conseq; [apply (I_new s1 H1)| |]; [|intros e s' H; exact H].
  intros u s2 H2. apply IH. exact H2.
Qed.

End ThreadInvariant.

(** ** Stream headers come first *)

Lemma In_erase {A} (j : nat) (l : list A) (x : A) : In x (erase j l) -> In x l.
Proof.
  unfold erase. intros H. apply in_app_or in H. rewrite <- (firstn_skipn j l).
  apply in_or_app. destruct H as [H|H]; [left; exact H|right].
  revert H. rewrite <- (Nat.add_1_l j), <- skipn_skipn.
  generalize (skipn j l). intros l0 H. destruct l0; simpl in *; auto.
Qed.

Lemma In_replace {A} (j : nat) (a : A) (l : list A) (x : A) :
  In x (replace j a l) -> x = a \/ In x l.
Proof.
  unfold replace. intros H. apply in_app_or in H. destruct H as [H|[H|H]].
  - right. rewrite <- (firstn_skipn j l). apply in_or_app. left. exact H.
  - left. symmetry. exact H.
  - right. apply (In_erase j). unfold erase. apply in_or_app. right. exact H.
Qed.

(** Whatever the number of clients, a fan-out only adds frame records to
    the wires of the clients it leaves in the vector. *)
Lemma fanOutLoop_appends (m fid : Z) (d : Blob) :
  forall fuel j n s r,
    finalState (fanOutLoop fuel m fid d j n s) = Some r ->
    forall c', In c' (fClients r) ->
      exists c frs, In c (fClients s) /\ sockId c' = sockId c /\
                    outgoing c' = outgoing c ++ frameRecords frs.
Proof.
  induction fuel as [|fuel IH]; intros j n s r Hr c' Hc'; [discriminate|].
  simpl in Hr. destruct (j <? n).
  2:{ inversion Hr; subst r. exists c', []. rewrite app_nil_r. auto. }
  destruct (nth_error (fClients s) (Z.to_nat j)) as [c|] eqn:Ec; [|discriminate].
  assert (Hin : In c (fClients s)) by (eapply nth_error_In; exact Ec).
  destruct (serveClient m fid d c) as [[[|]|[|]] c1] eqn:Esc.
  - destruct (IH _ _ _ _ Hr c' Hc') as (c0 & frs & H0 & Hid & Hout).
    exists c0, frs. split; [apply (In_erase _ _ _ H0)|auto].
  - inversion Hr; subst r. simpl in Hc'.
    exists c', []. rewrite app_nil_r. split; [apply (In_erase _ _ _ Hc')|auto].
  - destruct (IH _ _ _ _ Hr c' Hc') as (c0 & frs & H0 & Hid & Hout).
    exists c0, frs. split; [apply (In_erase _ _ _ H0)|auto].
  - destruct (IH _ _ _ _ Hr c' Hc') as (c0 & frs & H0 & Hid & Hout).
    simpl in H0. apply In_replace in H0. destruct H0 as [->|H0].
    + destruct (serveClient_kept m fid d c c1 Esc) as (_ & _ & ->).
      exists c, ((m, fid, d) :: frs). split; [exact Hin|].
      split; [exact Hid|]. rewrite Hout. unfold afterWriting. simpl.
      rewrite <- app_assoc. reflexivity.
    + exists c0, frs. auto.
Qed.

Lemma streamHeaders_cameras s s' :
  map headerItems (cameraStates s') = map headerItems (cameraStates s) ->
  streamHeaders s' = streamHeaders s.
Proof.
  intros H. unfold streamHeaders, numCameras.
  rewrite !flat_map_concat_map, H.
  rewrite <- (length_map headerItems (cameraStates s')), H, length_map. reflexivity.
Qed.

Lemma map_replace {A B} (f : A -> B) (l : list A) (i : nat) (a x : A) :
  nth_error l i = Some x -> f a = f x -> map f (replace i a l) = map f l.
Proof.
  intros E H. destruct (nth_error_split_at _ _ _ E) as (pre & post & -> & <-).
  rewrite replace_middle, !map_app. simpl. rewrite H. reflexivity.
Qed.

Lemma streamHeaders_updateCamera i f s :
  (forall cs, headerItems (f cs) = headerItems cs) ->
  streamHeaders (updateCamera i f s) = streamHeaders s.
Proof.
  intros Hf. apply streamHeaders_cameras. unfold updateCamera.
  destruct (nth_error (cameraStates s) i) as [cs|] eqn:E; [|reflexivity].
  simpl. apply (map_replace _ _ _ _ cs E). apply Hf.
Qed.

Lemma headersFirst_updateCamera H i f s :
  (forall cs, headerItems (f cs) = headerItems cs) ->
  headersFirst H s -> headersFirst H (updateCamera i f s).
Proof.
  intros Hf (Hh & Hc). split; [rewrite streamHeaders_updateCamera; auto|].
  unfold updateCamera. destruct (nth_error (cameraStates s) i); exact Hc.
Qed.

Lemma headerItems_callback k fr cs :
  headerItems (setStream k (streamingCallback fr (stream k cs)) cs) = headerItems cs.
Proof. destruct k; reflexivity. Qed.

Lemma headerItems_setLocked k tb cs : headerItems (setLocked k tb cs) = headerItems cs.
Proof. destruct k; reflexivity. Qed.

Lemma headerItems_setSent k b cs : headerItems (setSent k b cs) = headerItems cs.
Proof. destruct k; reflexivity. Qed.

Lemma headersFirst_applyEnv H s e : headersFirst H s -> headersFirst H (applyEnv s e).
Proof.
  intros Hs. destruct e as [i fr|i fr|flt|sock v].
  - apply headersFirst_updateCamera; [|exact Hs].
    intros cs. apply (headerItems_callback Color).
  - apply headersFirst_updateCamera; [|exact Hs].
    intros cs. apply (headerItems_callback Depth).
  - destruct Hs as (Hh & Hc). unfold applyEnv.
    destruct (listeningRound_outcome s flt)
      as [(_ & ->)|(n & e & _ & _ & _ & Hr)].
    + split; [exact Hh|]. cbn [clients setClients]. intros c Hin.
      apply in_app_or in Hin. destruct Hin as [Hin|[<-|[]]]; [auto|].
      exists []. unfold afterWriting. simpl. rewrite app_nil_r, Hh. reflexivity.
    + rewrite Hr. destruct e; (split; [exact Hh|exact Hc]).
  - destruct Hs as (Hh & Hc). split; [exact Hh|].
    cbn [applyEnv clients setClients]. intros c Hin.
    apply in_map_iff in Hin. destruct Hin as (c0 & <- & Hin).
    destruct (Hc c0 Hin) as (frs & Hout). exists frs.
    unfold deliverWord. destruct (Nat.eqb (sockId c0) sock); exact Hout.
Qed.

Lemma frameRecords_app frs1 frs2 :
  frameRecords (frs1 ++ frs2) = frameRecords frs1 ++ frameRecords frs2.
Proof. unfold frameRecords. apply flat_map_app. Qed.

Lemma headersFirst_send H s i k f :
  headersFirst H s ->
  wp (sendToClients i k f) (fun _ s' => headersFirst H s') (fun _ s' => headersFirst H s') s.
Proof.
  intros (Hh & Hc).
  assert (Hfo : forall fo,
            finalState (fanOut (metaFrameIndex s) (frameId i k) (data f) (clients s)) = Some fo ->
            headersFirst H (setClients (fClients fo) (closed s ++ fClosed fo) s)).
  { intros fo Hfo. split; [exact Hh|]. cbn [clients setClients]. intros c' Hc'.
    destruct (fanOutLoop_appends _ _ _ _ _ _ _ _ Hfo c' Hc') as (c & frs & Hin & _ & Hout).
    simpl in Hin. destruct (Hc c Hin) as (frs0 & Hout0).
    exists (frs0 ++ frs). rewrite Hout, Hout0, frameRecords_app, app_assoc. reflexivity. }
  unfold wp.
  destruct (sendToClients_cases i k f s) as (fo & Hf & [(_ & ->)|(e & _ & ->)]);
    apply Hfo; exact Hf.
Qed.

Lemma headersFirst_new H s :
  headersFirst H s ->
  wp startNewMetaFrame (fun _ s' => headersFirst H s') (fun _ s' => headersFirst H s') s.
Proof.
  intros (Hh & Hc). unfold wp, startNewMetaFrame. split; [|exact Hc].
  rewrite <- Hh. apply streamHeaders_cameras. simpl.
  rewrite map_map. apply map_ext. intros cs. unfold resetSent.
  rewrite !headerItems_setSent. reflexivity.
Qed.

(** The invariant holds throughout the run of the streaming thread. *)
Lemma headersFirst_thread H metaFrames fuel s :
  headersFirst H s ->
  wp (streamingThreadMethod metaFrames fuel)
     (fun _ s' => headersFirst H s') (fun _ s' => headersFirst H s') s.
Proof.
  apply (streamingThreadMethod_invariant (headersFirst H) (fun _ s' => headersFirst H s')).
  - intros s0 Hs. apply observed_invariant; [| |exact Hs].
    + intros s1 sch Hs1. exact Hs1.
    + intros s1 e Hs1. apply headersFirst_applyEnv. exact Hs1.
  - intros s0 e Hs. exact Hs.
  - intros s0 i k tb Hs. apply headersFirst_updateCamera; [|exact Hs].
    intros cs. apply headerItems_setLocked.
  - intros s0 i k f cs Hs _ _. apply wp_bind.
    eapply wp_conseq; [apply headersFirst_send; exact Hs| |]; [|intros e s' H'; exact H'].
    intros u s1 H1. apply wp_bind, wp_modify. apply wp_bind, wp_modify. apply wp_ret.
    assert (H2 : headersFirst H (updateCamera i (setSent k true) s1)).
    { apply headersFirst_updateCamera; [|exact H1]. intros cs0. apply headerItems_setSent. }
    destruct k; exact H2.
  - intros s0 Hs. apply headersFirst_new. exact Hs.
Qed.

(** The codec headers of a constructed camera state are the stream headers
    its compressors wrote, taken out of the files, which are left empty. *)
Lemma created_headers (bus : list Camera) :
  forall sections,
    Forall (fun cs => headerItems (startStreaming cs)
                      = codecHeaderItems (camera (startStreaming cs)) /\
                      file (color cs) = [] /\ file (depth cs) = [])
           (created sections bus).
Proof.
  induction sections as [|sec rest IH]; [constructor|].
  unfold created. cbn [flat_map]. fold (created rest bus).
  destruct (cfgSerialNumber sec) as [serial|]; [|exact IH].
  destruct (findDevice serial bus) as [device|]; [|exact IH].
  cbn [app]. constructor; [|exact IH].
  unfold configure, configureBackground, headerItems, codecHeaderItems. cbn.
  destruct (cfgRemoveBackground sec); [|repeat split].
  destruct (String.eqb (cfgBackgroundFile sec) String.EmptyString),
           (cfgCaptureBackgroundFrames sec >? 0), (cfgMaxDepth sec >? 0); repeat split.
Qed.

Lemma constructed_streamHeaders port sections bus s0 :
  newKinectServer port sections bus = inr s0 ->
  clients s0 = [] /\
  streamHeaders s0
  = [U32 305419896; U32 (Z.of_nat (numCameras s0))]
    ++ flat_map (fun cs => codecHeaderItems (camera cs)) (cameraStates s0) ++ [Flush].
Proof.
  unfold newKinectServer.
  destruct (createCameraStates_result bus sections [] []) as [(Hall & ->)|(Hex & ->)];
    [|discriminate].
  intros Hs. inversion Hs; subst s0; clear Hs. split; [reflexivity|].
  unfold streamHeaders. cbn [cameraStates app]. do 3 f_equal.
  pose proof (created_headers bus sections) as Hc.
  induction (created sections bus) as [|cs l IHl]; [reflexivity|].
  inversion Hc as [|? ? (Hcs & _) Hl]; subst.
  cbn [map flat_map]. rewrite Hcs, (IHl Hl). reflexivity.
Qed.

(** C3.  Run the streaming thread of a constructed server for any number
    of meta-frames against any schedule of camera callbacks, connections and
    peers.  The run has defined behaviour, and every client in the vector
    at its end has on its wire the magic number, the number of cameras,
    then for each camera, once and in index order, the stream headers its
    color and depth compressors wrote at construction and its parameters,
    then a flush, and after that nothing but frame records: each codec
    header is written once, before any frame. *)
Theorem headers_precede_frames (port : Z) (sections : list CameraSection)
    (bus : list Camera) (s0 : KinectServer) (sched : list (list EnvEvent))
    (metaFrames fuel : nat) :
  newKinectServer port sections bus = inr s0 ->
  let run := streamingThreadMethod metaFrames fuel (setSchedule sched s0) in
  run <> Undefined /\
  forall c, In c (clients (stateOf run)) ->
    exists frs,
      outgoing c
      = [U32 305419896; U32 (Z.of_nat (numCameras s0))]
        ++ flat_map (fun cs => codecHeaderItems (camera cs)) (cameraStates s0)
        ++ [Flush] ++ frameRecords frs.
Proof.
  intros Hnew run.
  destruct (constructed_streamHeaders port sections bus s0 Hnew) as (Hcl & Hh).
  assert (H0 : headersFirst (streamHeaders s0) (setSchedule sched s0)).
  { split; [reflexivity|]. cbn [clients setSchedule]. rewrite Hcl. intros c []. }
  pose proof (headersFirst_thread _ metaFrames fuel _ H0) as Hrun.
  unfold wp in Hrun. fold run in Hrun.
  destruct run as [u s'|e s'|]; [| |contradiction].
  - split; [discriminate|]. intros c Hc. destruct Hrun as (_ & Hrun).
    destruct (Hrun c Hc) as (frs & Hout). exists frs.
    rewrite Hout, Hh, <- !app_assoc. reflexivity.
  - split; [discriminate|]. intros c Hc. destruct Hrun as (_ & Hrun).
    destruct (Hrun c Hc) as (frs & Hout). exists frs.
    rewrite Hout, Hh, <- !app_assoc. reflexivity.
Qed.

Lemma headers_precede_frames_witness :
  let run := streamingThreadMethod 1 2 camera1First in
  run <> Undefined /\
  forall c, In c (clients (stateOf run)) ->
    exists frs,
      outgoing c
      = [U32 305419896; U32 (Z.of_nat (numCameras twoCameras))]
        ++ flat_map (fun cs => codecHeaderItems (camera cs)) (cameraStates twoCameras)
        ++ [Flush] ++ frameRecords frs.
Proof.
  apply (headers_precede_frames 26000
           [sampleSection SampleNames.serialA; sampleSection SampleNames.serialB]
           [sampleKinect SampleNames.serialB; sampleKinect SampleNames.serialA]
           twoCameras
           [[Connection []; ColorFrame 1 (sampleFrame 5)]; []; []; [];
            [ColorFrame 0 (sampleFrame 6)]] 1 2).
  vm_compute. reflexivity.
Defined.

(** ** One meta-frame *)

Lemma flags_updateCamera k i f s :
  (forall cs, hasSentFrame (stream k (f cs)) = hasSentFrame (stream k cs)) ->
  flags k (cameraStates (updateCamera i f s)) = flags k (cameraStates s).
Proof.
  intros Hf. unfold updateCamera, flags.
  destruct (nth_error (cameraStates s) i) as [cs|] eqn:E; [|reflexivity].
  simpl. apply (map_replace _ _ _ _ cs E). apply Hf.
Qed.

Lemma flags_setSent k i s cs :
  nth_error (cameraStates s) i = Some cs ->
  flags k (cameraStates (updateCamera i (setSent k true) s))
  = replace i true (flags k (cameraStates s)).
Proof.
  intros E. unfold updateCamera, flags. rewrite E. simpl.
  destruct (nth_error_split_at _ _ _ E) as (pre & post & Hl & Hlen).
  rewrite Hl. rewrite <- Hlen at 1. rewrite replace_middle.
  rewrite !map_app. simpl.
  rewrite <- Hlen, <- (length_map (fun cs0 => hasSentFrame (stream k cs0)) pre).
  rewrite replace_middle. destruct k; reflexivity.
Qed.

Lemma flags_setSent_other k k' i b s :
  k <> k' -> flags k (cameraStates (updateCamera i (setSent k' b) s))
             = flags k (cameraStates s).
Proof.
  intros Hne. apply flags_updateCamera. intros cs.
  unfold setSent. rewrite stream_setStream_other by exact Hne. reflexivity.
Qed.

Lemma unsent_le k cams : (unsent k cams <= length cams)%nat.
Proof.
  unfold unsent. rewrite <- (length_map (fun cs => hasSentFrame (stream k cs)) cams).
  apply filter_length_le.
Qed.

(** Setting a flag that was not set leaves one unset flag less. *)
Lemma unset_flags_replace (l : list bool) (i : nat) :
  nth_error l i = Some false ->
  length (filter negb l) = S (length (filter negb (replace i true l))).
Proof.
  intros E. destruct (nth_error_split_at _ _ _ E) as (pre & post & -> & <-).
  rewrite replace_middle, !filter_app, !length_app. simpl. lia.
Qed.

Lemma all_flags_set (l : list bool) :
  length (filter negb l) = 0%nat -> forall i, (i < length l)%nat -> nth_error l i = Some true.
Proof.
  induction l as [|b l IH]; simpl; intros H i Hi; [lia|].
  destruct b; simpl in H; [|discriminate].
  destruct i; [reflexivity|]. simpl. apply IH; [exact H|lia].
Qed.

Lemma NoDup_snoc {A} (l : list A) (x : A) : NoDup l -> ~ In x l -> NoDup (l ++ [x]).
Proof.
  induction l as [|a l IH]; simpl; intros Hnd Hx; [repeat constructor; auto|].
  inversion Hnd; subst. constructor.
  - intros Hin. apply in_app_or in Hin. destruct Hin as [Hin|[->|[]]]; tauto.
  - apply IH; tauto.
Qed.

Lemma sweep_done_length (m fid : Z) (d : Blob) :
  forall cl s, sweep m fid d cl = Done s -> (length (fClients s) <= length cl)%nat.
Proof.
  induction cl as [|c0 rest IH]; intros s Hs.
  - simpl in Hs. inversion Hs; subst. simpl. lia.
  - destruct (sweep_cases m fid d c0 rest) as [(Hv & Heq)|[(Hv & Hv' & Heq)|(Hv & Heq)]];
      rewrite Heq in Hs; try discriminate;
      destruct (sweep m fid d rest) as [s0| | |]; try discriminate;
      simpl in Hs; inversion Hs; subst s; simpl; specialize (IH s0 eq_refl); lia.
Qed.

(** *** The bound on the number of clients *)

Lemma applyEnv_schedule s e : schedule (applyEnv s e) = schedule s.
Proof.
  destruct e as [i fr|i fr|flt|sock v].
  - unfold applyEnv, updateCamera. destruct (nth_error (cameraStates s) i); reflexivity.
  - unfold applyEnv, updateCamera. destruct (nth_error (cameraStates s) i); reflexivity.
  - unfold applyEnv.
    destruct (listeningRound_accepted flt s) as (sock & _ & [(_ & ->)|(_ & [->| ->])]);
      reflexivity.
  - reflexivity.
Qed.

Lemma applyEnv_clients_length s e :
  (length (clients (applyEnv s e)) <= length (clients s) + connectionsIn [e])%nat.
Proof.
  destruct e as [i fr|i fr|flt|sock v].
  - unfold applyEnv, updateCamera. destruct (nth_error (cameraStates s) i); simpl; lia.
  - unfold applyEnv, updateCamera. destruct (nth_error (cameraStates s) i); simpl; lia.
  - unfold applyEnv.
    destruct (listeningRound_accepted flt s) as (sock & _ & [(_ & ->)|(_ & [->| ->])]);
      unfold connectionsIn; cbn [filter length clients setClients setNextSock];
      rewrite ?length_app; cbn [length]; lia.
  - cbn [applyEnv clients setClients]. rewrite length_map. lia.
Qed.

Lemma batch_clients_length :
  forall batch s,
    schedule (fold_left applyEnv batch s) = schedule s /\
    (length (clients (fold_left applyEnv batch s))
     <= length (clients s) + connectionsIn batch)%nat.
Proof.
  induction batch as [|e batch IH]; intros s; [simpl; split; [reflexivity|lia]|].
  cbn [fold_left]. destruct (IH (applyEnv s e)) as (H1 & H2).
  rewrite H1, applyEnv_schedule. split; [reflexivity|].
  pose proof (applyEnv_clients_length s e) as H3.
  assert (H4 : connectionsIn (e :: batch) = (connectionsIn [e] + connectionsIn batch)%nat).
  { unfold connectionsIn. simpl. destruct e; simpl; reflexivity. }
  lia.
Qed.

Lemma clientsBounded_observed s : clientsBounded s -> clientsBounded (observed s).
Proof.
  unfold clientsBounded, observed. intros H.
  destruct (schedule s) as [|batch rest] eqn:Es; [rewrite Es; exact H|].
  destruct (batch_clients_length batch (setSchedule rest s)) as (H1 & H2).
  rewrite H1. cbn [schedule setSchedule clients] in *. simpl in H. lia.
Qed.

(** *** What keeps the bookkeeping of a meta-frame intact *)

Lemma updateCamera_rest i f s :
  metaFrameIndex (updateCamera i f s) = metaFrameIndex s /\
  numMissingColorFrames (updateCamera i f s) = numMissingColorFrames s /\
  numMissingDepthFrames (updateCamera i f s) = numMissingDepthFrames s /\
  nextSock (updateCamera i f s) = nextSock s /\
  clients (updateCamera i f s) = clients s /\
  schedule (updateCamera i f s) = schedule s.
Proof. unfold updateCamera. destruct (nth_error (cameraStates s) i); repeat split. Qed.

(** A step that keeps the meta-frame index, the flags and the counters,
    hands out no old pipe address again and writes nothing to the clients
    keeps the bookkeeping. *)
Lemma assemblingCore_transfer M p o s s' :
  metaFrameIndex s' = metaFrameIndex s ->
  flags Color (cameraStates s') = flags Color (cameraStates s) ->
  flags Depth (cameraStates s') = flags Depth (cameraStates s) ->
  numMissingColorFrames s' = numMissingColorFrames s ->
  numMissingDepthFrames s' = numMissingDepthFrames s ->
  (nextSock s <= nextSock s')%nat ->
  (forall c', In c' (clients s') -> sockId c' = p ->
     exists c, In c (clients s) /\ sockId c = p /\ outgoing c' = outgoing c) ->
  assemblingCore M p o s -> assemblingCore M p o s'.
Proof.
  intros Hm Hfc Hfd Hnc Hnd Hns Hcl (A1 & A2 & A3 & A4 & A5 & A6).
  unfold assemblingCore, unsent, sent, numCameras in *.
  rewrite Hm, Hnc, Hnd, Hfc, Hfd.
  assert (Hlen : length (cameraStates s') = length (cameraStates s)).
  { rewrite <- (length_map (fun cs => hasSentFrame (stream Color cs)) (cameraStates s')).
    fold (flags Color (cameraStates s')). rewrite Hfc. unfold flags. apply length_map. }
  rewrite Hlen. repeat (split; [assumption || lia|]).
  intros c' Hin Hid. destruct (Hcl c' Hin Hid) as (c & Hc & Hcid & Hout).
  destruct (A6 c Hc Hcid) as (ds & D1 & D2 & D3).
  exists ds. rewrite Hout. split; [exact D1|]. split; [exact D2|].
  intros i k. rewrite D3. destruct k; [rewrite Hfc|rewrite Hfd]; reflexivity.
Qed.

Lemma hasSent_callback k k' fr cs :
  hasSentFrame (stream k (setStream k' (streamingCallback fr (stream k' cs)) cs))
  = hasSentFrame (stream k cs).
Proof. destruct k, k'; reflexivity. Qed.

Lemma hasSent_setLocked k k' tb cs :
  hasSentFrame (stream k (setLocked k' tb cs)) = hasSentFrame (stream k cs).
Proof. destruct k, k'; reflexivity. Qed.

Lemma assemblingCore_updateCamera M p o i f s :
  (forall k cs, hasSentFrame (stream k (f cs)) = hasSentFrame (stream k cs)) ->
  assemblingCore M p o s -> assemblingCore M p o (updateCamera i f s).
Proof.
  intros Hf. destruct (updateCamera_rest i f s) as (R1 & R2 & R3 & R4 & R5 & R6).
  apply assemblingCore_transfer; try assumption.
  - apply flags_updateCamera. apply Hf.
  - apply flags_updateCamera. apply Hf.
  - lia.
  - rewrite R5. intros c' Hin Hid. exists c'. auto.
Qed.

Lemma assemblingCore_applyEnv M p o s e :
  assemblingCore M p o s -> assemblingCore M p o (applyEnv s e).
Proof.
  intros Hs. destruct e as [i fr|i fr|flt|sock v].
  - apply assemblingCore_updateCamera; [|exact Hs].
    intros k cs. apply (hasSent_callback k Color).
  - apply assemblingCore_updateCamera; [|exact Hs].
    intros k cs. apply (hasSent_callback k Depth).
  - assert (Hp : (p < nextSock s)%nat) by (destruct Hs as (_ & _ & _ & _ & Hp & _); exact Hp).
    unfold applyEnv.
    destruct (listeningRound_outcome s flt) as [(_ & ->)|(n & e & _ & _ & _ & Hr)].
    + apply (assemblingCore_transfer M p o s); try reflexivity; [cbn [nextSock setClients setNextSock]; lia| |exact Hs].
      cbn [clients setClients]. intros c' Hin Hid.
      apply in_app_or in Hin. destruct Hin as [Hin|[<-|[]]].
      * exists c'. auto.
      * simpl in Hid. lia.
    + rewrite Hr. destruct e;
        (apply (assemblingCore_transfer M p o s); try reflexivity; [cbn [nextSock setClients setNextSock]; lia| |exact Hs];
         cbn [clients setClients]; intros c' Hin Hid; exists c'; auto).
  - apply (assemblingCore_transfer M p o s); try reflexivity; [|exact Hs].
    cbn [applyEnv clients setClients]. intros c' Hin Hid.
    apply in_map_iff in Hin. destruct Hin as (c & <- & Hin).
    exists c. unfold deliverWord in *.
    destruct (Nat.eqb (sockId c) sock); simpl in *; auto.
Qed.

Lemma assembling_observed M p o s : assembling M p o s -> assembling M p o (observed s).
Proof.
  intros (Hb & Hc). split; [apply clientsBounded_observed; exact Hb|].
  apply (observed_invariant (assemblingCore M p o)); [| |exact Hc].
  - intros s0 sch H. exact H.
  - intros s0 e H. apply assemblingCore_applyEnv. exact H.
Qed.

Lemma assembling_locked M p o s i k tb :
  assembling M p o s -> assembling M p o (updateCamera i (setLocked k tb) s).
Proof.
  intros (Hb & Hc). split.
  - unfold clientsBounded in *.
    destruct (updateCamera_rest i (setLocked k tb) s) as (_ & _ & _ & _ & -> & ->). exact Hb.
  - apply assemblingCore_updateCamera; [|exact Hc].
    intros k' cs. apply hasSent_setLocked.
Qed.

Lemma nth_error_flags k cams i cs :
  nth_error cams i = Some cs -> nth_error (flags k cams) i = Some (hasSentFrame (stream k cs)).
Proof. intros E. unfold flags. rewrite nth_error_map, E. reflexivity. Qed.

Lemma deliveryRecords_snoc M ds i k d :
  deliveryRecords M (ds ++ [(i, k, d)])
  = deliveryRecords M ds ++ frameRecord M (frameId i k) d.
Proof.
  unfold deliveryRecords. rewrite flat_map_app. simpl. rewrite ?app_nil_r. reflexivity.
Qed.

Lemma Kind_eq_dec (k k' : Kind) : {k = k'} + {k <> k'}.
Proof. decide equality. Qed.

(** The fan-out of a frame whose flag is not set, followed by setting the
    flag and decrementing the counter, keeps the bookkeeping: the clients
    that stay get the frame just when its flag is set. *)
Lemma assembling_deliver M p o s i k f cs :
  assembling M p o s ->
  nth_error (cameraStates s) i = Some cs -> hasSentFrame (stream k cs) = false ->
  wp (bind (sendToClients i k f) (fun _ =>
      bind (modify (updateCamera i (setSent k true))) (fun _ =>
      bind (modify (fun s => setNumMissingFrames k (wrap32 (numMissingFrames k s - 1)) s))
           (fun _ => ret true))))
     (fun _ s' => assembling M p o s') (fun _ _ => True) s.
Proof.
  intros (Hb & A1 & A2 & A3 & A4 & A5 & A6) Ecs Eflag.
  unfold wp, bind.
  destruct (sendToClients_cases i k f s) as (fo & Hfo & [(Hdone & ->)|(e & _ & ->)]);
    [|exact I].
  unfold modify, ret.
  assert (Hlen : Z.of_nat (length (clients s)) < 2 ^ 32)
    by (unfold clientsBounded in Hb; lia).
  rewrite fanOut_sweep in Hdone by exact Hlen.
  set (s1 := setClients (fClients fo) (closed s ++ fClosed fo) s).
  set (s2 := updateCamera i (setSent k true) s1).
  destruct (updateCamera_rest i (setSent k true) s1) as (R1 & R2 & R3 & R4 & R5 & R6).
  fold s2 in R1, R2, R3, R4, R5, R6.
  assert (F1 : flags k (cameraStates s2) = replace i true (flags k (cameraStates s)))
    by (apply (flags_setSent k i s1 cs); exact Ecs).
  assert (F2 : forall k', k' <> k -> flags k' (cameraStates s2) = flags k' (cameraStates s))
    by (intros k' Hne; apply (flags_setSent_other k' k i true s1 Hne)).
  assert (F3 : nth_error (flags k (cameraStates s)) i = Some false)
    by (rewrite (nth_error_flags k _ _ _ Ecs), Eflag; reflexivity).
  assert (F4 : unsent k (cameraStates s) = S (unsent k (cameraStates s2)))
    by (unfold unsent; rewrite F1; apply unset_flags_replace; exact F3).
  assert (Hn2 : numCameras s2 = numCameras s)
    by (unfold s2, numCameras; rewrite updateCamera_length; reflexivity).
  pose proof (unsent_le k (cameraStates s2)) as Hle. fold (numCameras s2) in Hle.
  set (s3 := setNumMissingFrames k (wrap32 (numMissingFrames k s2 - 1)) s2).
  assert (Hs3 : metaFrameIndex s3 = metaFrameIndex s /\
                cameraStates s3 = cameraStates s2 /\
                nextSock s3 = nextSock s /\ clients s3 = fClients fo /\
                schedule s3 = schedule s).
  { unfold s3. destruct k; cbn; rewrite ?R1, ?R4, ?R5, ?R6; repeat split. }
  destruct Hs3 as (S1 & S2 & S3 & S4 & S5).
  split.
  - unfold clientsBounded in *. rewrite S4, S5.
    pose proof (sweep_done_length _ _ _ _ _ Hdone). lia.
  - unfold assemblingCore. rewrite S1, S3. unfold numCameras at 1. rewrite S2.
    fold (numCameras s2). rewrite Hn2.
    split; [exact A1|]. split; [exact A2|].
    assert (Hdec : wrap32 (Z.of_nat (unsent k (cameraStates s)) - 1)
                   = Z.of_nat (unsent k (cameraStates s2))).
    { rewrite F4. rewrite wrap32_small; lia. }
    split; [|split; [|split; [exact A5|]]].
    + unfold s3. destruct k; cbn [numMissingColorFrames setNumMissingFrames].
      * cbn [numMissingFrames]. rewrite R2, <- Hdec. f_equal.
        cbn [numMissingColorFrames setClients s1]. rewrite A3. reflexivity.
      * rewrite R2. cbn [numMissingColorFrames setClients s1]. rewrite A3.
        unfold unsent. rewrite (F2 Color) by discriminate. reflexivity.
    + unfold s3. destruct k; cbn [numMissingDepthFrames setNumMissingFrames].
      * rewrite R3. cbn [numMissingDepthFrames setClients s1]. rewrite A4.
        unfold unsent. rewrite (F2 Depth) by discriminate. reflexivity.
      * cbn [numMissingFrames]. rewrite R3, <- Hdec. f_equal.
        cbn [numMissingDepthFrames setClients s1]. rewrite A4. reflexivity.
    + intros c' Hin Hid. rewrite S4 in Hin.
      destruct (sweep_done_kept _ _ _ _ _ Hdone c' Hin) as (c & Hc & Hsc).
      destruct (serveClient_kept _ _ _ _ _ Hsc) as (_ & _ & ->).
      simpl in Hid.
      destruct (A6 c Hc Hid) as (ds & D1 & D2 & D3).
      assert (Hnew : ~ In (i, k) (map fst ds)).
      { rewrite D3. unfold sent. rewrite F3. discriminate. }
      exists (ds ++ [(i, k, data f)]).
      split; [|split].
      * unfold afterWriting. cbn [outgoing]. rewrite D1, deliveryRecords_snoc, A1.
        rewrite <- app_assoc. reflexivity.
      * rewrite map_app. apply NoDup_snoc; assumption.
      * intros i' k'. rewrite map_app, in_app_iff, D3. unfold sent. rewrite S2.
        destruct (Kind_eq_dec k' k) as [->|Hne].
        -- rewrite F1. rewrite nth_error_replace
             by (apply nth_error_Some; rewrite F3; discriminate).
           destruct (Nat.eqb i i') eqn:Ei.
           ++ apply Nat.eqb_eq in Ei. subst i'. simpl. tauto.
           ++ apply Nat.eqb_neq in Ei. simpl. split; [intros [H|[H|[]]]; [exact H|]|tauto].
              inversion H. contradiction.
        -- rewrite (F2 k' Hne). simpl. split; [intros [H|[H|[]]]; [exact H|]|tauto].
           inversion H. subst. contradiction.
Qed.

Lemma steady_collectFrames M N fuel s :
  steady M N s ->
  wp (collectFrames fuel) (fun _ s' => steady M N s') (fun _ _ => True) s.
Proof.
  apply (collectFrames_invariant (steady M N) (fun _ _ => True)).
  - intros s0 (H1 & H2 & H3 & H4).
    apply (observed_invariant (steady M N)); [| |repeat split; assumption].
    + intros s1 sch H. exact H.
    + intros s1 e (K1 & K2 & K3 & K4). unfold steady.
      rewrite applyEnv_numCameras.
      destruct e as [i fr|i fr|flt|sock v]; cbn [applyEnv].
      * destruct (updateCamera_rest i (colorStreamingCallback fr) s1) as (-> & -> & -> & _).
        auto.
      * destruct (updateCamera_rest i (depthStreamingCallback fr) s1) as (-> & -> & -> & _).
        auto.
      * unfold applyEnv.
        destruct (listeningRound_accepted flt s1) as (sock & _ & [(_ & ->)|(_ & [->| ->])]);
          auto.
      * auto.
  - intros s0 e H. exact H.
  - intros s0 i k tb (K1 & K2 & K3 & K4). unfold steady, numCameras.
    rewrite updateCamera_length.
    destruct (updateCamera_rest i (setLocked k tb) s0) as (-> & -> & -> & _). auto.
  - intros s0 i k f cs (K1 & K2 & K3 & K4) _ _. unfold wp, bind.
    destruct (sendToClients_cases i k f s0) as (fo & _ & [(_ & ->)|(e & _ & ->)]);
      [|exact I].
    unfold modify, ret, steady, numCameras.
    set (s1 := setClients _ _ s0).
    destruct (updateCamera_rest i (setSent k true) s1) as (R1 & R2 & R3 & _).
    pose proof (wrap32_range (numMissingFrames k (updateCamera i (setSent k true) s1) - 1)).
    destruct k; cbn [metaFrameIndex cameraStates numMissingColorFrames
                     numMissingDepthFrames setNumMissingFrames];
      rewrite updateCamera_length, ?R1, ?R2, ?R3; repeat split; auto; lia.
Qed.

(** The loop is left only with both counters at 0 or below. *)
Lemma collectFrames_complete :
  forall fuel s s', collectFrames fuel s = Ok true s' ->
    numMissingColorFrames s' <= 0 /\ numMissingDepthFrames s' <= 0.
Proof.
  induction fuel as [|fuel IH]; intros s s' H; [discriminate|].
  cbn [collectFrames] in H.
  destruct ((numMissingDepthFrames s >? 0) || (numMissingColorFrames s >? 0)) eqn:Ec.
  - unfold bind in H. destruct (findNextFrame s) as [b s1|e s1|]; try discriminate.
    destruct b; [exact (IH _ _ H)|]. unfold wait, modify in H. exact (IH _ _ H).
  - inversion H; subst s'. apply orb_false_iff in Ec. destruct Ec as (E1 & E2).
    rewrite Z.gtb_ltb in E1, E2. apply Z.ltb_ge in E1, E2. split; assumption.
Qed.

Lemma all_false_unset (l : list bool) :
  Forall (fun b => b = false) l -> length (filter negb l) = length l.
Proof. induction 1 as [|b l Hb _ IH]; [reflexivity|]. subst b. simpl. rewrite IH. reflexivity. Qed.

Lemma all_false_none_set (l : list bool) (i : nat) :
  Forall (fun b => b = false) l -> nth_error l i <> Some true.
Proof.
  intros H E. apply nth_error_In in E. rewrite Forall_forall in H.
  specialize (H true E). discriminate.
Qed.

Lemma NoDup_map_eq {A B} (f : A -> B) (l : list A) (x y : A) :
  NoDup (map f l) -> In x l -> In y l -> f x = f y -> x = y.
Proof.
  induction l as [|a l IH]; simpl; intros Hnd Hx Hy Hf; [destruct Hx|].
  inversion Hnd as [|? ? Hn Hnd']; subst.
  destruct Hx as [->|Hx], Hy as [->|Hy]; auto.
  - exfalso. apply Hn. rewrite Hf. apply in_map. exact Hy.
  - exfalso. apply Hn. rewrite <- Hf. apply in_map. exact Hx.
Qed.

Lemma flags_length k cams : length (flags k cams) = length cams.
Proof. unfold flags. apply length_map. Qed.

Lemma fresh_assembling s c :
  freshMetaFrame s -> clientsBounded s -> socketsAllocated s ->
  NoDup (map sockId (clients s)) -> In c (clients s) ->
  assembling (metaFrameIndex s) (sockId c) (outgoing c) s.
Proof.
  intros (F1 & F2 & F3 & F4 & F5) Hb Halloc Hnd Hc.
  split; [exact Hb|]. unfold assemblingCore, unsent.
  rewrite (all_false_unset _ F2), (all_false_unset _ F3), !flags_length.
  split; [reflexivity|]. split; [exact F1|]. split; [exact F4|]. split; [exact F5|].
  split; [apply Halloc; exact Hc|].
  intros c0 Hc0 Hid. exists []. simpl. rewrite app_nil_r.
  rewrite (NoDup_map_eq sockId _ _ _ Hnd Hc0 Hc Hid).
  split; [reflexivity|]. split; [constructor|].
  intros i k. split; [intros []|].
  unfold sent. intros E. exfalso. destruct k.
  - exact (all_false_none_set _ i F2 E).
  - exact (all_false_none_set _ i F3 E).
Qed.

Lemma assembling_collectFrames M p o fuel s :
  assembling M p o s ->
  wp (collectFrames fuel) (fun _ s' => assembling M p o s') (fun _ _ => True) s.
Proof.
  apply (collectFrames_invariant (assembling M p o) (fun _ _ => True)).
  - intros s0 H. apply assembling_observed. exact H.
  - intros s0 e H. exact H.
  - intros s0 i k tb H. apply assembling_locked. exact H.
  - intros s0 i k f cs H Ecs Ef. apply (assembling_deliver M p o s0 i k f cs H Ecs Ef).
Qed.

Lemma resetSent_flags k cams :
  Forall (fun b => b = false) (flags k (map resetSent cams)).
Proof.
  unfold flags. rewrite map_map. apply Forall_forall. intros b Hb.
  apply in_map_iff in Hb. destruct Hb as (cs & <- & _). destruct k; reflexivity.
Qed.

(** C2.  Let a meta-frame begin (no flag set, both counters at the number
    of cameras) and let the loop that assembles it be left.  Then the
    meta-frame index is still the same and both counters are 0, every client
    that was in the vector when the meta-frame began and is in it now has
    received, since then, exactly one frame record for each camera and kind,
    all of them tagged with this meta-frame's index, and nothing else; only
    then is the meta-frame index incremented and are the flags and counters
    reset, which begins the next meta-frame. *)
Theorem metaframe_delivers_each_frame_once (fuel : nat) (s s' : KinectServer) :
  freshMetaFrame s -> clientsBounded s -> socketsAllocated s ->
  NoDup (map sockId (clients s)) ->
  collectFrames fuel s = Ok true s' ->
  metaFrameIndex s' = metaFrameIndex s /\
  numMissingColorFrames s' = 0 /\ numMissingDepthFrames s' = 0 /\
  (forall c c', In c (clients s) -> In c' (clients s') -> sockId c' = sockId c ->
     exists ds,
       outgoing c' = outgoing c ++ deliveryRecords (metaFrameIndex s) ds /\
       NoDup (map fst ds) /\
       forall i k, In (i, k) (map fst ds) <-> (i < numCameras s)%nat) /\
  exists s'',
    startNewMetaFrame s' = Ok tt s'' /\
    metaFrameIndex s'' = wrap32 (metaFrameIndex s + 1) /\
    freshMetaFrame s''.
Proof.
  intros Hfresh Hb Halloc Hnd Hrun.
  assert (Hst : steady (metaFrameIndex s) (numCameras s) s).
  { destruct Hfresh as (_ & _ & _ & F4 & F5). unfold steady. rewrite F4, F5.
    repeat split; lia. }
  pose proof (wp_elim_ok _ _ _ _ _ _ (steady_collectFrames _ _ fuel s Hst) Hrun)
    as (T1 & T2 & T3 & T4).
  destruct (collectFrames_complete fuel s s' Hrun) as (C1 & C2).
  assert (Z1 : numMissingColorFrames s' = 0) by lia.
  assert (Z2 : numMissingDepthFrames s' = 0) by lia.
  split; [exact T1|]. split; [exact Z1|]. split; [exact Z2|]. split.
  - intros c c' Hc Hc' Hid.
    pose proof (fresh_assembling s c Hfresh Hb Halloc Hnd Hc) as Ha.
    pose proof (wp_elim_ok _ _ _ _ _ _ (assembling_collectFrames _ _ _ fuel s Ha) Hrun)
      as (_ & A1 & A2 & A3 & A4 & A5 & A6).
    destruct (A6 c' Hc' Hid) as (ds & D1 & D2 & D3).
    exists ds. split; [exact D1|]. split; [exact D2|].
    intros i k. rewrite D3. unfold sent.
    assert (Hall : length (filter negb (flags k (cameraStates s'))) = 0%nat).
    { unfold unsent in A3, A4. destruct k; lia. }
    split.
    + intros E. rewrite <- T2. unfold numCameras.
      rewrite <- (flags_length k). apply nth_error_Some. rewrite E. discriminate.
    + intros Hi. apply all_flags_set; [exact Hall|].
      rewrite flags_length. fold (numCameras s'). lia.
  - eexists. split; [reflexivity|].
    split; [cbn; rewrite T1; reflexivity|].
    destruct Hfresh as (F1 & _).
    unfold freshMetaFrame, numCameras in *. cbn. rewrite !length_map.
    unfold numCameras in T2. rewrite T2.
    split; [exact F1|].
    split; [exact (resetSent_flags Color _)|]. split; [exact (resetSent_flags Depth _)|].
    split; reflexivity.
Qed.

Lemma metaframe_delivers_each_frame_once_witness :
  let s' := stateOf (collectFrames 2 oneClient) in
  metaFrameIndex s' = metaFrameIndex oneClient /\
  numMissingColorFrames s' = 0 /\ numMissingDepthFrames s' = 0 /\
  (forall c c', In c (clients oneClient) -> In c' (clients s') -> sockId c' = sockId c ->
     exists ds,
       outgoing c' = outgoing c ++ deliveryRecords (metaFrameIndex oneClient) ds /\
       NoDup (map fst ds) /\
       forall i k, In (i, k) (map fst ds) <-> (i < numCameras oneClient)%nat) /\
  exists s'',
    startNewMetaFrame s' = Ok tt s'' /\
    metaFrameIndex s'' = wrap32 (metaFrameIndex oneClient + 1) /\
    freshMetaFrame s''.
Proof.
  apply (metaframe_delivers_each_frame_once 2 oneClient).
  - unfold freshMetaFrame. split; [vm_compute; reflexivity|].
    split; [vm_compute; repeat constructor|].
    split; [vm_compute; repeat constructor|].
    split; vm_compute; reflexivity.
  - unfold clientsBounded. vm_compute. reflexivity.
  - intros c Hin.
    let l := eval vm_compute in (clients oneClient) in
    assert (Ecl : clients oneClient = l) by (vm_compute; reflexivity).
    rewrite Ecl in Hin.
    destruct Hin as [<-|[]]. vm_compute. repeat constructor.
  - vm_compute. repeat constructor. intros [].
  - vm_compute. reflexivity.
Defined.

(** ** Exceptions while a client is served *)












(** * Further properties *)

(** ** Pipes are neither lost nor duplicated *)











(** ** The counters of missing frames *)

Lemma countersMatch_transfer s s' :
  flags Color (cameraStates s') = flags Color (cameraStates s) ->
  flags Depth (cameraStates s') = flags Depth (cameraStates s) ->
  numMissingColorFrames s' = numMissingColorFrames s ->
  numMissingDepthFrames s' = numMissingDepthFrames s ->
  countersMatch s -> countersMatch s'.
Proof.
  intros Hfc Hfd Hnc Hnd (A1 & A2 & A3).
  unfold countersMatch, unsent, numCameras in *.
  rewrite Hnc, Hnd, Hfc, Hfd.
  rewrite <- (flags_length Color (cameraStates s')), Hfc, flags_length.
  auto.
Qed.

Lemma countersMatch_updateCamera i f s :
  (forall k cs, hasSentFrame (stream k (f cs)) = hasSentFrame (stream k cs)) ->
  countersMatch s -> countersMatch (updateCamera i f s).
Proof.
  intros Hf. destruct (updateCamera_rest i f s) as (_ & R2 & R3 & _).
  apply countersMatch_transfer; try assumption; apply flags_updateCamera; apply Hf.
Qed.

Lemma countersMatch_applyEnv s e : countersMatch s -> countersMatch (applyEnv s e).
Proof.
  intros Hs. destruct e as [i fr|i fr|flt|sock v].
  - apply countersMatch_updateCamera; [|exact Hs].
    intros k cs. apply (hasSent_callback k Color).
  - apply countersMatch_updateCamera; [|exact Hs].
    intros k cs. apply (hasSent_callback k Depth).
  - unfold applyEnv.
    destruct (listeningRound_accepted flt s) as (sock & _ & [(_ & ->)|(_ & [->| ->])]);
      exact Hs.
  - exact Hs.
Qed.

Lemma countersMatch_deliver s i k f cs :
  countersMatch s ->
  nth_error (cameraStates s) i = Some cs -> hasSentFrame (stream k cs) = false ->
  wp (bind (sendToClients i k f) (fun _ =>
      bind (modify (updateCamera i (setSent k true))) (fun _ =>
      bind (modify (fun s => setNumMissingFrames k (wrap32 (numMissingFrames k s - 1)) s))
           (fun _ => ret true))))
     (fun _ s' => countersMatch s') (fun _ s' => countersMatch s') s.
Proof.
  intros (A1 & A2 & A3) Ecs Eflag.
  unfold wp, bind.
  destruct (sendToClients_cases i k f s) as (fo & Hfo & [(Hdone & ->)|(e & _ & ->)]);
    [|repeat split; assumption].
  unfold modify, ret.
  set (s1 := setClients (fClients fo) (closed s ++ fClosed fo) s).
  set (s2 := updateCamera i (setSent k true) s1).
  destruct (updateCamera_rest i (setSent k true) s1) as (R1 & R2 & R3 & _).
  fold s2 in R1, R2, R3.
  assert (F1 : flags k (cameraStates s2) = replace i true (flags k (cameraStates s)))
    by (apply (flags_setSent k i s1 cs); exact Ecs).
  assert (F2 : forall k', k' <> k -> flags k' (cameraStates s2) = flags k' (cameraStates s))
    by (intros k' Hne; apply (flags_setSent_other k' k i true s1 Hne)).
  assert (F3 : nth_error (flags k (cameraStates s)) i = Some false)
    by (rewrite (nth_error_flags k _ _ _ Ecs), Eflag; reflexivity).
  assert (F4 : unsent k (cameraStates s) = S (unsent k (cameraStates s2)))
    by (unfold unsent; rewrite F1; apply unset_flags_replace; exact F3).
  assert (Hn2 : numCameras s2 = numCameras s)
    by (unfold s2, numCameras; rewrite updateCamera_length; reflexivity).
  pose proof (unsent_le k (cameraStates s2)) as Hle. fold (numCameras s2) in Hle.
  assert (Hdec : wrap32 (Z.of_nat (unsent k (cameraStates s)) - 1)
                 = Z.of_nat (unsent k (cameraStates s2))).
  { rewrite F4. rewrite wrap32_small; lia. }
  unfold countersMatch.
  split; [|split].
  - destruct k; change (Z.of_nat (numCameras s2) < 2 ^ 32); rewrite Hn2; exact A1.
  - destruct k; cbn [numMissingColorFrames cameraStates setNumMissingFrames numMissingFrames].
    + rewrite R2, <- Hdec. f_equal.
      cbn [numMissingColorFrames setClients s1]. rewrite A2. reflexivity.
    + rewrite R2. cbn [numMissingColorFrames setClients s1]. rewrite A2.
      unfold unsent. rewrite (F2 Color) by discriminate. reflexivity.
  - destruct k; cbn [numMissingDepthFrames cameraStates setNumMissingFrames numMissingFrames].
    + rewrite R3. cbn [numMissingDepthFrames setClients s1]. rewrite A3.
      unfold unsent. rewrite (F2 Depth) by discriminate. reflexivity.
    + rewrite R3, <- Hdec. f_equal.
      cbn [numMissingDepthFrames setClients s1]. rewrite A3. reflexivity.
Qed.

Lemma countersMatch_new s :
  countersMatch s ->
  wp startNewMetaFrame (fun _ s' => countersMatch s') (fun _ s' => countersMatch s') s.
Proof.
  intros (A1 & _ & _). unfold wp, startNewMetaFrame, countersMatch, unsent.
  cbn [record setNumMissingFrames setCameraStates setMetaFrameIndex numCameras cameraStates
       numMissingColorFrames numMissingDepthFrames].
  rewrite !(all_false_unset _ (resetSent_flags _ _)), !flags_length, !length_map.
  unfold numCameras.
  cbn [record setNumMissingFrames setCameraStates setMetaFrameIndex cameraStates].
  rewrite !length_map. auto.
Qed.

Lemma countersMatch_thread metaFrames fuel s :
  countersMatch s ->
  wp (streamingThreadMethod metaFrames fuel)
     (fun _ s' => countersMatch s') (fun _ s' => countersMatch s') s.
Proof.
  apply (streamingThreadMethod_invariant countersMatch (fun _ s' => countersMatch s')).
  - intros s0 Hs. apply observed_invariant; [| |exact Hs].
    + intros s1 sch H. exact H.
    + intros s1 e H. apply countersMatch_applyEnv. exact H.
  - intros s0 e H. exact H.
  - intros s0 i k tb H. apply countersMatch_updateCamera; [|exact H].
    intros k' cs. apply hasSent_setLocked.
  - apply countersMatch_deliver.
  - apply countersMatch_new.
Qed.

(** X3.  If each counter of missing frames equals the number of cameras
    whose flag of that kind is not set, this is still so after any run of
    the streaming thread against any schedule, whether the run returns or
    throws (a frame whose fan-out threw is neither flagged nor counted).
    So the decrements never take a counter below zero, and both counters
    stay between 0 and the number of cameras. *)
Theorem counters_count_unset_flags (metaFrames fuel : nat) (s : KinectServer) :
  countersMatch s ->
  let run := streamingThreadMethod metaFrames fuel s in
  run <> Undefined /\
  numCameras (stateOf run) = numCameras s /\
  forall k,
    numMissingFrames k (stateOf run) = Z.of_nat (unsent k (cameraStates (stateOf run))) /\
    0 <= numMissingFrames k (stateOf run) <= Z.of_nat (numCameras s).
Proof.
  intros Hs run.
  assert (Hn : forall s0, countersMatch s0 -> wp (streamingThreadMethod metaFrames fuel)
                 (fun _ s' => numCameras s' = numCameras s0)
                 (fun _ s' => numCameras s' = numCameras s0) s0).
  { intros s0 H0.
    apply (streamingThreadMethod_invariant (fun s' => numCameras s' = numCameras s0)
             (fun _ s' => numCameras s' = numCameras s0)).
    - intros s1 H. rewrite observed_numCameras. exact H.
    - intros s1 e H. exact H.
    - intros s1 i k tb H. unfold numCameras. rewrite updateCamera_length. exact H.
    - intros s1 i k f cs H _ _. unfold wp, bind.
      destruct (sendToClients_cases i k f s1) as (fo & _ & [(_ & ->)|(e & _ & ->)]);
        [|exact H].
      unfold modify, ret, numCameras.
      destruct k; cbn [cameraStates setNumMissingFrames];
        rewrite updateCamera_length; exact H.
    - intros s1 H. unfold wp, startNewMetaFrame, numCameras.
      cbn [record setNumMissingFrames setCameraStates cameraStates].
      rewrite length_map. exact H.
    - reflexivity. }
  pose proof (wp_and _ _ _ _ _ _ (countersMatch_thread metaFrames fuel s Hs) (Hn s Hs)) as H.
  unfold wp in H. fold run in H.
  assert (Hgoal : forall s', countersMatch s' /\ numCameras s' = numCameras s ->
            numCameras s' = numCameras s /\
            forall k,
              numMissingFrames k s' = Z.of_nat (unsent k (cameraStates s')) /\
              0 <= numMissingFrames k s' <= Z.of_nat (numCameras s)).
  { intros s' ((B1 & B2 & B3) & Hn'). split; [exact Hn'|]. intros k.
    pose proof (unsent_le k (cameraStates s')) as Hle.
    fold (numCameras s') in Hle. rewrite Hn' in Hle.
    destruct k; cbn [numMissingFrames]; [rewrite B2|rewrite B3]; split; try reflexivity; lia. }
  destruct run as [u s'|e s'|]; [| |contradiction].
  - split; [discriminate|]. apply Hgoal. exact H.
  - split; [discriminate|]. apply Hgoal. exact H.
Qed.

Lemma counters_count_unset_flags_witness :
  let run := streamingThreadMethod 1 2 (failingClient OtherExn) in
  run <> Undefined /\
  numCameras (stateOf run) = numCameras (failingClient OtherExn) /\
  forall k,
    numMissingFrames k (stateOf run) = Z.of_nat (unsent k (cameraStates (stateOf run))) /\
    0 <= numMissingFrames k (stateOf run) <= Z.of_nat (numCameras (failingClient OtherExn)).
Proof.
  apply (counters_count_unset_flags 1 2 (failingClient OtherExn)).
  unfold countersMatch.
  split; [|split]; vm_compute; reflexivity.
Defined.

(** ** Invariants that depend on what is recorded *)

Section HistoryInvariant.

(** As in [ThreadInvariant], with the record of a fan-out as a part of the
    block that delivers the frame. *)
Variable I : KinectServer -> Prop.
Variable E : Exn -> KinectServer -> Prop.

Hypothesis I_observed : forall s, I s -> I (observed s).
Hypothesis I_examined : forall s i, I s -> I (record (Examined i) s).
Hypothesis I_waited : forall s, I s -> I (record Waited s).
Hypothesis I_locked : forall s i k tb, I s -> I (updateCamera i (setLocked k tb) s).
Hypothesis I_broadcast : forall s i k f cs,
  I s -> nth_error (cameraStates s) i = Some cs -> hasSentFrame (stream k cs) = false ->
  wp (bind (modify (record (Broadcast (metaFrameIndex s) i k f))) (fun _ =>
      bind (sendToClients i k f) (fun _ =>
      bind (modify (updateCamera i (setSent k true))) (fun _ =>
      bind (modify (fun s => setNumMissingFrames k (wrap32 (numMissingFrames k s - 1)) s))
           (fun _ => ret true)))))
     (fun _ s' => I s') E s.
Hypothesis I_new : forall s, I s -> wp startNewMetaFrame (fun _ s' => I s') E s.

Lemma sendIfNew_recorded i k s :
  (i < numCameras s)%nat -> I s ->
  wp (sendIfNew i k) (fun _ s' => I s') E s.
Proof.
  intros Hi Hs. unfold sendIfNew. apply wp_bind, wp_observe.
  assert (H1 : I (observed s)) by (apply I_observed; exact Hs).
  pose proof (observed_numCameras s) as Hn.
  set (s1 := observed s) in *. unfold wp.
  destruct (nth_error (cameraStates s1) i) as [cs|] eqn:Ecs.
  2:{ apply nth_error_None in Ecs. unfold numCameras in *. lia. }
  destruct (hasSentFrame (stream k cs)) eqn:Esent; [exact H1|].
  unfold lockNewValue. set (tb := mkTripleBuffer _ _ _).
  destruct (negb _); [|apply I_locked; exact H1].
  set (s2 := updateCamera i (setLocked k tb) s1).
  assert (H2 : I s2) by (apply I_locked; exact H1).
  apply (I_broadcast s2 i k (getLockedValue tb) (setLocked k tb cs) H2).
  - unfold s2. rewrite nth_error_updateCamera, Nat.eqb_refl, Ecs. reflexivity.
  - destruct k; exact Esent.
Qed.

Lemma serveCamera_recorded i s :
  (i < numCameras s)%nat -> I s ->
  wp (serveCamera i) (fun _ s' => I s') E s.
Proof.
  intros Hi Hs. unfold serveCamera.
  apply wp_bind, wp_modify. apply wp_bind.
  set (s0 := record (Examined i) s).
  assert (H0 : I s0) by (apply I_examined; exact Hs).
  change (i < numCameras s0)%nat in Hi.
  eapply wp_conseq;
    [apply (wp_and _ _ _ _ _ _ (sendIfNew_trace i Color s0 Hi)
                   (sendIfNew_recorded i Color s0 Hi H0))| |];
    [|intros e s' (_ & H); exact H].
  intros b1 s1 ((Hn1 & _) & H1). apply wp_bind.
  eapply wp_conseq;
    [apply (sendIfNew_recorded i Depth s1); [rewrite Hn1; exact Hi|exact H1]| |];
    [|intros e s' H; exact H].
  intros b2 s2 H2. apply wp_ret. exact H2.
Qed.

Lemma scanCameras_recorded :
  forall n i s, (i + n = numCameras s)%nat -> I s ->
  wp (scanCameras n i) (fun _ s' => I s') E s.
Proof.
  induction n as [|n IH]; intros i s Hin Hs; [apply wp_ret; exact Hs|].
  simpl. apply wp_bind.
  assert (Hi : (i < numCameras s)%nat) by lia.
  eapply wp_conseq;
    [apply (wp_and _ _ _ _ _ _ (serveCamera_trace i s Hi)
                   (serveCamera_recorded i s Hi Hs))| |];
    [|intros e s' (_ & H); exact H].
  intros b s1 ((Hn1 & _) & H1).
  destruct b; [apply wp_ret; exact H1|].
  apply IH; [lia|exact H1].
Qed.

Lemma collectFrames_recorded :
  forall fuel s, I s -> wp (collectFrames fuel) (fun _ s' => I s') E s.
Proof.
  induction fuel as [|fuel IH]; intros s Hs; [exact Hs|].
  unfold wp. cbn [collectFrames].
  destruct ((numMissingDepthFrames s >? 0) || (numMissingColorFrames s >? 0)); [|exact Hs].
  change (wp (bind findNextFrame
                (fun foundFrame : bool =>
                   bind (if foundFrame then ret tt else wait)
                        (fun _ => collectFrames fuel)))
             (fun _ s' => I s') E s).
  apply wp_bind. unfold findNextFrame.
  eapply wp_conseq; [apply (scanCameras_recorded (numCameras s) 0 s eq_refl Hs)| |];
    [|intros e s' H; exact H].
  intros b s1 H1. apply wp_bind.
  destruct b.
  - apply wp_ret. apply IH. exact H1.
  - unfold wait. apply wp_modify. apply IH. apply I_waited. exact H1.
Qed.

Lemma streamingThreadMethod_recorded :
  forall metaFrames fuel s, I s ->
  wp (streamingThreadMethod metaFrames fuel) (fun _ s' => I s') E s.
Proof.
  induction metaFrames as [|mf IH]; intros fuel s Hs; [apply wp_ret; exact Hs|].
  simpl. apply wp_bind.
  eapply wp_conseq; [apply (collectFrames_recorded fuel s Hs)| |];
    [|intros e s' H; exact H].
  intros complete s1 H1. destruct complete; [|apply wp_ret; exact H1].
  apply wp_bind.
  eapply wp_conseq; [apply (I_new s1 H1)| |]; [|intros e s' H; exact H].
  intros u s2 H2. apply IH. exact H2.
Qed.

End HistoryInvariant.

(** ** The meta-frame index *)

Lemma snoc_split {A} (h pre post : list A) (e x : A) :
  h ++ [e] = pre ++ x :: post ->
  (post = [] /\ pre = h /\ x = e) \/
  (exists post', post = post' ++ [e] /\ h = pre ++ x :: post').
Proof.
  destruct post as [|y post] using rev_ind; intros H.
  - left. apply app_inj_tail in H. destruct H as (-> & ->). auto.
  - right. exists post.
    change (pre ++ x :: post ++ [y]) with (pre ++ (x :: post) ++ [y]) in H.
    rewrite app_assoc in H. apply app_inj_tail in H. destruct H as (-> & ->).
    split; reflexivity.
Qed.

Lemma metaFramesBegun_app evs1 evs2 :
  metaFramesBegun (evs1 ++ evs2) = (metaFramesBegun evs1 + metaFramesBegun evs2)%nat.
Proof. unfold metaFramesBegun. rewrite filter_app, length_app. reflexivity. Qed.

Lemma wrap32_succ (n : nat) : wrap32 (wrap32 (Z.of_nat n) + 1) = wrap32 (Z.of_nat (S n)).
Proof.
  unfold wrap32. rewrite Z.add_mod_idemp_l by lia. f_equal. lia.
Qed.

(** A step that changes neither the index nor the history. *)
Lemma indexCounts_transfer s s' :
  metaFrameIndex s' = metaFrameIndex s -> history s' = history s ->
  indexCounts s -> indexCounts s'.
Proof. unfold indexCounts. intros -> ->. auto. Qed.

Lemma indexCounts_silent s e :
  (forall m i k f, e <> Broadcast m i k f) -> (forall m, e <> NewMetaFrame m) ->
  indexCounts s -> indexCounts (record e s).
Proof.
  intros Hb Hn (A1 & A2 & A3). unfold indexCounts. cbn [record metaFrameIndex history].
  assert (He : metaFramesBegun [e] = 0%nat).
  { destruct e; try reflexivity. exfalso. exact (Hn m eq_refl). }
  rewrite metaFramesBegun_app, He, Nat.add_0_r.
  split; [exact A1|]. split.
  - intros pre m i k f post H. apply snoc_split in H.
    destruct H as [(_ & _ & H)|(post' & _ & H)].
    + exfalso. exact (Hb m i k f (eq_sym H)).
    + exact (A2 _ _ _ _ _ _ H).
  - intros pre m post H. apply snoc_split in H.
    destruct H as [(_ & _ & H)|(post' & _ & H)].
    + exfalso. exact (Hn m (eq_sym H)).
    + exact (A3 _ _ _ H).
Qed.

Lemma indexCounts_broadcast s i k f :
  indexCounts s -> indexCounts (record (Broadcast (metaFrameIndex s) i k f) s).
Proof.
  intros (A1 & A2 & A3). unfold indexCounts. cbn [record metaFrameIndex history].
  rewrite metaFramesBegun_app. change (metaFramesBegun [Broadcast _ _ _ _]) with 0%nat.
  rewrite Nat.add_0_r.
  split; [exact A1|]. split.
  - intros pre m i' k' f' post H. apply snoc_split in H.
    destruct H as [(_ & -> & H)|(post' & _ & H)].
    + inversion H. exact A1.
    + exact (A2 _ _ _ _ _ _ H).
  - intros pre m post H. apply snoc_split in H.
    destruct H as [(_ & _ & H)|(post' & _ & H)].
    + discriminate H.
    + exact (A3 _ _ _ H).
Qed.

Lemma applyEnv_metaFrameIndex s e : metaFrameIndex (applyEnv s e) = metaFrameIndex s.
Proof.
  destruct e as [i fr|i fr|flt|sock v]; cbn [applyEnv].
  - apply updateCamera_rest.
  - apply updateCamera_rest.
  - destruct (listeningRound_accepted flt s) as (sock & _ & [(_ & ->)|(_ & [->| ->])]);
      reflexivity.
  - reflexivity.
Qed.

Lemma indexCounts_thread metaFrames fuel s :
  indexCounts s ->
  wp (streamingThreadMethod metaFrames fuel)
     (fun _ s' => indexCounts s') (fun _ s' => indexCounts s') s.
Proof.
  apply (streamingThreadMethod_recorded indexCounts (fun _ s' => indexCounts s')).
  - intros s0 Hs. apply observed_invariant; [| |exact Hs].
    + intros s1 sch H. exact H.
    + intros s1 e H. apply (indexCounts_transfer s1); [| |exact H].
      * apply applyEnv_metaFrameIndex.
      * apply applyEnv_history.
  - intros s0 i H. apply indexCounts_silent; [discriminate|discriminate|exact H].
  - intros s0 H. apply indexCounts_silent; [discriminate|discriminate|exact H].
  - intros s0 i k tb H. apply (indexCounts_transfer s0); [| |exact H].
    + apply updateCamera_rest.
    + apply updateCamera_history.
  - intros s0 i k f cs H _ _. apply wp_bind, wp_modify.
    pose proof (indexCounts_broadcast s0 i k f H) as H1.
    set (s1 := record _ s0) in *. unfold wp, bind.
    destruct (sendToClients_cases i k f s1) as (fo & _ & [(_ & ->)|(e & _ & ->)]);
      [|exact H1].
    unfold modify, ret.
    set (s2 := setClients _ _ s1).
    apply (indexCounts_transfer s1); [| |exact H1].
    + destruct (updateCamera_rest i (setSent k true) s2) as (R1 & _).
      destruct k; cbn [metaFrameIndex setNumMissingFrames]; rewrite R1; reflexivity.
    + destruct k; cbn [history setNumMissingFrames]; rewrite updateCamera_history;
        reflexivity.
  - intros s0 (A1 & A2 & A3). unfold wp, startNewMetaFrame, indexCounts.
    cbn [record setNumMissingFrames setCameraStates setMetaFrameIndex metaFrameIndex history].
    rewrite metaFramesBegun_app. change (metaFramesBegun [NewMetaFrame _]) with 1%nat.
    rewrite Nat.add_1_r, A1, wrap32_succ.
    split; [reflexivity|]. split.
    + intros pre m i k f post H. apply snoc_split in H.
      destruct H as [(_ & _ & H)|(post' & _ & H)].
      * discriminate H.
      * exact (A2 _ _ _ _ _ _ H).
    + intros pre m post H. apply snoc_split in H.
      destruct H as [(_ & -> & H)|(post' & _ & H)].
      * inversion H. reflexivity.
      * exact (A3 _ _ _ H).
Qed.

(** X4.  Run the streaming thread of a server as constructed, against any
    schedule.  However the run ends, the meta-frame index is the number of
    meta-frames begun so far modulo 2^32, and the meta-frame index recorded
    with every fan-out is the number of meta-frames begun before it, modulo
    2^32: the index written with a frame only changes between meta-frames,
    and by one. *)
Theorem metaframe_index_counts_metaframes (port : Z) (sections : list CameraSection)
    (bus : list Camera) (s0 : KinectServer) (sched : list (list EnvEvent))
    (metaFrames fuel : nat) :
  newKinectServer port sections bus = inr s0 ->
  let run := streamingThreadMethod metaFrames fuel (setSchedule sched s0) in
  run <> Undefined /\
  metaFrameIndex (stateOf run)
  = Z.of_nat (metaFramesBegun (history (stateOf run))) mod 2 ^ 32 /\
  forall pre m i k f post,
    history (stateOf run) = pre ++ Broadcast m i k f :: post ->
    m = Z.of_nat (metaFramesBegun pre) mod 2 ^ 32.
Proof.
  intros Hnew run.
  assert (H0 : indexCounts (setSchedule sched s0)).
  { unfold newKinectServer in Hnew.
    destruct (createCameraStates sections bus [] []) as [e|(cams & missing)];
      [discriminate|].
    inversion Hnew; subst s0. unfold indexCounts. cbn.
    split; [reflexivity|]. split.
    - intros pre m i k f post H. destruct pre; discriminate H.
    - intros pre m post H. destruct pre; discriminate H. }
  pose proof (indexCounts_thread metaFrames fuel _ H0) as H.
  unfold wp in H. fold run in H.
  destruct run as [u s'|e s'|]; [| |contradiction].
  - split; [discriminate|]. destruct H as (A1 & A2 & _). split; [exact A1|exact A2].
  - split; [discriminate|]. destruct H as (A1 & A2 & _). split; [exact A1|exact A2].
Qed.

Lemma metaframe_index_counts_metaframes_witness :
  let run := streamingThreadMethod 2 3
               (setSchedule [[Connection []; ColorFrame 0 (sampleFrame 1);
                              DepthFrame 0 (sampleFrame 2)]] oneCamera) in
  run <> Undefined /\
  metaFrameIndex (stateOf run)
  = Z.of_nat (metaFramesBegun (history (stateOf run))) mod 2 ^ 32 /\
  forall pre m i k f post,
    history (stateOf run) = pre ++ Broadcast m i k f :: post ->
    m = Z.of_nat (metaFramesBegun pre) mod 2 ^ 32.
Proof.
  apply (metaframe_index_counts_metaframes 26000
           [sampleSection SampleNames.serialA] [sampleKinect SampleNames.serialA]
           oneCamera
           [[Connection []; ColorFrame 0 (sampleFrame 1); DepthFrame 0 (sampleFrame 2)]]
           2 3).
  vm_compute. reflexivity.
Defined.

(** ** A streaming thread without cameras *)

Lemma wrap32_add_succ (m : Z) (n : nat) :
  wrap32 (wrap32 (m + 1) + Z.of_nat n) = wrap32 (m + Z.of_nat (S n)).
Proof.
  unfold wrap32. rewrite Z.add_mod_idemp_l by lia. f_equal. lia.
Qed.

(** X5.  Without cameras and with both counters at zero the streaming
    thread never examines a camera, never sends and never waits: every
    round of its outer loop only begins another meta-frame, so that after
    [metaFrames] rounds the index has advanced by [metaFrames] (modulo
    2^32), the history has grown by that many records, all of them
    beginnings of meta-frames, and the client vector and the schedule are
    untouched. *)
Theorem no_cameras_no_waiting (metaFrames fuel : nat) (s : KinectServer) :
  cameraStates s = [] ->
  numMissingColorFrames s = 0 -> numMissingDepthFrames s = 0 ->
  0 <= metaFrameIndex s < 2 ^ 32 ->
  (0 < fuel)%nat ->
  exists s',
    streamingThreadMethod metaFrames fuel s = Ok tt s' /\
    metaFrameIndex s' = wrap32 (metaFrameIndex s + Z.of_nat metaFrames) /\
    (exists evs, history s' = history s ++ evs /\
       length evs = metaFrames /\ metaFramesBegun evs = metaFrames) /\
    clients s' = clients s /\ closed s' = closed s /\ schedule s' = schedule s.
Proof.
  intros Hc Hnc Hnd Hm Hf. revert s Hc Hnc Hnd Hm.
  induction metaFrames as [|n IH]; intros s Hc Hnc Hnd Hm.
  - exists s. split; [reflexivity|].
    split; [|split; [exists []; rewrite app_nil_r; auto|auto]].
    rewrite Z.add_0_r, wrap32_small by exact Hm. reflexivity.
  - destruct fuel as [|fuel]; [lia|].
    cbn [streamingThreadMethod]. unfold bind at 1. cbn [collectFrames].
    rewrite Hnc, Hnd. cbn [Z.gtb Z.compare orb].
    unfold bind at 1, startNewMetaFrame.
    set (s1 := record _ _).
    destruct (IH s1) as (s' & Hrun & Hidx & (evs & Hh & Hlen & Hbeg) & Hcl & Hcd & Hsch).
    + unfold s1. cbn. rewrite Hc. reflexivity.
    + unfold s1. cbn. rewrite Hc. reflexivity.
    + unfold s1. cbn. rewrite Hc. reflexivity.
    + unfold s1. cbn [record setNumMissingFrames setCameraStates setMetaFrameIndex metaFrameIndex].
      apply wrap32_range.
    + exists s'. split; [exact Hrun|].
      split; [|split; [|split; [|split]]].
      * rewrite Hidx. unfold s1.
        cbn [record setNumMissingFrames setCameraStates setMetaFrameIndex metaFrameIndex].
        apply wrap32_add_succ.
      * exists (NewMetaFrame (wrap32 (metaFrameIndex s + 1)) :: evs).
        rewrite Hh. unfold s1.
        cbn [record setNumMissingFrames setCameraStates setMetaFrameIndex history].
        rewrite <- app_assoc. split; [reflexivity|].
        split; [simpl; rewrite Hlen; reflexivity|].
        unfold metaFramesBegun in *. cbn [filter length]. rewrite Hbeg. reflexivity.
      * rewrite Hcl. reflexivity.
      * rewrite Hcd. reflexivity.
      * rewrite Hsch. reflexivity.
Qed.

Lemma no_cameras_no_waiting_witness :
  let s := constructed (newKinectServer 26000 [sampleSection SampleNames.serialC]
                          [sampleKinect SampleNames.serialA]) in
  exists s',
    streamingThreadMethod 3 1 s = Ok tt s' /\
    metaFrameIndex s' = wrap32 (metaFrameIndex s + Z.of_nat 3) /\
    (exists evs, history s' = history s ++ evs /\
       length evs = 3%nat /\ metaFramesBegun evs = 3%nat) /\
    clients s' = clients s /\ closed s' = closed s /\ schedule s' = schedule s.
Proof.
  intros s.
  apply (no_cameras_no_waiting 3 1 s).
  - vm_compute. reflexivity.
  - vm_compute. reflexivity.
  - vm_compute. reflexivity.
  - split; [vm_compute; discriminate|vm_compute; reflexivity].
  - apply Nat.lt_0_1.
Defined.

(** ** What a callback commits *)

Lemma committedFrames_app k ops1 ops2 :
  committedFrames k (ops1 ++ ops2) = committedFrames k ops1 ++ committedFrames k ops2.
Proof. unfold committedFrames. apply flat_map_app. Qed.

(** The members of a stream after any sequence of callbacks and locks: the
    file is empty, the compressor has seen the frames of this stream's
    callbacks, and the stream header is the one the codec wrote first. *)
Lemma stream_after_ops (device : Camera) (k : Kind) :
  forall ops,
    let st := stream k (fold_left applyOp ops (newCameraState device)) in
    file st = [] /\
    codec (compressor st) = codecOf k device /\
    written (compressor st) = committedFrames k ops /\
    headers st = streamHeader (codecOf k device).
Proof.
  induction ops as [|op ops IH] using rev_ind.
  - destruct k; cbn; auto.
  - rewrite fold_left_app, committedFrames_app. cbn [fold_left].
    set (cs := fold_left applyOp ops (newCameraState device)) in *.
    cbn zeta in IH. destruct IH as (I1 & I2 & I3 & I4).
    cbn zeta.
    destruct op as [fr|fr|k'], k;
      cbn [applyOp colorStreamingCallback depthStreamingCallback setLocked setFrames
           stream setStream color depth committedFrames flat_map app
           streamingCallback writeFrame storeBuffers file compressor headers codec written];
      cbn [stream] in I1, I2, I3, I4;
      rewrite ?app_nil_r; try (destruct k'); cbn [stream setStream color depth file compressor headers];
      rewrite ?I3; auto.
Qed.

(** X6.  The frame a callback commits to its stream's triple buffer
    consists of the number of frames committed to that stream before
    (modulo 2^32), the time stamp of the decoded frame, and exactly the
    bytes the stream's compressor produces for this frame after the frames
    it compressed before: no stream header, nothing left over from an earlier
    frame, and nothing of the camera's other stream, whatever callbacks and
    locks came before. *)
Theorem callback_commits_encoded_frame (device : Camera) (k : Kind)
    (ops : list CameraOp) (frame : FrameBuffer) :
  let cs := fold_left applyOp ops (newCameraState device) in
  lastCommitted k (applyOp cs (callbackOf k frame))
  = mkCompressedFrame (Z.of_nat (commits k ops) mod 2 ^ 32) (frameTimeStamp frame)
      (encode (codecOf k device) (committedFrames k ops) frame) /\
  file (stream k (applyOp cs (callbackOf k frame))) = [] /\
  headers (stream k (applyOp cs (callbackOf k frame))) = streamHeader (codecOf k device).
Proof.
  intros cs.
  destruct (stream_after_ops device k ops) as (I1 & I2 & I3 & I4). fold cs in I1, I2, I3, I4.
  pose proof (frameIndex_counts device k ops) as Hidx. fold cs in Hidx.
  split; [|split].
  - unfold lastCommitted.
    destruct k; cbn [callbackOf applyOp colorStreamingCallback depthStreamingCallback
                     stream setStream color depth];
      rewrite streamingCallback_committed;
      cbn [stream] in I1, I2, I3, Hidx; rewrite I1, I2, I3, Hidx; reflexivity.
  - destruct k; reflexivity.
  - destruct k; cbn [stream] in I4 |- *; exact I4.
Qed.

(** ** Frames committed between two locks *)

Lemma applyEnv_frameEvent i k fr s :
  applyEnv s (frameEvent i k fr)
  = updateCamera i (fun cs => setStream k (streamingCallback fr (stream k cs)) cs) s.
Proof. destruct k; reflexivity. Qed.

Lemma stream_setStream k st cs : stream k (setStream k st cs) = st.
Proof. destruct k; reflexivity. Qed.

(** A burst of callbacks of one stream only changes that stream. *)
Lemma burst_stream i k :
  forall frs s cs,
    nth_error (cameraStates s) i = Some cs ->
    let s' := fold_left applyEnv (map (frameEvent i k) frs) s in
    exists cs',
      nth_error (cameraStates s') i = Some cs' /\
      stream k cs' = fold_left (fun st fr => streamingCallback fr st) frs (stream k cs) /\
      metaFrameIndex s' = metaFrameIndex s /\ history s' = history s.
Proof.
  induction frs as [|fr frs IH]; intros s cs Hcs; cbn zeta.
  - exists cs. auto.
  - cbn [map fold_left]. rewrite applyEnv_frameEvent.
    set (f := fun c => setStream k (streamingCallback fr (stream k c)) c).
    destruct (IH (updateCamera i f s) (f cs)) as (cs' & H1 & H2 & H3 & H4).
    + rewrite nth_error_updateCamera, Nat.eqb_refl, Hcs. reflexivity.
    + exists cs'. split; [exact H1|]. split.
      * rewrite H2. unfold f. rewrite stream_setStream. reflexivity.
      * rewrite H3, H4, updateCamera_history.
        destruct (updateCamera_rest i f s) as (-> & _). auto.
Qed.

Lemma frameIndex_burst :
  forall frs st,
    0 <= frameIndex st < 2 ^ 32 ->
    let st' := fold_left (fun st fr => streamingCallback fr st) frs st in
    frameIndex st' = wrap32 (frameIndex st + Z.of_nat (length frs)) /\
    hasSentFrame st' = hasSentFrame st.
Proof.
  induction frs as [|fr frs IH] using rev_ind; intros st Hr; cbn zeta.
  - cbn. rewrite Z.add_0_r, wrap32_small by exact Hr. auto.
  - rewrite fold_left_app, length_app. cbn [fold_left length].
    destruct (IH st Hr) as (I1 & I2).
    set (st1 := fold_left _ frs st) in *.
    unfold streamingCallback, writeFrame, storeBuffers. cbn [frameIndex hasSentFrame].
    split; [|exact I2].
    rewrite I1. unfold wrap32. rewrite Z.add_mod_idemp_l by lia. f_equal. lia.
Qed.

Lemma streamingCallback_unlocked fr st :
  lockedIndex (frames (streamingCallback fr st))
  <> mostRecentIndex (frames (streamingCallback fr st)).
Proof.
  unfold streamingCallback, writeFrame, storeBuffers, postNewValue.
  cbn [frames lockedIndex mostRecentIndex].
  intros H. exact (startNewValue_not_locked (frames st) (eq_sym H)).
Qed.

(** X7.  Let camera [i] commit one or more frames of kind [k] before the
    streaming thread next looks at that stream, whose flag is not set.
    Then the thread begins the fan-out of exactly one frame, the one
    committed last: it carries the time stamp of the last decoded frame and
    the stream's frame index advanced by the number of frames committed
    before it in the burst, which are never sent. *)
Theorem newest_frame_is_sent (s : KinectServer) (i : nat) (k : Kind) (cs : CameraState)
    (frs : list FrameBuffer) (fr : FrameBuffer) (rest : list (list EnvEvent)) :
  schedule s = map (frameEvent i k) (frs ++ [fr]) :: rest ->
  nth_error (cameraStates s) i = Some cs ->
  hasSentFrame (stream k cs) = false ->
  0 <= frameIndex (stream k cs) < 2 ^ 32 ->
  exists s' f,
    (sendIfNew i k s = Ok true s' \/ exists e, sendIfNew i k s = Raised e s') /\
    history s' = history s ++ [Broadcast (metaFrameIndex s) i k f] /\
    index f = wrap32 (frameIndex (stream k cs) + Z.of_nat (length frs)) /\
    timeStamp f = frameTimeStamp fr.
Proof.
  intros Hsch Hcs Hflag Hr.
  destruct (burst_stream i k (frs ++ [fr]) (setSchedule rest s) cs Hcs)
    as (cs' & H1 & H2 & H3 & H4).
  rewrite fold_left_app in H2. cbn [fold_left] in H2.
  destruct (frameIndex_burst frs (stream k cs) Hr) as (B1 & B2).
  set (st1 := fold_left _ frs (stream k cs)) in *.
  set (s1 := fold_left applyEnv _ (setSchedule rest s)) in *.
  assert (Hobs : observe s = Ok tt s1).
  { unfold observe. rewrite Hsch. reflexivity. }
  assert (Hf : hasSentFrame (stream k cs') = false).
  { rewrite H2. unfold streamingCallback, writeFrame, storeBuffers. cbn [hasSentFrame].
    rewrite B2. exact Hflag. }
  assert (Hnew : Nat.eqb (lockedIndex (frames (stream k cs')))
                         (mostRecentIndex (frames (stream k cs'))) = false).
  { apply Nat.eqb_neq. rewrite H2. apply streamingCallback_unlocked. }
  set (tb := snd (lockNewValue (frames (stream k cs')))).
  set (s2 := updateCamera i (setLocked k tb) s1).
  assert (Hval : getLockedValue tb
                 = mkCompressedFrame (frameIndex st1) (frameTimeStamp fr)
                     (file st1 ++ encode (codec (compressor st1)) (written (compressor st1)) fr)).
  { unfold getLockedValue, tb, lockNewValue. cbn [snd buffer lockedIndex]. rewrite H2.
    apply streamingCallback_committed. }
  assert (Hm2 : metaFrameIndex s2 = metaFrameIndex s).
  { unfold s2. destruct (updateCamera_rest i (setLocked k tb) s1) as (-> & _). exact H3. }
  assert (Hh2 : history s2 = history s).
  { unfold s2. rewrite updateCamera_history. exact H4. }
  set (s3 := record (Broadcast (metaFrameIndex s2) i k (getLockedValue tb)) s2).
  assert (Hrun : sendIfNew i k s
                 = bind (sendToClients i k (getLockedValue tb)) (fun _ =>
                   bind (modify (updateCamera i (setSent k true))) (fun _ =>
                   bind (modify (fun s => setNumMissingFrames k
                                            (wrap32 (numMissingFrames k s - 1)) s))
                        (fun _ => ret true))) s3).
  { unfold sendIfNew. unfold bind at 1. rewrite Hobs, H1, Hf. unfold lockNewValue.
    rewrite Hnew. reflexivity. }
  rewrite Hrun. unfold bind at 1 4.
  destruct (sendToClients_cases i k (getLockedValue tb) s3)
    as (fo & _ & [(_ & Hsend)|(e & _ & Hsend)]); rewrite Hsend.
  - unfold bind, modify, ret. eexists. exists (getLockedValue tb).
    split; [left; reflexivity|].
    split; [|rewrite Hval; cbn [index timeStamp]; split; [exact B1|reflexivity]].
    destruct k; cbn [history setNumMissingFrames]; rewrite updateCamera_history;
      cbn [history setClients s3 record]; rewrite Hh2, Hm2; reflexivity.
  - eexists. exists (getLockedValue tb).
    split; [right; exists e; reflexivity|].
    split; [|rewrite Hval; cbn [index timeStamp]; split; [exact B1|reflexivity]].
    cbn [history setClients s3 record]. rewrite Hh2, Hm2. reflexivity.
Qed.

Lemma newest_frame_is_sent_witness :
  let s := setSchedule
             [map (frameEvent 0 Color) ([sampleFrame 1; sampleFrame 2] ++ [sampleFrame 3])]
             oneCamera in
  let cs := nth 0 (cameraStates oneCamera)
                (newCameraState (sampleKinect SampleNames.serialA)) in
  exists s' f,
    (sendIfNew 0 Color s = Ok true s' \/ exists e, sendIfNew 0 Color s = Raised e s') /\
    history s' = history s ++ [Broadcast (metaFrameIndex s) 0 Color f] /\
    index f = wrap32 (frameIndex (stream Color cs) + Z.of_nat (length [sampleFrame 1; sampleFrame 2])) /\
    timeStamp f = frameTimeStamp (sampleFrame 3).
Proof.
  intros s cs.
  apply (newest_frame_is_sent s 0 Color cs [sampleFrame 1; sampleFrame 2] (sampleFrame 3) []).
  - reflexivity.
  - vm_compute. reflexivity.
  - vm_compute. reflexivity.
  - split; [vm_compute; discriminate|vm_compute; reflexivity].
Defined.

(** ** The listening thread over several connections *)





(** ** Teardown *)










(** ** Construction that fails *)


(** ** Frame identifiers *)

(** X11.  As long as the camera indices stay below 2^31, the frame
    identifier written with a frame tells camera and kind apart: halved it
    gives the camera index and its last bit the kind.  The bound is sharp:
    camera [i + 2^31] would send the identifiers of camera [i]. *)
Theorem frame_ids_identify_streams (i i' : nat) (k k' : Kind) :
  Z.of_nat i < 2 ^ 31 -> Z.of_nat i' < 2 ^ 31 ->
  (frameId i k / 2 = Z.of_nat i /\ frameId i k mod 2 = kindBit k) /\
  (frameId i k = frameId i' k' -> i = i' /\ k = k') /\
  frameId (i + Z.to_nat (2 ^ 31)) k = frameId i k.
Proof.
  intros Hi Hi'.
  assert (Hk : forall x, 0 <= kindBit x <= 1) by (intros x; destruct x; cbn; lia).
  assert (Hid : forall j x, Z.of_nat j < 2 ^ 31 ->
                  frameId j x = Z.of_nat j * 2 + kindBit x).
  { intros j x Hj. unfold frameId. apply wrap32_small. specialize (Hk x). lia. }
  split; [|split].
  - rewrite (Hid i k Hi). specialize (Hk k). split.
    + rewrite Z.div_add_l by lia. rewrite Z.div_small by lia. lia.
    + rewrite Z.add_comm, Z.mod_add by lia. apply Z.mod_small. lia.
  - rewrite (Hid i k Hi), (Hid i' k' Hi'). intros H.
    pose proof (Hk k) as B. pose proof (Hk k') as B'.
    assert (Hi2 : Z.of_nat i = Z.of_nat i') by lia.
    assert (Hk2 : kindBit k = kindBit k') by lia.
    split; [lia|]. destruct k, k'; try reflexivity; discriminate Hk2.
  - unfold frameId, wrap32. rewrite Nat2Z.inj_add, Z2Nat.id by lia.
    replace ((Z.of_nat i + 2 ^ 31) * 2 + kindBit k)
      with (Z.of_nat i * 2 + kindBit k + 1 * 2 ^ 32) by lia.
    apply Z.mod_add. lia.
Qed.

Lemma frame_ids_identify_streams_witness :
  (frameId 3 Depth / 2 = Z.of_nat 3 /\ frameId 3 Depth mod 2 = kindBit Depth) /\
  (frameId 3 Depth = frameId 3 Color -> 3%nat = 3%nat /\ Depth = Color) /\
  frameId (3 + Z.to_nat (2 ^ 31)) Depth = frameId 3 Depth.
Proof.
  apply (frame_ids_identify_streams 3 3 Depth Color).
  - reflexivity.
  - reflexivity.
Defined.

(** ** A meta-frame whose frames are all there *)

















(** ** What is on a client's wire *)

















(** ** The frame being sent *)

Lemma streamingCallback_locked (fr : FrameBuffer) (st : Stream) :
  getLockedValue (frames (streamingCallback fr st)) = getLockedValue (frames st) /\
  lockedIndex (frames (streamingCallback fr st)) = lockedIndex (frames st) /\
  hasSentFrame (streamingCallback fr st) = hasSentFrame st.
Proof.
  unfold streamingCallback, writeFrame, storeBuffers, getLockedValue, postNewValue.
  cbn [frames buffer lockedIndex hasSentFrame].
  split; [|split; reflexivity].
  destruct (Nat.eqb (lockedIndex (frames st)) (startNewValue (frames st))) eqn:E;
    [|reflexivity].
  apply Nat.eqb_eq in E. exfalso.
  exact (startNewValue_not_locked (frames st) (eq_sym E)).
Qed.

(** X14.  However many frames the two decoders of a camera commit, in
    whatever order, the frame the streaming thread has locked in a triple
    buffer stays as it is, and so does the slot it is in: a callback never
    writes to the frame that is being sent, and it never touches a flag. *)
Theorem callbacks_keep_locked_frame (cs : CameraState) (k : Kind)
    (cbs : list (Kind * FrameBuffer)) :
  let cs' := fold_left (fun c kf => applyOp c (callbackOf (fst kf) (snd kf))) cbs cs in
  getLockedValue (frames (stream k cs')) = getLockedValue (frames (stream k cs)) /\
  lockedIndex (frames (stream k cs')) = lockedIndex (frames (stream k cs)) /\
  hasSentFrame (stream k cs') = hasSentFrame (stream k cs).
Proof.
  revert cs. induction cbs as [|[k' fr] cbs IH]; intros cs; cbn zeta; [auto|].
  cbn [fold_left fst snd].
  destruct (IH (applyOp cs (callbackOf k' fr))) as (I1 & I2 & I3).
  cbv zeta in I1, I2, I3. rewrite I1, I2, I3.
  destruct (streamingCallback_locked fr (stream k' cs)) as (L1 & L2 & L3).
  destruct k, k'; cbn [callbackOf applyOp colorStreamingCallback depthStreamingCallback
                       stream setStream color depth] in *; auto.
Qed.
